(** * GrossProfit-Dashboard: the metrics engine and the export adapter

    A shallow embedding of [process_data] (data_processor.py) and of the
    table-touching part of [GrossProfitMetricsExporter]
    (gross_profit_metrics_exporter.py).

    Modelling conventions.
    - Python floats are exact rationals ([Q]); a NaN cell is [CNaN] and a
      NaN-able number is an [option Q].  Rounding, infinities and the NaN
      of a division by zero are not modelled ([process_data] guards each
      of its divisions), nor is a text that [float] or [to_numeric] reads
      as a NaN or an infinity.
    - A number that is an integer stands for a 64-bit integer: a column
      built from integers only is an int64 column, and [Series.sum] over
      it wraps around at 2^63 as numpy's does.  A float64 column of whole
      numbers is not told apart from it; the two differ only in sums
      outside the int64 range.
    - A pandas DataFrame is a list of columns; every column carries its
      label, whether its dtype is numeric, and its cells.  Column labels
      are taken to be pairwise distinct and columns to have one length, as
      pandas' readers produce them.
    - Department keys are text: a row whose department cell is not a
      string takes the path of a row without actuals.
    - In-place updates of a table are returned next to the result (state
      passing), and where a statement is about the objects of the caller
      the tables sit in a heap and are passed by reference; a Python
      exception is a [Raise] result.
    - Library routines the repository calls but does not define
      ([float], [pandas.to_numeric], numpy's default [argsort], the
      square root of [Series.std]) are fields of [Env]. *)

From Stdlib Require Import List ZArith QArith Qround String Ascii Bool Lia.
From Stdlib Require Import Permutation Sorted Lqa.
Import ListNotations.

Local Open Scope Z_scope.

(** ** Time stamps and dateutil's relativedelta *)

Record Timestamp := mkTs { year : Z; month : Z; day : Z; nanos : Z }.

Definition ts_compare (a b : Timestamp) : comparison :=
  match year a ?= year b with
  | Eq => match month a ?= month b with
          | Eq => match day a ?= day b with
                  | Eq => nanos a ?= nanos b
                  | c => c
                  end
          | c => c
          end
  | c => c
  end.

Definition ts_leb (a b : Timestamp) : bool :=
  match ts_compare a b with Gt => false | _ => true end.

Definition ts_eqb (a b : Timestamp) : bool :=
  match ts_compare a b with Eq => true | _ => false end.

Definition ts_max (a b : Timestamp) : Timestamp := if ts_leb a b then b else a.

Definition is_leap (y : Z) : bool :=
  ((y mod 4 =? 0) && negb (y mod 100 =? 0)) || (y mod 400 =? 0).

(** [calendar.monthrange(y, m)[1]] *)
Definition monthrange (y m : Z) : Z :=
  if m =? 2 then (if is_leap y then 29 else 28)
  else if (m =? 4) || (m =? 6) || (m =? 9) || (m =? 11) then 30
  else 31.

Record relativedelta := mkRd { rd_years : Z; rd_months : Z }.

(** [dt + relativedelta(years, months)], for |months| <= 11 *)
Definition ts_add_rd (dt : Timestamp) (rd : relativedelta) : Timestamp :=
  let y := year dt + rd_years rd in
  let m := month dt + rd_months rd in
  let '(y, m) := if 12 <? m then (y + 1, m - 12)
                 else if m <? 1 then (y - 1, m + 12)
                 else (y, m) in
  mkTs y m (Z.min (monthrange y m) (day dt)) (nanos dt).

Definition ts_sub_rd (dt : Timestamp) (rd : relativedelta) : Timestamp :=
  ts_add_rd dt (mkRd (- rd_years rd) (- rd_months rd)).

(** ** Strings *)

(** [str.lower] on the ASCII letters, which is all the keywords 'target'
    and 'goal' can match. *)
Definition lower_ascii (c : ascii) : ascii :=
  let n := nat_of_ascii c in
  if (Nat.leb 65 n && Nat.leb n 90)%bool then ascii_of_nat (n + 32) else c.

Fixpoint lower (s : string) : string :=
  match s with
  | EmptyString => EmptyString
  | String c r => String (lower_ascii c) (lower r)
  end.

(** [pat in s] *)
Fixpoint contains (pat s : string) : bool :=
  prefix pat s ||
  match s with
  | EmptyString => false
  | String _ r => contains pat r
  end.

(** [s.replace(pat, '')] for a non-empty [pat] *)
Fixpoint str_remove_fuel (fuel : nat) (pat s : string) : string :=
  match fuel with
  | O => s
  | S fuel =>
      match s with
      | EmptyString => EmptyString
      | String c r =>
          if prefix pat s
          then str_remove_fuel fuel pat
                 (substring (String.length pat) (String.length s - String.length pat) s)
          else String c (str_remove_fuel fuel pat r)
      end
  end.

Definition str_remove (pat s : string) : string :=
  str_remove_fuel (S (String.length s)) pat s.

(** [.replace(',', '').replace('，', '')] *)
Definition strip_separators (s : string) : string :=
  str_remove "，" (str_remove "," s).

(** ** Tables *)

Inductive cell :=
| CNum (q : Q)
| CStr (s : string)
| CNaN.

Inductive header :=
| HLabel (s : string)
| HDate (t : Timestamp).

Record Column := mkCol { label : header; numeric : bool; cells : list cell }.

Definition DataFrame := list Column.

Definition nrows (df : DataFrame) : nat :=
  match df with
  | [] => O
  | c :: _ => List.length (cells c)
  end.

Definition cell_at (c : Column) (i : nat) : cell := nth i (cells c) CNaN.

Definition cell_num (c : cell) : option Q :=
  match c with CNum q => Some q | _ => None end.

Definition as_dept (c : cell) : option string :=
  match c with CStr s => Some s | _ => None end.

(** [str(col).lower()], as far as the keyword search reads it: the text
    of a time stamp holds digits, dashes and colons only. *)
Definition header_str_lower (h : header) : string :=
  match h with
  | HLabel s => lower s
  | HDate _ => EmptyString
  end.

Definition is_date_col (c : Column) : bool :=
  match label c with HDate _ => true | HLabel _ => false end.

Definition Qlt_bool (a b : Q) : bool := negb (Qle_bool b a).

Fixpoint sumQ (l : list Q) : Q :=
  match l with
  | [] => 0%Q
  | x :: r => (x + sumQ r)%Q
  end.

(** [Series.mean()] of a non-empty series *)
Definition meanQ (l : list Q) : Q := (sumQ l / inject_Z (Z.of_nat (List.length l)))%Q.

(** A signed 64-bit integer: the value of [z] modulo 2^64 in
    [-2^63, 2^63). *)
Definition wrap64 (z : Z) : Z := (z + 2 ^ 63) mod 2 ^ 64 - 2 ^ 63.

(** The number is an integer. *)
Definition is_whole (q : Q) : bool := Qeq_bool (inject_Z (Qfloor q)) q.

(** The dtype pandas infers for a column built from these values: int64
    when every value is an integer, float64 otherwise. *)
Definition int64_column (vals : list Q) : bool := forallb is_whole vals.

(** [Series.sum()]: numpy adds an int64 column in int64, which wraps
    around; a float64 column is added as floats. *)
Definition series_sum (int64 : bool) (vals : list Q) : Q :=
  if int64 then inject_Z (wrap64 (Qfloor (sumQ vals))) else sumQ vals.

(** ** Library routines outside the repository *)

Record Env := mkEnv {
  (** [float(s)] for a text that reads as a finite number; [None] when
      Python raises [ValueError] *)
  py_float : string -> option Q;
  (** whether [float(s)] is a NaN or an infinity, as for 'NAN', 'inf'
      and '1e999' *)
  float_nonfinite : string -> bool;
  (** [pandas.to_numeric(..., errors='coerce')] on one text cell, [None]
      for a text it turns into NaN *)
  to_numeric : string -> option Q;
  (** [ndarray.argsort(kind='quicksort')], the default of [sort_values] *)
  argsort : forall A : Type, (A -> A -> bool) -> list A -> list nat;
  (** the square root used by [Series.std] *)
  sqrtQ : Q -> Q
}.

(** [rows.take(idx)] *)
Definition take {A : Type} (l : list A) (idx : list nat) : list A :=
  flat_map (fun i => match nth_error l i with Some x => [x] | None => [] end) idx.

(** What numpy promises of [argsort]: the indices are a permutation and
    read the keys in ascending order.  It promises nothing about ties. *)
Definition argsort_ok (E : Env) : Prop :=
  forall (A : Type) (leb : A -> A -> bool) (l : list A),
    (forall x y, leb x y = true \/ leb y x = true) ->
    (forall x y z, leb x y = true -> leb y z = true -> leb x z = true) ->
    Permutation (argsort E A leb l) (seq 0 (List.length l)) /\
    StronglySorted (fun x y => leb x y = true) (take l (argsort E A leb l)).

Section Sorting.
Context {A : Type} (leb : A -> A -> bool).

Fixpoint insert_by (x : A) (l : list A) : list A :=
  match l with
  | [] => [x]
  | y :: r => if leb x y then x :: y :: r else y :: insert_by x r
  end.

(** Python's [sorted]: stable *)
Definition sorted_by (l : list A) : list A := fold_right insert_by [] l.

End Sorting.

Definition indexed {K : Type} (items : list K) : list (nat * K) :=
  combine (seq 0 (List.length items)) items.

(** pandas' [nargsort(items, kind='quicksort', ascending, na_position='last')] *)
Definition nargsort {K : Type} (E : Env) (leb : K -> K -> bool) (ascending : bool)
    (items : list (option K)) : list nat :=
  let idx := indexed items in
  let non_nan :=
    flat_map (fun ik => match snd ik with Some v => [(fst ik, v)] | None => [] end) idx in
  let nan_idx :=
    flat_map (fun ik => match snd ik with Some _ => [] | None => [fst ik] end) idx in
  let non_nan := if ascending then non_nan else rev non_nan in
  let indexer := take (map fst non_nan) (argsort E K leb (map snd non_nan)) in
  let indexer := if ascending then indexer else rev indexer in
  indexer ++ nan_idx.

(** [df.sort_values(by, ascending, na_position='last')] *)
Definition sort_values {R K : Type} (E : Env) (leb : K -> K -> bool) (ascending : bool)
    (by_ : R -> option K) (rows : list R) : list R :=
  take rows (nargsort E leb ascending (map by_ rows)).

(** ** The metrics engine's records *)

(** One row of [chart_df]: 診療科, 月, 実績, 目標, 達成率 *)
Record AchievementRecord := mkAch {
  dept : string;
  period : Timestamp;
  actual_value : Q;
  target_value : Q;
  achievement_rate : Q
}.

(** One row of [summary_df]: 診療科, 直近月達成率, 今年度平均達成率,
    過去6ヶ月平均達成率, 評価コメント, 全体比率, 昨年度同期比 *)
Record DepartmentSummary := mkSum {
  s_dept : string;
  latest_rate : option Q;
  fiscal_ytd_avg_rate : option Q;
  trailing_6mo_avg_rate : option Q;
  trend_label : string;
  profit_share_pct : Q;
  yoy_ratio_pct : option Q
}.

Inductive exn := IndexError | ValueError.

Inductive result (A : Type) :=
| Ok (a : A)
| Raise (e : exn).
Arguments Ok {A} a.
Arguments Raise {A} e.

(** ** process_data, step 1: column roles *)

Definition is_target_header (h : header) : bool :=
  let col_str := header_str_lower h in
  contains "目標" col_str || contains "target" col_str || contains "goal" col_str.

Fixpoint find_index {A : Type} (p : A -> bool) (l : list A) : option nat :=
  match l with
  | [] => None
  | x :: r => if p x then Some O else option_map S (find_index p r)
  end.

(** The position of [target_value_col], [None] when the table has fewer
    than two columns. *)
Definition target_value_col (target_df : DataFrame) : option nat :=
  match target_df with
  | _ :: _ :: _ =>
      match find_index (fun c => is_target_header (label c)) (tl target_df) with
      | Some k => Some (S k)
      | None => Some 1%nat
      end
  | _ => None
  end.

Definition coerce_cell (E : Env) (c : cell) : cell :=
  match c with
  | CNum q => CNum q
  | CStr s => match to_numeric E (strip_separators s) with
              | Some q => CNum q
              | None => CNaN
              end
  | CNaN => CNaN
  end.

(** Lines 113-118: the assignment [target_df[target_value_col] = ...] *)
Definition coerce_column (E : Env) (c : Column) : Column :=
  if numeric c then c
  else mkCol (label c) true (map (coerce_cell E) (cells c)).

Fixpoint update_nth {A : Type} (k : nat) (f : A -> A) (l : list A) : list A :=
  match l, k with
  | [], _ => []
  | x :: r, O => f x :: r
  | x :: r, S k => x :: update_nth k f r
  end.

Definition ym_leb (a b : Timestamp) : bool :=
  (year a <? year b) || ((year a =? year b) && (month a <=? month b)).

Definition date_cols (actual_df : DataFrame) : list Column :=
  sorted_by (fun a b =>
               match label a, label b with
               | HDate x, HDate y => ym_leb x y
               | _, _ => true
               end)
            (filter is_date_col actual_df).

(** ** process_data, step 2: the join *)

Definition dept_matches (dept_name : string) (c : cell) : bool :=
  match c with CStr s => String.eqb s dept_name | _ => false end.

(** [actual_rows.iloc[0]], as a row position; [None] when [actual_rows] is empty *)
Definition first_actual_row (dept_col_actual : Column) (dept_name : string) : option nat :=
  find_index (dept_matches dept_name) (cells dept_col_actual).

Definition emit (dept_name : string) (month_col : Timestamp) (actual target : Q)
  : AchievementRecord :=
  mkAch dept_name month_col actual target ((actual / target) * 100)%Q.

Definition month_records (E : Env) (dept_name : string) (target : Q) (j : nat)
    (cols : list Column) : list AchievementRecord :=
  flat_map (fun c =>
    match label c with
    | HLabel _ => []
    | HDate month_col =>
        match cell_at c j with
        | CNaN => []
        | CNum v => [emit dept_name month_col v target]
        | CStr s => match py_float E (strip_separators s) with
                    | Some v => [emit dept_name month_col v target]
                    | None => []
                    end
        end
    end) cols.

Definition row_records (E : Env) (dept_col_target value_col dept_col_actual : Column)
    (cols : list Column) (i : nat) : list AchievementRecord :=
  match as_dept (cell_at dept_col_target i) with
  | None => []
  | Some dept_name =>
      match first_actual_row dept_col_actual dept_name with
      | None => []
      | Some j =>
          match cell_num (cell_at value_col i) with
          | Some target => if Qlt_bool 0 target
                           then month_records E dept_name target j cols
                           else []
          | None => []
          end
      end
  end.

Definition chart_data (E : Env) (dept_col_target value_col dept_col_actual : Column)
    (cols : list Column) : list AchievementRecord :=
  flat_map (row_records E dept_col_target value_col dept_col_actual cols)
           (seq 0 (List.length (cells dept_col_target))).

(** ** process_data, step 3: the summary *)

(** [chart_df['月'].max()] of a non-empty chart *)
Definition max_period (r : AchievementRecord) (rest : list AchievementRecord) : Timestamp :=
  fold_left ts_max (map period rest) (period r).

(** [chart_df.groupby('診療科')]: the keys in ascending order, each with
    its rows in chart order *)
Definition groupby (chart : list AchievementRecord)
  : list (string * list AchievementRecord) :=
  map (fun k => (k, filter (fun r => String.eqb (dept r) k) chart))
      (sorted_by String.leb (nodup string_dec (map dept chart))).

Section PerDepartment.
Variable E : Env.
Variable today : Timestamp.
Variable most_recent_month_date : Timestamp.
Variable total_recent_profit : Q.
(** whether [chart_df['実績']] is an int64 column *)
Variable actual_int64 : bool.

(** [group.sort_values('月')] *)
Definition sort_group (group : list AchievementRecord) : list AchievementRecord :=
  sort_values E ts_leb true (fun r => Some (period r)) group.

Definition recent_rate_row (group : list AchievementRecord) : list AchievementRecord :=
  filter (fun r => ts_eqb (period r) most_recent_month_date) group.

Definition recent_rate (group : list AchievementRecord) : option Q :=
  match recent_rate_row group with
  | r :: _ => Some (achievement_rate r)
  | [] => None
  end.

Definition recent_actual (group : list AchievementRecord) : Q :=
  match recent_rate_row group with
  | r :: _ => actual_value r
  | [] => 0%Q
  end.

Definition profit_share (group : list AchievementRecord) : Q :=
  if Qlt_bool 0 total_recent_profit
  then ((recent_actual group / total_recent_profit) * 100)%Q
  else 0%Q.

Definition fy_start_year : Z :=
  if 4 <=? month today then year today else year today - 1.

Definition fy_start_date : Timestamp := mkTs fy_start_year 4 1 0.

Definition fy_df (group : list AchievementRecord) : list AchievementRecord :=
  filter (fun r => ts_leb fy_start_date (period r)) group.

Definition mean_rate (rows : list AchievementRecord) : option Q :=
  match rows with
  | [] => None
  | _ => Some (meanQ (map achievement_rate rows))
  end.

Definition six_months_ago : Timestamp :=
  ts_sub_rd most_recent_month_date (mkRd 0 5).

Definition six_month_df (group : list AchievementRecord) : list AchievementRecord :=
  filter (fun r => ts_leb six_months_ago (period r)
                   && ts_leb (period r) most_recent_month_date) group.

Definition last_fy_start_date : Timestamp := mkTs (fy_start_year - 1) 4 1 0.

Definition last_fy_end_month : Timestamp :=
  ts_sub_rd most_recent_month_date (mkRd 1 0).

Definition sum_actual (rows : list AchievementRecord) : Q :=
  match rows with
  | [] => 0%Q
  | _ => series_sum actual_int64 (map actual_value rows)
  end.

Definition current_fy_actual (group : list AchievementRecord) : Q :=
  sum_actual (fy_df group).

Definition last_fy_df (group : list AchievementRecord) : list AchievementRecord :=
  filter (fun r => ts_leb last_fy_start_date (period r)
                   && ts_leb (period r) last_fy_end_month) group.

Definition last_fy_actual (group : list AchievementRecord) : Q :=
  sum_actual (last_fy_df group).

Definition yoy_comparison (group : list AchievementRecord) : option Q :=
  if Qlt_bool 0 (last_fy_actual group)
  then Some ((current_fy_actual group / last_fy_actual group) * 100)%Q
  else None.

Definition comment (rate six_month_avg_rate : option Q) : string :=
  match rate, six_month_avg_rate with
  | Some r, Some a =>
      let diff := (r - a)%Q in
      if Qlt_bool 5 diff then "改善傾向 👍"
      else if Qlt_bool diff (-5) then "悪化傾向 👎"
      else "横ばい 😐"
  | _, _ => EmptyString
  end.

(** The body of the loop over [chart_df.groupby('診療科')] *)
Definition dept_summary (dept_name : string) (group0 : list AchievementRecord)
  : DepartmentSummary :=
  let group := sort_group group0 in
  let six_month_avg_rate := mean_rate (six_month_df group) in
  mkSum dept_name
        (recent_rate group)
        (mean_rate (fy_df group))
        six_month_avg_rate
        (comment (recent_rate group) six_month_avg_rate)
        (profit_share group)
        (yoy_comparison group).

End PerDepartment.

(** The dtype of [chart_df['実績']], as [pd.DataFrame(chart_data)] infers it *)
Definition int64_actuals (chart : list AchievementRecord) : bool :=
  int64_column (map actual_value chart).

Definition total_recent (chart : list AchievementRecord) (latest : Timestamp) : Q :=
  series_sum (int64_actuals chart)
             (map actual_value (filter (fun r => ts_eqb (period r) latest) chart)).

Definition summary_data (E : Env) (today latest : Timestamp)
    (chart : list AchievementRecord) : list DepartmentSummary :=
  map (fun kg => dept_summary E today latest (total_recent chart latest)
                              (int64_actuals chart) (fst kg) (snd kg))
      (groupby chart).

(** [summary_df.sort_values(by='直近月達成率', ascending=False, na_position='last')] *)
Definition sort_summary (E : Env) (rows : list DepartmentSummary) : list DepartmentSummary :=
  sort_values E Qle_bool false latest_rate rows.

(** ** process_data *)

Definition Tables : Type := list DepartmentSummary * list AchievementRecord.

Definition empty_tables : Tables := ([], []).

(** The first component is the target table as the call leaves it. *)
Definition process_data (E : Env) (target_df actual_df : option DataFrame)
    (today : Timestamp) : option DataFrame * result Tables :=
  match target_df, actual_df with
  | Some t, Some a =>
      match t, a with
      | dept_col_target :: _, dept_col_actual :: _ =>
          match target_value_col t with
          | None => (Some t, Ok empty_tables)
          | Some k =>
              let t' := update_nth k (coerce_column E) t in
              let value_col := nth k t' (mkCol (HLabel EmptyString) true []) in
              match date_cols a with
              | [] => (Some t', Ok empty_tables)
              | cols =>
                  match chart_data E dept_col_target value_col dept_col_actual cols with
                  | [] => (Some t', Ok empty_tables)
                  | r :: rest =>
                      let chart_df := r :: rest in
                      let latest := max_period r rest in
                      (Some t', Ok (sort_summary E (summary_data E today latest chart_df),
                                    chart_df))
                  end
              end
          end
      | _, _ => (Some t, Raise IndexError)
      end
  | _, _ => (target_df, Ok empty_tables)
  end.

(** ** Executable instances of the library routines *)

(** A stable argsort (insertion sort on the indexed keys), which is how
    numpy's quicksort treats a partition of at most 17 keys. *)
Definition stable_argsort (A : Type) (leb : A -> A -> bool) (l : list A) : list nat :=
  map fst (sorted_by (fun a b => leb (snd a) (snd b)) (indexed l)).

Definition digit_of (c : ascii) : option Z :=
  let n := nat_of_ascii c in
  if (Nat.leb 48 n && Nat.leb n 57)%bool then Some (Z.of_nat (n - 48)) else None.

Fixpoint parse_digits (acc : Z) (s : string) : option Z :=
  match s with
  | EmptyString => Some acc
  | String c r => match digit_of c with
                  | Some d => parse_digits (10 * acc + d) r
                  | None => None
                  end
  end.

(** Decimal integers without sign, the part of [float] and [to_numeric]
    the examples need. *)
Definition parse_nat_literal (s : string) : option Q :=
  match s with
  | EmptyString => None
  | _ => option_map inject_Z (parse_digits 0 s)
  end.

(** The texts [float] reads as a NaN or an infinity whatever their case,
    with a sign or without; blanks around them and literals too large for
    a float are left to other instances. *)
Definition special_float_literal (s : string) : bool :=
  let t := match s with
           | String "+"%char r => lower r
           | String "-"%char r => lower r
           | _ => lower s
           end in
  String.eqb t "nan" || String.eqb t "inf" || String.eqb t "infinity".

Definition std_env : Env :=
  mkEnv parse_nat_literal special_float_literal parse_nat_literal stable_argsort
        (fun q => q).

(** ** numpy's quicksort

    [ndarray.argsort(kind='quicksort')] is numpy's introsort over an index
    array ([aquicksort_] of npysort/quicksort.cpp, with [aheapsort_] of
    npysort/heapsort.cpp once the depth limit is used up): partitions of
    more than 17 elements are split around the median of three, shorter
    ones are sorted by insertion.  Positions stand for the pointers
    [pl], [pr], [pi], [pj] into [tosort].  (A build of numpy that hands
    [argsort] to a vectorised kernel orders equal keys in its own way;
    neither promises an order of equal keys.) *)

Section NumpyQuicksort.
Context {A : Type} (less : A -> A -> bool) (v : list A).

(** [Tag::less(v[i], v[j])] *)
Definition less_at (i j : nat) : bool :=
  match nth_error v i, nth_error v j with
  | Some x, Some y => less x y
  | _, _ => false
  end.

Definition get (tosort : list nat) (p : nat) : nat := nth p tosort 0%nat.

Definition put (tosort : list nat) (p x : nat) : list nat :=
  update_nth p (fun _ => x) tosort.

(** [INTP_SWAP] of the entries at [p] and [q] *)
Definition intp_swap (tosort : list nat) (p q : nat) : list nat :=
  put (put tosort p (get tosort q)) q (get tosort p).

(** [INTP_SWAP] of the entries at [p] and [q] when [Tag::less(v[*p], v[*q])] *)
Definition swap_if_less (tosort : list nat) (p q : nat) : list nat :=
  if less_at (get tosort p) (get tosort q) then intp_swap tosort p q else tosort.

(** [do ++pi; while (Tag::less(v[*pi], vp))] *)
Fixpoint scan_up (fuel : nat) (tosort : list nat) (vp pi : nat) : nat :=
  match fuel with
  | O => pi
  | S fuel =>
      let pi := S pi in
      if less_at (get tosort pi) vp then scan_up fuel tosort vp pi else pi
  end.

(** [do --pj; while (Tag::less(vp, v[*pj]))] *)
Fixpoint scan_down (fuel : nat) (tosort : list nat) (vp pj : nat) : nat :=
  match fuel with
  | O => pj
  | S fuel =>
      let pj := Nat.pred pj in
      if less_at vp (get tosort pj) then scan_down fuel tosort vp pj else pj
  end.

(** The loop [for (;;)] of the partition; [vp] is the index of the pivot *)
Fixpoint partition_loop (fuel : nat) (tosort : list nat) (vp pi pj : nat)
  : list nat * nat :=
  match fuel with
  | O => (tosort, pi)
  | S fuel =>
      let pi := scan_up (List.length tosort) tosort vp pi in
      let pj := scan_down (List.length tosort) tosort vp pj in
      if Nat.leb pj pi then (tosort, pi)
      else partition_loop fuel (intp_swap tosort pi pj) vp pi pj
  end.

(** One partition of [pl .. pr]; returns the position of the pivot *)
Definition partition_step (tosort : list nat) (pl pr : nat) : list nat * nat :=
  let pm := (pl + Nat.div2 (pr - pl))%nat in
  let tosort := swap_if_less tosort pm pl in
  let tosort := swap_if_less tosort pr pm in
  let tosort := swap_if_less tosort pm pl in
  let vp := get tosort pm in
  let pj := (pr - 1)%nat in
  let tosort := intp_swap tosort pm pj in
  let '(tosort, pi) := partition_loop (List.length tosort) tosort vp pl pj in
  (intp_swap tosort pi (pr - 1), pi).

(** [while (pj > pl && Tag::less(vp, v[*pk])) *pj-- = *pk--;  *pj = vi] *)
Fixpoint shift_down (fuel : nat) (tosort : list nat) (vi pl pj : nat) : list nat :=
  match fuel with
  | O => put tosort pj vi
  | S fuel =>
      if Nat.ltb pl pj && less_at vi (get tosort (pj - 1))
      then shift_down fuel (put tosort pj (get tosort (pj - 1))) vi pl (pj - 1)
      else put tosort pj vi
  end.

(** The insertion sort of [pl .. pr] *)
Definition insertion_sort (tosort : list nat) (pl pr : nat) : list nat :=
  fold_left (fun t pi => shift_down (List.length t) t (get t pi) pl pi)
            (seq (S pl) (pr - pl)) tosort.

(** The sift loop of the heapsort on [a = tosort + base - 1]:
    [for (...; j <= n;) {...}  a[i] = tmp] *)
Fixpoint sift (fuel : nat) (tosort : list nat) (base n tmp i j : nat) : list nat :=
  match fuel with
  | O => put tosort (base + i - 1) tmp
  | S fuel =>
      if Nat.leb j n then
        let j := if Nat.ltb j n
                    && less_at (get tosort (base + j - 1)) (get tosort (base + j))
                 then S j else j in
        if less_at tmp (get tosort (base + j - 1))
        then sift fuel (put tosort (base + i - 1) (get tosort (base + j - 1)))
                  base n tmp j (j + j)
        else put tosort (base + i - 1) tmp
      else put tosort (base + i - 1) tmp
  end.

(** [aheapsort_(vv, tosort + base, n)] *)
Definition aheapsort (tosort : list nat) (base n : nat) : list nat :=
  let heap :=
    fold_left (fun t l => sift n t base n (get t (base + l - 1)) l (l + l))
              (rev (seq 1 (Nat.div2 n))) tosort in
  fold_left (fun t m =>
               let tmp := get t (base + m - 1) in
               let t := put t (base + m - 1) (get t base) in
               sift n t base (m - 1) tmp 1 2)
            (rev (seq 2 (n - 1))) heap.

(** The loop [while (1)] of [aquicksort_]: [top] holds at the head of the
    loop, where the depth limit is tested, and not between two
    partitions of the inner loop. *)
Fixpoint quick_loop (fuel : nat) (tosort : list nat) (pl pr : nat) (cdepth : Z)
    (top : bool) (stack : list (nat * nat * Z)) : list nat :=
  match fuel with
  | O => tosort
  | S fuel =>
      let stack_pop t :=
        match stack with
        | [] => t
        | (pl, pr, cdepth) :: stack => quick_loop fuel t pl pr cdepth true stack
        end in
      if top && (cdepth <? 0)
      then stack_pop (aheapsort tosort pl (pr - pl + 1)%nat)
      else if Nat.ltb 16 (pr - pl)
      then
        let '(tosort, pi) := partition_step tosort pl pr in
        let cdepth := cdepth - 1 in
        if Nat.ltb (pi - pl) (pr - pi)
        then quick_loop fuel tosort pl (pi - 1)%nat cdepth false
                        ((S pi, pr, cdepth) :: stack)
        else quick_loop fuel tosort (S pi) pr cdepth false
                        ((pl, (pi - 1)%nat, cdepth) :: stack)
      else stack_pop (insertion_sort tosort pl pr)
  end.

(** [aquicksort_(v, tosort, num)] on [tosort = arange(num)] *)
Definition aquicksort : list nat :=
  let num := List.length v in
  quick_loop (2 * num + 2)%nat (seq 0 num) 0%nat (num - 1)%nat
             (2 * Z.log2 (Z.of_nat num)) true [].

End NumpyQuicksort.

(** [argsort] with numpy's quicksort; [less] is the strict order of [leb]. *)
Definition numpy_argsort (A : Type) (leb : A -> A -> bool) (l : list A) : list nat :=
  aquicksort (fun x y => negb (leb y x)) l.

Definition numpy_env : Env :=
  mkEnv parse_nat_literal special_float_literal parse_nat_literal numpy_argsort
        (fun q => q).

(** ** The export adapter (GrossProfitMetricsExporter)

    A metric row is kept to the fields that carry data: 診療科名,
    メトリクス名, 値 and 備考.  The unit, category, period label and
    computation time of a row are constants or formatted text. *)

Record Metric := mkMetric {
  entity_name : string;
  metric_name : string;
  value : Q;
  note : string
}.

Record PeriodInfo := mkPeriod {
  p_type : string;
  start_date : Timestamp;
  end_date : Timestamp;
  latest_month : Timestamp
}.

(** [pd.to_datetime] on a value that is a time stamp already *)
Definition to_datetime (t : Timestamp) : Timestamp := t.

(** The assignment [chart_df['月'] = pd.to_datetime(chart_df['月'])] *)
Definition assign_month (chart_df : list AchievementRecord) : list AchievementRecord :=
  map (fun r => mkAch (dept r) (to_datetime (period r)) (actual_value r)
                      (target_value r) (achievement_rate r)) chart_df.

Definition ts_min (a b : Timestamp) : Timestamp := if ts_leb a b then a else b.

Definition min_period (r : AchievementRecord) (rest : list AchievementRecord) : Timestamp :=
  fold_left ts_min (map period rest) (period r).

(** [_calculate_period]; the first component is [chart_df] after the call *)
Definition _calculate_period (analysis_date : Timestamp) (period_type : string)
    (chart_df : list AchievementRecord) : list AchievementRecord * PeriodInfo :=
  match chart_df with
  | [] => (chart_df, mkPeriod period_type analysis_date analysis_date analysis_date)
  | _ :: _ =>
      let chart' := assign_month chart_df in
      match chart' with
      | r :: rest =>
          (chart', mkPeriod period_type (min_period r rest) (max_period r rest)
                            (max_period r rest))
      | [] => (chart', mkPeriod period_type analysis_date analysis_date analysis_date)
      end
  end.

(** Python's [round(x, ndigits)]: half to even *)
Definition round_half_even (x : Q) : Z :=
  let f := Qfloor x in
  let d := (x - inject_Z f)%Q in
  if Qlt_bool d (1 # 2) then f
  else if Qlt_bool (1 # 2) d then f + 1
  else if Z.even f then f else f + 1.

Definition round_to (x : Q) (ndigits : nat) : Q :=
  let scale := inject_Z (10 ^ Z.of_nat ndigits) in
  (inject_Z (round_half_even (x * scale)) / scale)%Q.

Definition count_if {A : Type} (p : A -> bool) (l : list A) : Q :=
  inject_Z (Z.of_nat (List.length (filter p l))).

Definition rate_ge (bound : Q) (s : DepartmentSummary) : bool :=
  match latest_rate s with Some r => Qle_bool bound r | None => false end.

Definition rate_lt (bound : Q) (s : DepartmentSummary) : bool :=
  match latest_rate s with Some r => Qlt_bool r bound | None => false end.

Definition present {A : Type} (l : list (option A)) : list A :=
  flat_map (fun o => match o with Some x => [x] | None => [] end) l.

Definition overall (name : string) (v : Q) : Metric := mkMetric "全体" name v EmptyString.

(** [_calculate_overall_metrics] *)
Definition _calculate_overall_metrics (summary_df : list DepartmentSummary) : list Metric :=
  match summary_df with
  | [] => []
  | _ =>
      let rates := present (map latest_rate summary_df) in
      [overall "総診療科数" (inject_Z (Z.of_nat (List.length summary_df)));
       overall "目標達成診療科数" (count_if (rate_ge 100) summary_df)]
      ++ match rates with
         | [] => []
         | _ => [overall "平均達成率" (round_to (meanQ rates) 1)]
         end
      ++ [overall "高達成診療科数_110%以上" (count_if (rate_ge 110) summary_df);
          overall "標準達成診療科数_100-110%"
                  (count_if (fun s => rate_ge 100 s && rate_lt 110 s) summary_df);
          overall "未達成診療科数_100%未満" (count_if (rate_lt 100) summary_df)]
  end.

(** [_convert_evaluation_to_score] *)
Definition _convert_evaluation_to_score (evaluation : string) : Q :=
  if contains "改善傾向" evaluation then 3
  else if contains "悪化傾向" evaluation then 1
  else 2.

Definition opt_metric (entity name : string) (v : option Q) : list Metric :=
  match v with
  | Some x => [mkMetric entity name (round_to x 1) EmptyString]
  | None => []
  end.

(** [_calculate_department_metrics] *)
Definition _calculate_department_metrics (summary_df : list DepartmentSummary) : list Metric :=
  flat_map (fun row =>
    let dept_name := s_dept row in
    opt_metric dept_name "直近月達成率" (latest_rate row)
    ++ opt_metric dept_name "今年度平均達成率" (fiscal_ytd_avg_rate row)
    ++ opt_metric dept_name "過去6ヶ月平均達成率" (trailing_6mo_avg_rate row)
    ++ opt_metric dept_name "全体比率" (Some (profit_share_pct row))
    ++ opt_metric dept_name "昨年度同期比" (yoy_ratio_pct row)
    ++ [mkMetric dept_name "傾向評価スコア"
                 (_convert_evaluation_to_score (trend_label row)) (trend_label row)])
    summary_df.

(** [Series.nlargest(n)]: the [n] largest values, repeated values included *)
Definition nlargest (n : nat) (l : list Timestamp) : list Timestamp :=
  firstn n (sorted_by (fun a b => ts_leb b a) l).

(** [chart_df['月'].nlargest(3).min()] *)
Definition latest_3_months (chart_df : list AchievementRecord) : option Timestamp :=
  match nlargest 3 (map period chart_df) with
  | [] => None
  | t :: rest => Some (fold_left ts_min rest t)
  end.

Definition recent_data (chart_df : list AchievementRecord) : list AchievementRecord :=
  match latest_3_months chart_df with
  | None => []
  | Some since => filter (fun r => ts_leb since (period r)) chart_df
  end.

(** [Series.std()]: the sample standard deviation (ddof = 1) *)
Definition stdQ (E : Env) (l : list Q) : Q :=
  let m := meanQ l in
  sqrtQ E (sumQ (map (fun x => (x - m) * (x - m)) l)
           / inject_Z (Z.of_nat (List.length l - 1)))%Q.

(** [std / mean * 100], for a mean other than zero (with a zero mean the
    code has a NaN or an infinity for a value) *)
Definition cv (E : Env) (rates : list Q) : Q := ((stdQ E rates / meanQ rates) * 100)%Q.

(** The aggregate stability metric 直近3ヶ月変動係数 *)
Definition stability_metric (E : Env) (chart_df : list AchievementRecord) : list Metric :=
  let achievement_rates := map achievement_rate (recent_data chart_df) in
  if Nat.ltb 1 (List.length achievement_rates)
  then [overall "直近3ヶ月変動係数" (round_to (cv E achievement_rates) 2)]
  else [].

(** [np.polyfit(range(n), y, 1)[0]]: the least-squares slope *)
Definition slope (y : list Q) : Q :=
  let x := map (fun i => inject_Z (Z.of_nat i)) (seq 0 (List.length y)) in
  let mx := meanQ x in
  let my := meanQ y in
  (sumQ (map (fun xy => (fst xy - mx) * (snd xy - my)) (combine x y))
   / sumQ (map (fun xi => (xi - mx) * (xi - mx)) x))%Q.

Definition dept_trend (E : Env) (dept_name : string) (group0 : list AchievementRecord)
  : list Metric :=
  let group := sort_group E group0 in
  if Nat.leb 3 (List.length group)
  then
    let y := map achievement_rate group in
    [mkMetric dept_name "月次トレンド係数" (round_to (slope y) 2) EmptyString;
     mkMetric dept_name "最新月平均乖離"
              (round_to (last y 0%Q - meanQ y) 1) EmptyString]
  else [].

(** [_calculate_trend_metrics]; the first component is [chart_df] after the call *)
Definition _calculate_trend_metrics (E : Env) (chart_df : list AchievementRecord)
  : list AchievementRecord * list Metric :=
  match chart_df with
  | [] => (chart_df, [])
  | _ :: _ =>
      let chart' := assign_month chart_df in
      (chart', stability_metric E chart'
               ++ flat_map (fun kg => dept_trend E (fst kg) (snd kg)) (groupby chart'))
  end.

(** [export_metrics_csv]; the first component holds the two tables as the
    call leaves them *)
Definition export_metrics_csv (E : Env) (summary_df : list DepartmentSummary)
    (chart_df : list AchievementRecord) (analysis_date : Timestamp) (period_type : string)
  : Tables * list Metric :=
  let '(chart1, period_info) := _calculate_period analysis_date period_type chart_df in
  let overall_metrics := _calculate_overall_metrics summary_df in
  let dept_metrics := _calculate_department_metrics summary_df in
  let '(chart2, trend_metrics) := _calculate_trend_metrics E chart1 in
  ((summary_df, chart2), overall_metrics ++ dept_metrics ++ trend_metrics).

(** ** Tables held by reference

    Python passes a table by reference: [process_data] and the exporter
    work on the objects their caller holds.  A heap is the list of the
    caller's tables and a reference is a position in it; the reference
    [None] is Python's [None]. *)

Definition Heap := list DataFrame.

Definition deref (h : Heap) (r : option nat) : option DataFrame :=
  match r with
  | Some i => nth_error h i
  | None => None
  end.

(** [process_data(target_df, actual_df, today)] on two references: the
    assignment of lines 113-118 is made to the object [target_df] refers
    to, and the statements after it read both tables where the
    assignment left them. *)
Definition process_data_call (E : Env) (h : Heap) (target_df actual_df : option nat)
    (today : Timestamp) : Heap * result Tables :=
  let h' :=
    match target_df, fst (process_data E (deref h target_df) (deref h actual_df) today) with
    | Some i, Some t' => update_nth i (fun _ => t') h
    | _, _ => h
    end in
  (h', snd (process_data E (deref h' target_df) (deref h' actual_df) today)).

(** A value of the month column of a chart table as the exporter may be
    handed it: a time stamp, or a text that [pd.to_datetime] has yet to
    read. *)
Inductive month_value :=
| MStamp (t : Timestamp)
| MText (s : string).

(** One row of a chart table before [pd.to_datetime] *)
Record ChartRow := mkRow {
  row_dept : string;
  row_month : month_value;
  row_actual : Q;
  row_target : Q;
  row_rate : Q
}.

Definition chart_rows (chart_df : list AchievementRecord) : list ChartRow :=
  map (fun r => mkRow (dept r) (MStamp (period r)) (actual_value r) (target_value r)
                      (achievement_rate r)) chart_df.

(** [pd.to_datetime] on one value; [parse] reads a text and is [None]
    where pandas raises *)
Definition to_datetime_value (parse : string -> option Timestamp) (m : month_value)
  : option Timestamp :=
  match m with
  | MStamp t => Some (to_datetime t)
  | MText s => parse s
  end.

(** [pd.to_datetime(chart_df['月'])]: the table with the converted
    column, [None] when a value makes the conversion raise *)
Fixpoint to_datetime_column (parse : string -> option Timestamp) (rows : list ChartRow)
  : option (list AchievementRecord) :=
  match rows with
  | [] => Some []
  | r :: rest =>
      match to_datetime_value parse (row_month r), to_datetime_column parse rest with
      | Some t, Some l =>
          Some (mkAch (row_dept r) t (row_actual r) (row_target r) (row_rate r) :: l)
      | _, _ => None
      end
  end.

(** [export_metrics_csv] on the two tables its caller holds; the first
    component is those tables as the call leaves them.  An empty chart
    is not assigned to; otherwise the first assignment
    [chart_df['月'] = pd.to_datetime(chart_df['月'])], in
    [_calculate_period], either raises, which [export_metrics_csv]
    passes on, or leaves a column of time stamps for the rest of the
    call. *)
Definition export_metrics_csv_call (parse : string -> option Timestamp) (E : Env)
    (summary_df : list DepartmentSummary) (chart_df : list ChartRow)
    (analysis_date : Timestamp) (period_type : string)
  : (list DepartmentSummary * list ChartRow) * result (list Metric) :=
  match chart_df with
  | [] => ((summary_df, chart_df),
           Ok (snd (export_metrics_csv E summary_df [] analysis_date period_type)))
  | _ :: _ =>
      match to_datetime_column parse chart_df with
      | None => ((summary_df, chart_df), Raise ValueError)
      | Some chart =>
          let out := export_metrics_csv E summary_df chart analysis_date period_type in
          ((fst (fst out), chart_rows (snd (fst out))), Ok (snd out))
      end
  end.

(** ** Vocabulary of the statements *)

(** A time stamp as the tuple it is compared by. *)
Definition ts_lex (a b : Timestamp) : Prop :=
  year a < year b \/
  (year a = year b /\
   (month a < month b \/
    (month a = month b /\
     (day a < day b \/ (day a = day b /\ nanos a <= nanos b))))).

Definition has_key {R K : Type} (by_ : R -> option K) (r : R) : bool :=
  match by_ r with Some _ => true | None => false end.

Definition dir_le {K : Type} (leb : K -> K -> bool) (ascending : bool) (x y : K) : Prop :=
  if ascending then leb x y = true else leb y x = true.

(** [a] may stand before [b] in a table sorted by [by_]. *)
Definition key_rel {R K : Type} (leb : K -> K -> bool) (ascending : bool)
    (by_ : R -> option K) (a b : R) : Prop :=
  match by_ a, by_ b with
  | Some x, Some y => dir_le leb ascending x y
  | _, _ => False
  end.

(** The index [fst iv] reads a row of [rows] whose key is [snd iv]. *)
Definition keyed_at {R K : Type} (by_ : R -> option K) (rows : list R) (iv : nat * K) : Prop :=
  exists r, nth_error rows (fst iv) = Some r /\ by_ r = Some (snd iv).

(** [p] is the latest period of the chart: some record has it and no
    record is later. *)
Definition is_latest (chart : list AchievementRecord) (p : Timestamp) : Prop :=
  (exists r, In r chart /\ period r = p) /\
  forall r, In r chart -> ts_leb (period r) p = true.

(** The AchievementRecords of one department, in chart order. *)
Definition dept_rows (chart : list AchievementRecord) (d : string)
  : list AchievementRecord :=
  filter (fun r => String.eqb (dept r) d) chart.

Definition has_record_at (chart : list AchievementRecord) (d : string) (p : Timestamp)
  : Prop :=
  exists r, In r chart /\ dept r = d /\ period r = p.

(** The department names of the target table: the text cells of its
    first column. *)
Definition target_depts (target_df : DataFrame) : list string :=
  match target_df with
  | [] => []
  | c :: _ => flat_map (fun x => match as_dept x with Some s => [s] | None => [] end)
                       (cells c)
  end.

(** The two tables of a successful run (empty for a raised exception). *)
Definition tables_of (r : result Tables) : Tables :=
  match r with
  | Ok x => x
  | Raise _ => empty_tables
  end.

(** ** The scenario of the specification *)

Definition first_of (y m : Z) : Timestamp := mkTs y m 1 0.

Definition scenario_target : DataFrame :=
  [ mkCol (HLabel "診療科") false [CStr "A"; CStr "B"];
    mkCol (HLabel "目標") true [CNum 100; CNum 200] ].

Definition scenario_actual : DataFrame :=
  [ mkCol (HLabel "診療科") false [CStr "A"; CStr "B"];
    mkCol (HDate (first_of 2024 1)) true [CNum 50; CNum 200];
    mkCol (HDate (first_of 2024 2)) true [CNum 120; CNum 180] ].

Definition scenario_today : Timestamp := first_of 2024 3.

Definition scenario_tables : Tables :=
  tables_of (snd (process_data std_env (Some scenario_target) (Some scenario_actual)
                               scenario_today)).

(** A table whose keys are all present and strictly in sorting order. *)
Definition strictly_sorted {R K : Type} (leb : K -> K -> bool) (ascending : bool)
    (by_ : R -> option K) (rows : list R) : Prop :=
  StronglySorted (fun a b => key_rel leb ascending by_ a b /\
                             ~ key_rel leb ascending by_ b a) rows /\
  Forall (fun r => has_key by_ r = true) rows.

(** [x] is approximately [y]: equal as exact rationals. *)
Definition rate_is (x : option Q) (y : Q) : Prop :=
  match x with
  | Some v => (v == y)%Q
  | None => False
  end.

(** A target table whose value column holds text with a separator. *)
Definition text_target : DataFrame :=
  [ mkCol (HLabel "診療科") false [CStr "A"; CStr "B"];
    mkCol (HLabel "目標") false [CStr "1,000"; CStr "200"] ].

Definition text_target_after : DataFrame :=
  [ mkCol (HLabel "診療科") false [CStr "A"; CStr "B"];
    mkCol (HLabel "目標") true [CNum 1000; CNum 200] ].

Definition missing_rate (s : DepartmentSummary) : bool := negb (has_key latest_rate s).

(** [x] may stand before [y] when sorting by latest rate, descending. *)
Definition rate_desc (x y : DepartmentSummary) : Prop :=
  match latest_rate x, latest_rate y with
  | Some rx, Some ry => (ry <= rx)%Q
  | _, _ => False
  end.

(** Twenty-four departments whose achievement in one month is 90, 100
    or 110 per cent in turn. *)
Definition tie_depts : list string :=
  ["D01"; "D02"; "D03"; "D04"; "D05"; "D06"; "D07"; "D08"; "D09"; "D10"; "D11"; "D12";
   "D13"; "D14"; "D15"; "D16"; "D17"; "D18"; "D19"; "D20"; "D21"; "D22"; "D23"; "D24"]%string.

Definition tie_target : DataFrame :=
  [ mkCol (HLabel "診療科") false (map CStr tie_depts);
    mkCol (HLabel "目標") true (repeat (CNum 100) 24) ].

Definition tie_actual : DataFrame :=
  [ mkCol (HLabel "診療科") false (map CStr tie_depts);
    mkCol (HDate (first_of 2024 1)) true
          (map (fun i => CNum (nth (i mod 3) [90; 100; 110] 0)%Q) (seq 0 24)) ].

Definition tie_tables (E : Env) : Tables :=
  tables_of (snd (process_data E (Some tie_target) (Some tie_actual) scenario_today)).

(** [x] stands before [y] in [l]. *)
Definition stands_before {A : Type} (x y : A) (l : list A) : Prop :=
  exists l1 l2 l3, l = l1 ++ x :: l2 ++ y :: l3.

(** A target table that lists one department twice. *)
Definition dup_target : DataFrame :=
  [ mkCol (HLabel "診療科") false [CStr "A"; CStr "A"];
    mkCol (HLabel "目標") true [CNum 100; CNum 200] ].

Definition dup_actual : DataFrame :=
  [ mkCol (HLabel "診療科") false [CStr "A"];
    mkCol (HDate (first_of 2024 1)) true [CNum 50] ].

Definition dup_tables : Tables :=
  tables_of (snd (process_data std_env (Some dup_target) (Some dup_actual) scenario_today)).

(** The records of the chart at period [p]. *)
Definition at_period (p : Timestamp) (chart : list AchievementRecord)
  : list AchievementRecord :=
  filter (fun r => ts_eqb (period r) p) chart.

(** Three departments reporting in each of three months. *)
Definition quarter_target : DataFrame :=
  [ mkCol (HLabel "診療科") false [CStr "A"; CStr "B"; CStr "C"];
    mkCol (HLabel "目標") true [CNum 100; CNum 100; CNum 100] ].

Definition quarter_actual : DataFrame :=
  [ mkCol (HLabel "診療科") false [CStr "A"; CStr "B"; CStr "C"];
    mkCol (HDate (first_of 2024 1)) true [CNum 90; CNum 80; CNum 95];
    mkCol (HDate (first_of 2024 2)) true [CNum 100; CNum 100; CNum 100];
    mkCol (HDate (first_of 2024 3)) true [CNum 110; CNum 120; CNum 105] ].

Definition quarter_chart : list AchievementRecord :=
  snd (tables_of (snd (process_data std_env (Some quarter_target) (Some quarter_actual)
                                    (first_of 2024 4)))).

(** The periods of a chart without repetition, in order of first
    occurrence. *)
Fixpoint distinct_periods (l : list Timestamp) : list Timestamp :=
  match l with
  | [] => []
  | t :: r => t :: filter (fun u => negb (ts_eqb u t)) (distinct_periods r)
  end.

(** The specification's wording of the stability window: the records
    falling in the 3 most recent distinct periods. *)
Definition recent_3_periods_rows (chart_df : list AchievementRecord)
  : list AchievementRecord :=
  let latest3 := nlargest 3 (distinct_periods (map period chart_df)) in
  filter (fun r => existsb (ts_eqb (period r)) latest3) chart_df.

(** One department with a record in May of two consecutive years. *)
Definition yoy_target : DataFrame :=
  [ mkCol (HLabel "診療科") false [CStr "A"];
    mkCol (HLabel "目標") true [CNum 100] ].

Definition yoy_actual : DataFrame :=
  [ mkCol (HLabel "診療科") false [CStr "A"];
    mkCol (HDate (first_of 2023 5)) true [CNum 50];
    mkCol (HDate (first_of 2024 5)) true [CNum 100] ].

Definition yoy_tables : Tables :=
  tables_of (snd (process_data std_env (Some yoy_target) (Some yoy_actual)
                               (first_of 2024 6))).

(** ** The report renderer (html_generator.py)

    [generate_html] is kept to what it computes from the two tables; the
    template text around those values is constant. *)

(** What [format_rate] prints: "---" or the rate with one decimal. *)
Inductive Shown :=
| Dashes
| Percent (q : Q).

Definition format_rate (rate : option Q) : Shown :=
  match rate with
  | None => Dashes
  | Some r => Percent (round_to r 1)
  end.

Definition get_performance_class (rate : option Q) : string :=
  match rate with
  | None => "info"
  | Some r => if Qle_bool 100 r then "success"
              else if Qle_bool 90 r then "warning"
              else "danger"
  end.

Record Card := mkCard {
  c_dept : string;
  c_rank : nat;
  c_perf_class : string;
  c_rank_badge_class : string;
  c_progress_width : Q;
  c_trend_icon : string;
  c_trend_class : string;
  c_latest : Shown;
  c_six_month : Shown;
  c_fiscal : Shown;
  c_share : Shown;
  c_yoy : Shown;
  c_evaluation : string
}.

(** The body of the loop over [summary_df.iterrows()] *)
Definition card (index : nat) (row : DepartmentSummary) : Card :=
  let perf_class := get_performance_class (latest_rate row) in
  let rank_badge_class :=
    match index with
    | 0%nat => "rank-badge-gold"%string
    | 1%nat => "rank-badge-silver"%string
    | 2%nat => "rank-badge-bronze"%string
    | _ => EmptyString
    end in
  let progress_width :=
    match latest_rate row with
    | Some r => if Qlt_bool 100 r then 100%Q else r
    | None => 0%Q
    end in
  let trend :=
    if String.eqb (trend_label row) "改善傾向 👍" then ("↗", "up")%string
    else if String.eqb (trend_label row) "悪化傾向 👎" then ("↘", "down")%string
    else ("→", "neutral")%string in
  let yoy_comparison_val :=
    match yoy_ratio_pct row with Some v => v | None => 0%Q end in
  mkCard (s_dept row) (index + 1) perf_class rank_badge_class progress_width
         (fst trend) (snd trend)
         (format_rate (latest_rate row))
         (format_rate (trailing_6mo_avg_rate row))
         (format_rate (fiscal_ytd_avg_rate row))
         (format_rate (Some (profit_share_pct row)))
         (format_rate (Some yoy_comparison_val))
         (trend_label row).

(** [n] as [width] decimal digits, for 0 <= n < 10 ^ width *)
Fixpoint pad_int (width : nat) (n : Z) : string :=
  match width with
  | O => EmptyString
  | S w => String.append (pad_int w (n / 10))
                         (String (ascii_of_nat (48 + Z.to_nat (n mod 10))) EmptyString)
  end.

(** [strftime('%Y-%m-%d')], for a year of four digits *)
Definition strftime_ymd (t : Timestamp) : string :=
  (pad_int 4 (year t) ++ "-" ++ pad_int 2 (month t) ++ "-" ++ pad_int 2 (day t))%string.

(** One record of [group.to_dict('records')] *)
Record JsonRecord := mkJson {
  j_dept : string;
  j_month : string;
  j_actual : Q;
  j_target : Q;
  j_rate : Q
}.

Definition chart_json_data (chart_df : list AchievementRecord)
  : list (string * list JsonRecord) :=
  map (fun kg =>
         (fst kg,
          map (fun r => mkJson (dept r) (strftime_ymd (period r)) (actual_value r)
                               (target_value r) (achievement_rate r)) (snd kg)))
      (groupby chart_df).

Record Report := mkReport {
  r_cards : list Card;
  r_chart_data : list (string * list JsonRecord);
  r_total_depts : nat;
  r_achieved_depts : nat;
  r_avg_achievement : option Q;
  r_tracking : option string
}.

Definition cards_html (summary_df : list DepartmentSummary) : list Card :=
  map (fun ir => card (fst ir) (snd ir)) (indexed summary_df).

(** [generate_html] on the tables of a successful run, as app.py calls
    it (on the pair of empty tables, which have no column,
    [chart_df.groupby] raises KeyError) *)
Definition generate_html (summary_df : list DepartmentSummary)
    (chart_df : list AchievementRecord) (google_analytics_id : option string) : Report :=
  let total_depts := List.length summary_df in
  let achieved_depts := List.length (filter (rate_ge 100) summary_df) in
  let avg_achievement :=
    match summary_df with
    | [] => Some 0%Q
    | _ => match present (map latest_rate summary_df) with
           | [] => None
           | rates => Some (meanQ rates)
           end
    end in
  let ga_script_html :=
    match google_analytics_id with
    | Some EmptyString => None
    | other => other
    end in
  mkReport (cards_html summary_df) (chart_json_data chart_df)
           total_depts achieved_depts avg_achievement ga_script_html.

(** The regression of the chart page (the script's
    [calculateLinearRegression], whose abscissa is the index):
    slope and intercept. *)
Definition calculateLinearRegression (y : list Q) : Q * Q :=
  let n := inject_Z (Z.of_nat (List.length y)) in
  let xs := map (fun i => inject_Z (Z.of_nat i)) (seq 0 (List.length y)) in
  let sumX := sumQ xs in
  let sumY := sumQ y in
  let sumXY := sumQ (map (fun xy => fst xy * snd xy) (combine xs y))%Q in
  let sumX2 := sumQ (map (fun xi => xi * xi) xs)%Q in
  let slope := ((n * sumXY - sumX * sumY) / (n * sumX2 - sumX * sumX))%Q in
  let intercept := ((sumY - slope * sumX) / n)%Q in
  (slope, intercept).

(** [regressionY]: the trend line drawn over the series *)
Definition regressionY (y : list Q) : list Q :=
  let reg := calculateLinearRegression y in
  map (fun i => (snd reg + fst reg * inject_Z (Z.of_nat i))%Q) (seq 0 (List.length y)).

(** ** The loader ([load_data]) and the page script (app.py) *)

Record UploadedFile := mkFile { file_name : string; file_content : string }.

(** The pandas readers; [None] stands for a raised exception (and, for
    [to_datetime], also for NaT). *)
Record Readers := mkReaders {
  read_csv : UploadedFile -> option DataFrame;
  read_excel : UploadedFile -> option DataFrame;
  to_datetime_text : string -> option Timestamp
}.

(** The text after the last [c] of [s] *)
Fixpoint after_last (c : ascii) (s : string) : option string :=
  match s with
  | EmptyString => None
  | String a r =>
      match after_last c r with
      | Some t => Some t
      | None => if Ascii.eqb a c then Some r else None
      end
  end.

Fixpoint drop_dots (s : string) : string :=
  match s with
  | String a r => if Ascii.eqb a "."%char then drop_dots r else s
  | EmptyString => EmptyString
  end.

(** [os.path.splitext(p)[1]] (POSIX): from the last dot of the last path
    component, unless only dots come before it there *)
Definition splitext_ext (p : string) : string :=
  let base := match after_last "/"%char p with Some b => b | None => p end in
  match after_last "."%char (drop_dots base) with
  | Some t => String "."%char t
  | None => EmptyString
  end.

Definition preserve_keywords : list string :=
  ["診療科"; "名称"; "目標"; "粗利"; "金額"; "target"; "goal"; "amount"; "値"]%string.

Definition should_preserve (col : header) : bool :=
  existsb (fun keyword => contains keyword (header_str_lower col)) preserve_keywords.

(** The entry of [new_columns] for one column label *)
Definition new_column (R : Readers) (col : header) : header :=
  if should_preserve col then col
  else match col with
       | HDate t => HDate t
       | HLabel s => match to_datetime_text R s with
                     | Some parsed_date => HDate parsed_date
                     | None => HLabel s
                     end
       end.

Definition header_eqb (a b : header) : bool :=
  match a, b with
  | HLabel x, HLabel y => String.eqb x y
  | HDate x, HDate y => ts_eqb x y
  | _, _ => false
  end.

(** [df[labels]]: for each label, the columns that carry it *)
Definition select_columns (df : DataFrame) (labels : list header) : DataFrame :=
  flat_map (fun l => filter (fun c => header_eqb (label c) l) df) labels.

Definition rename_columns (R : Readers) (df : DataFrame) : DataFrame :=
  map (fun c => mkCol (new_column R (label c)) (numeric c) (cells c)) df.

(** The choice of the reader by [file_extension]; [None] also for an
    extension that is not supported *)
Definition read_upload (R : Readers) (f : UploadedFile) : option DataFrame :=
  let file_extension := lower (splitext_ext (file_name f)) in
  if String.eqb file_extension ".csv" then read_csv R f
  else if String.eqb file_extension ".xlsx" || String.eqb file_extension ".xls"
       then read_excel R f
       else None.

Definition load_data (R : Readers) (file : option UploadedFile) : option DataFrame :=
  match file with
  | None => None
  | Some f =>
      match read_upload R f with
      | None => None
      | Some df =>
          let df := rename_columns R df in
          let valid_columns := map label df in
          Some (select_columns df valid_columns)
      end
  end.

Definition supported_extension (f : UploadedFile) : bool :=
  let file_extension := lower (splitext_ext (file_name f)) in
  String.eqb file_extension ".csv" || String.eqb file_extension ".xlsx"
  || String.eqb file_extension ".xls".

(** An upload read as three columns, the second with a date for a header. *)
Definition demo_frame : DataFrame :=
  [ mkCol (HLabel "診療科名") false [CStr "A"];
    mkCol (HLabel "2024-01-01") true [CNum 50];
    mkCol (HLabel "目標 2024-01-01") true [CNum 100] ].

Definition demo_readers : Readers :=
  mkReaders (fun _ => Some demo_frame) (fun _ => None)
            (fun s => if contains "2024-01-01" s then Some (first_of 2024 1) else None).

Definition demo_file : UploadedFile := mkFile "upload/target.CSV" EmptyString.

(** What the page shows after its main block *)
Inductive Outcome :=
| AwaitingUpload
| Completed (tables : Tables)
| ProcessingFailed
| Crashed (e : exn).

(** The main block of app.py *)
Definition app (R : Readers) (E : Env) (target_file actual_file : option UploadedFile)
    (now : Timestamp) : Outcome :=
  match target_file, actual_file with
  | Some _, Some _ =>
      let target_df := load_data R target_file in
      let actual_df := load_data R actual_file in
      match snd (process_data E target_df actual_df now) with
      | Raise e => Crashed e
      | Ok (summary_df, chart_df) =>
          match summary_df, chart_df with
          | _ :: _, _ :: _ => Completed (summary_df, chart_df)
          | _, _ => ProcessingFailed
          end
      end
  | _, _ => AwaitingUpload
  end.

(** ** Further vocabulary *)

(** The department names of the actual table. *)
Definition actual_depts (actual_df : DataFrame) : list string := target_depts actual_df.

(** The time stamps that label the date columns of a table. *)
Definition date_labels (df : DataFrame) : list Timestamp :=
  flat_map (fun c => match label c with HDate t => [t] | HLabel _ => [] end) df.

Definition calendar_month (t : Timestamp) : Prop := 1 <= month t <= 12.

(** The rank of a performance class on the report: success first. *)
Definition class_rank (c : string) : nat :=
  if String.eqb c "success" then 0
  else if String.eqb c "warning" then 1
  else if String.eqb c "danger" then 2
  else 3.

(** The value of the first metric of [entity] called [name]. *)
Definition metric_value (entity name : string) (metrics : list Metric) : option Q :=
  option_map value
    (find (fun m => String.eqb (entity_name m) entity && String.eqb (metric_name m) name)
          metrics).

(** A series on a line: y_i = a + b * i. *)
Definition linear_series (a b : Q) (n : nat) : list Q :=
  map (fun i => (a + b * inject_Z (Z.of_nat i))%Q) (seq 0 n).

(** The order [date_cols] sorts by. *)
Definition col_ym_leb (a b : Column) : bool :=
  match label a, label b with
  | HDate x, HDate y => ym_leb x y
  | _, _ => true
  end.

(** Records in the order of their (year, month). *)
Definition chronological (rows : list AchievementRecord) : Prop :=
  StronglySorted (fun r1 r2 => ym_leb (period r1) (period r2) = true) rows.

(** The four texts of 評価コメント. *)
Definition trend_labels : list string :=
  [EmptyString; "改善傾向 👍"; "悪化傾向 👎"; "横ばい 😐"]%string.


(** [q] lies in the range of a signed 64-bit integer. *)
Definition int64_range (q : Q) : Prop :=
  (inject_Z (- 2 ^ 63) <= q)%Q /\ (q < inject_Z (2 ^ 63))%Q.

(** One department whose two actuals of the prior year are 2^62 each. *)
Definition wrap_target : DataFrame :=
  [ mkCol (HLabel "診療科") false [CStr "A"];
    mkCol (HLabel "目標") true [CNum 100] ].

Definition wrap_actual : DataFrame :=
  [ mkCol (HLabel "診療科") false [CStr "A"];
    mkCol (HDate (first_of 2023 5)) true [CNum (inject_Z (2 ^ 62))];
    mkCol (HDate (first_of 2023 6)) true [CNum (inject_Z (2 ^ 62))];
    mkCol (HDate (first_of 2024 6)) true [CNum 100] ].

Definition wrap_tables : Tables :=
  tables_of (snd (process_data std_env (Some wrap_target) (Some wrap_actual)
                               (first_of 2024 7))).

(** Two date columns of one calendar month; department B reports in the
    first of them only. *)
Definition halfmonth_target : DataFrame :=
  [ mkCol (HLabel "診療科") false [CStr "A"; CStr "B"];
    mkCol (HLabel "目標") true [CNum 100; CNum 100] ].

Definition halfmonth_actual : DataFrame :=
  [ mkCol (HLabel "診療科") false [CStr "A"; CStr "B"];
    mkCol (HDate (mkTs 2024 2 1 0)) true [CNum 50; CNum 60];
    mkCol (HDate (mkTs 2024 2 15 0)) true [CNum 70; CNaN] ].

Definition halfmonth_tables : Tables :=
  tables_of (snd (process_data std_env (Some halfmonth_target) (Some halfmonth_actual)
                               scenario_today)).

(** [process_data] assigns to column [j] of the target table, whose
    column there is [c]: both tables have a column, [j] is the
    target-value column and its dtype is not numeric. *)
Definition is_coerced (target_df : DataFrame) (actual_df : option DataFrame)
    (j : nat) (c : Column) : Prop :=
  (exists a0 adf, actual_df = Some (a0 :: adf)) /\
  target_value_col target_df = Some j /\ numeric c = false.

(** A chart whose months are held as text. *)
Definition text_chart : list ChartRow :=
  [ mkRow "A" (MText "2024-01-01") 50 100 50;
    mkRow "A" (MText "2024-02-01") 120 100 120 ].

Definition demo_parse (s : string) : option Timestamp :=
  if String.eqb s "2024-01-01" then Some (first_of 2024 1)
  else if String.eqb s "2024-02-01" then Some (first_of 2024 2)
  else None.

(** No text of a date column of the actual table is read by [float] as
    a NaN or an infinity: every actual value is a finite number. *)
Definition finite_actuals (E : Env) (actual_df : option DataFrame) : Prop :=
  forall adf c s,
    actual_df = Some adf -> In c adf -> is_date_col c = true ->
    In (CStr s) (cells c) -> float_nonfinite E (strip_separators s) = false.

(** * Properties *)

(** [finite_actuals] of a table whose date columns hold no text *)
Ltac no_text_actuals :=
  let adf := fresh in let c := fresh in let s := fresh in
  let Ha := fresh in let Hc := fresh in let Hd := fresh in let Hs := fresh in
  intros adf c s Ha Hc Hd Hs; injection Ha as <-;
  simpl in Hc;
  repeat (destruct Hc as [<-|Hc];
          [first [discriminate Hd | simpl in Hs; intuition discriminate]|]);
  destruct Hc.

(** ** Order facts *)

Lemma ts_compare_eq (a b : Timestamp) : ts_compare a b = Eq -> a = b.
Proof.
  destruct a as [y1 m1 d1 n1], b as [y2 m2 d2 n2]; unfold ts_compare; simpl.
  destruct (Z.compare_spec y1 y2); try discriminate.
  destruct (Z.compare_spec m1 m2); try discriminate.
  destruct (Z.compare_spec d1 d2); try discriminate.
  destruct (Z.compare_spec n1 n2); try discriminate.
  intros _; subst; reflexivity.
Qed.

Lemma ts_compare_refl (a : Timestamp) : ts_compare a a = Eq.
Proof.
  destruct a; unfold ts_compare; simpl; now rewrite !Z.compare_refl.
Qed.

Lemma ts_eqb_eq (a b : Timestamp) : ts_eqb a b = true <-> a = b.
Proof.
  unfold ts_eqb; split.
  - destruct (ts_compare a b) eqn:H; try discriminate; intros _; now apply ts_compare_eq.
  - intros ->; now rewrite ts_compare_refl.
Qed.

Lemma ts_leb_lex (a b : Timestamp) : ts_leb a b = true <-> ts_lex a b.
Proof.
  unfold ts_leb, ts_compare, ts_lex.
  destruct (Z.compare_spec (year a) (year b));
    [destruct (Z.compare_spec (month a) (month b));
     [destruct (Z.compare_spec (day a) (day b));
      [destruct (Z.compare_spec (nanos a) (nanos b))|..]|..]|..];
    split; intros; try discriminate; try reflexivity; lia.
Qed.

Lemma ts_leb_total (a b : Timestamp) : ts_leb a b = true \/ ts_leb b a = true.
Proof. rewrite !ts_leb_lex; unfold ts_lex; lia. Qed.

Lemma ts_leb_trans (a b c : Timestamp) :
  ts_leb a b = true -> ts_leb b c = true -> ts_leb a c = true.
Proof. rewrite !ts_leb_lex; unfold ts_lex; lia. Qed.

Lemma ts_leb_refl (a : Timestamp) : ts_leb a a = true.
Proof. rewrite ts_leb_lex; unfold ts_lex; lia. Qed.

Lemma ts_leb_antisym (a b : Timestamp) :
  ts_leb a b = true -> ts_leb b a = true -> a = b.
Proof.
  rewrite !ts_leb_lex; unfold ts_lex; intros H1 H2.
  destruct a, b; simpl in *; f_equal; lia.
Qed.

Lemma ts_leb_ym (a b : Timestamp) : ts_leb a b = true -> ym_leb a b = true.
Proof.
  rewrite ts_leb_lex; unfold ts_lex, ym_leb; intros H.
  destruct (Z.ltb_spec (year a) (year b)); [reflexivity|].
  destruct (Z.eqb_spec (year a) (year b)); [|lia].
  destruct (Z.leb_spec (month a) (month b)); [reflexivity | lia].
Qed.

Lemma Qle_bool_total (x y : Q) : Qle_bool x y = true \/ Qle_bool y x = true.
Proof.
  rewrite !Qle_bool_iff. destruct (Qlt_le_dec x y) as [H|H]; [left; now apply Qlt_le_weak | now right].
Qed.

Lemma Qle_bool_trans (x y z : Q) :
  Qle_bool x y = true -> Qle_bool y z = true -> Qle_bool x z = true.
Proof. rewrite !Qle_bool_iff; apply Qle_trans. Qed.

Lemma Qlt_bool_iff (a b : Q) : Qlt_bool a b = true <-> (a < b)%Q.
Proof.
  unfold Qlt_bool. rewrite negb_true_iff, <- not_true_iff_false, Qle_bool_iff.
  split; [apply Qnot_le_lt | apply Qlt_not_le].
Qed.

(** ** [take] and the sorts *)

Lemma take_app {A : Type} (l : list A) (i1 i2 : list nat) :
  take l (i1 ++ i2) = take l i1 ++ take l i2.
Proof. unfold take; apply flat_map_app. Qed.

Lemma take_In {A : Type} (l : list A) (idx : list nat) (x : A) :
  In x (take l idx) -> In x l.
Proof.
  unfold take; rewrite in_flat_map; intros [i [_ H]].
  destruct (nth_error l i) eqn:Hi; [|contradiction].
  destruct H as [<-|[]]; eapply nth_error_In; eauto.
Qed.

Lemma take_map {A B : Type} (f : A -> B) (l : list A) (idx : list nat) :
  take (map f l) idx = map f (take l idx).
Proof.
  induction idx as [|i idx IH]; simpl; auto.
  rewrite map_app, <- IH, nth_error_map.
  destruct (nth_error l i); reflexivity.
Qed.

Lemma take_rev {A : Type} (l : list A) (idx : list nat) :
  take l (rev idx) = rev (take l idx).
Proof.
  induction idx as [|i idx IH]; simpl; auto.
  rewrite take_app, IH, rev_app_distr; simpl.
  destruct (nth_error l i); reflexivity.
Qed.

Lemma take_perm {A : Type} (l : list A) (i1 i2 : list nat) :
  Permutation i1 i2 -> Permutation (take l i1) (take l i2).
Proof. intros H; unfold take; now apply Permutation_flat_map. Qed.

Lemma take_seq_from {A : Type} (pre l : list A) :
  take (pre ++ l) (seq (List.length pre) (List.length l)) = l.
Proof.
  revert pre; induction l as [|a l IH]; intros pre; simpl; auto.
  rewrite nth_error_app2, Nat.sub_diag by lia; simpl; f_equal.
  specialize (IH (pre ++ [a])).
  rewrite <- app_assoc, length_app, Nat.add_1_r in IH; exact IH.
Qed.

Lemma take_argsort_perm {A : Type} (l : list A) (idx : list nat) :
  Permutation idx (seq 0 (List.length l)) -> Permutation (take l idx) l.
Proof.
  intros H. apply (take_perm l) in H.
  pose proof (take_seq_from [] l) as H0; simpl in H0. now rewrite H0 in H.
Qed.

Lemma filter_split_perm {A : Type} (p : A -> bool) (l : list A) :
  Permutation (filter p l ++ filter (fun x => negb (p x)) l) l.
Proof.
  induction l as [|a l IH]; simpl; auto.
  destruct (p a); simpl.
  - now constructor.
  - symmetry. apply Permutation_cons_app. now symmetry.
Qed.

Lemma StronglySorted_app_intro {A : Type} (R : A -> A -> Prop) (l1 l2 : list A) :
  StronglySorted R l1 -> StronglySorted R l2 ->
  (forall x y, In x l1 -> In y l2 -> R x y) ->
  StronglySorted R (l1 ++ l2).
Proof.
  induction 1 as [|a l1 Hs IH Hf]; intros H2 Hc; simpl; auto.
  constructor.
  - apply IH; auto. intros; apply Hc; simpl; auto.
  - apply Forall_app; split; auto.
    apply Forall_forall; intros y Hy; apply Hc; simpl; auto.
Qed.

Lemma StronglySorted_rev_flip {A : Type} (R : A -> A -> Prop) (l : list A) :
  StronglySorted R l -> StronglySorted (fun x y => R y x) (rev l).
Proof.
  induction 1 as [|a l Hs IH Hf]; simpl; [constructor|].
  apply StronglySorted_app_intro; auto.
  - repeat constructor.
  - intros x y Hx [<-|[]]. rewrite Forall_forall in Hf. apply Hf. now apply in_rev.
Qed.

Section SortValues.
Context {R K : Type} (by_ : R -> option K).

Lemma nan_take (pre rows : list R) :
  take (pre ++ rows)
       (flat_map (fun ik : nat * option K =>
                    match snd ik with Some _ => [] | None => [fst ik] end)
                 (combine (seq (List.length pre) (List.length (map by_ rows)))
                          (map by_ rows)))
  = filter (fun r => negb (has_key by_ r)) rows.
Proof.
  revert pre; induction rows as [|r rows IH]; intros pre; simpl; auto.
  specialize (IH (pre ++ [r])).
  rewrite <- app_assoc, length_app, Nat.add_1_r in IH; simpl in IH.
  unfold has_key at 1. destruct (by_ r); simpl; auto.
  rewrite nth_error_app2, Nat.sub_diag by lia; simpl. now f_equal.
Qed.

Lemma non_nan_take (pre rows : list R) :
  let nn := flat_map (fun ik : nat * option K =>
                        match snd ik with Some v => [(fst ik, v)] | None => [] end)
                     (combine (seq (List.length pre) (List.length (map by_ rows)))
                              (map by_ rows)) in
  take (pre ++ rows) (map fst nn) = filter (has_key by_) rows /\
  Forall (keyed_at by_ (pre ++ rows)) nn.
Proof.
  revert pre; induction rows as [|r rows IH]; intros pre; simpl; auto.
  specialize (IH (pre ++ [r])).
  rewrite <- app_assoc, length_app, Nat.add_1_r in IH; simpl in IH.
  destruct IH as [IH1 IH2].
  unfold has_key at 1. destruct (by_ r) as [v|] eqn:Hr; simpl; auto.
  rewrite nth_error_app2, Nat.sub_diag by lia; simpl. split; [now f_equal|].
  constructor; auto.
  exists r; simpl. rewrite nth_error_app2, Nat.sub_diag by lia. auto.
Qed.

Lemma take_keyed (rows : list R) (s : list (nat * K)) :
  Forall (keyed_at by_ rows) s ->
  map by_ (take rows (map fst s)) = map (fun iv => Some (snd iv)) s.
Proof.
  induction 1 as [|iv s [r [H1 H2]] _ IH]; simpl; auto.
  rewrite H1; simpl. now rewrite H2, <- IH.
Qed.

Lemma sorted_of_keys (Rk : K -> K -> Prop) (out : list R) (ks : list K) :
  map by_ out = map Some ks ->
  StronglySorted Rk ks ->
  StronglySorted (fun a b => match by_ a, by_ b with
                             | Some x, Some y => Rk x y
                             | _, _ => False
                             end) out.
Proof.
  revert ks; induction out as [|a out IH]; intros [|k ks] Hm Hs;
    try discriminate; [constructor|].
  simpl in Hm; injection Hm as Ha Hm. inversion Hs as [|? ? Hs' Hf]; subst.
  constructor; [eauto|].
  rewrite Ha. clear - Hm Hf. revert ks Hm Hf.
  induction out as [|b out IH]; intros [|k' ks] Hm Hf; try discriminate; constructor.
  - simpl in Hm; injection Hm as Hb _. rewrite Hb. now inversion Hf.
  - simpl in Hm; injection Hm as _ Hm. inversion Hf; subst. eauto.
Qed.

End SortValues.

(** What [sort_values] returns under the contract of [argsort]: the rows
    with a key, as a sorted permutation, then the rows without a key in
    their order of arrival. *)
Lemma sort_values_spec (E : Env) (HE : argsort_ok E) {R K : Type}
    (leb : K -> K -> bool)
    (Htot : forall x y, leb x y = true \/ leb y x = true)
    (Htrans : forall x y z, leb x y = true -> leb y z = true -> leb x z = true)
    (ascending : bool) (by_ : R -> option K) (rows : list R) :
  exists valued,
    sort_values E leb ascending by_ rows
      = valued ++ filter (fun r => negb (has_key by_ r)) rows /\
    Permutation valued (filter (has_key by_) rows) /\
    StronglySorted (key_rel leb ascending by_) valued.
Proof.
  unfold sort_values, nargsort, indexed.
  destruct (non_nan_take by_ [] rows) as [Hnn Hkeyed]; simpl in Hnn, Hkeyed.
  pose proof (nan_take by_ [] rows) as Hnan; simpl in Hnan.
  set (nn := flat_map _ (combine _ (map by_ rows))) in Hnn, Hkeyed |- *.
  rewrite take_app, Hnan.
  eexists; split; [reflexivity|].
  set (nn' := if ascending then nn else rev nn).
  destruct (HE K leb (map snd nn') Htot Htrans) as [Hperm Hsorted].
  rewrite length_map in Hperm.
  rewrite take_map in Hsorted. rewrite take_map.
  set (s := take nn' (argsort E K leb (map snd nn'))) in *.
  assert (Hs : Permutation s nn') by (now apply take_argsort_perm).
  assert (Hnn' : Permutation nn' nn).
  { unfold nn'; destruct ascending; [reflexivity | symmetry; apply Permutation_rev]. }
  set (s' := if ascending then s else rev s).
  assert (Hidx : (if ascending then map fst s else rev (map fst s)) = map fst s').
  { unfold s'; destruct ascending; [reflexivity | now rewrite map_rev]. }
  rewrite Hidx.
  assert (Hs' : Permutation s' nn).
  { unfold s'; destruct ascending; [|rewrite <- Permutation_rev]; now rewrite Hs. }
  split.
  - rewrite <- Hnn. apply take_perm. now apply Permutation_map.
  - assert (Hk : Forall (keyed_at by_ rows) s').
    { eapply Permutation_Forall; [symmetry; exact Hs' | exact Hkeyed]. }
    apply take_keyed in Hk.
    rewrite <- (map_map snd Some) in Hk.
    unfold key_rel. apply (sorted_of_keys by_ _ _ _ Hk).
    unfold s', dir_le; destruct ascending; [exact Hsorted|].
    rewrite map_rev. now apply StronglySorted_rev_flip.
Qed.

Lemma sort_values_perm (E : Env) (HE : argsort_ok E) {R K : Type}
    (leb : K -> K -> bool)
    (Htot : forall x y, leb x y = true \/ leb y x = true)
    (Htrans : forall x y z, leb x y = true -> leb y z = true -> leb x z = true)
    (ascending : bool) (by_ : R -> option K) (rows : list R) :
  Permutation (sort_values E leb ascending by_ rows) rows.
Proof.
  destruct (sort_values_spec E HE leb Htot Htrans ascending by_ rows)
    as [valued [-> [Hp _]]].
  rewrite Hp. apply filter_split_perm.
Qed.

Lemma sort_values_In (E : Env) {R K : Type} (leb : K -> K -> bool) (ascending : bool)
    (by_ : R -> option K) (rows : list R) (x : R) :
  In x (sort_values E leb ascending by_ rows) -> In x rows.
Proof. apply take_In. Qed.

(** ** The insertion sort and the two argsort instances *)

Section InsertionSort.
Context {A : Type} (leb : A -> A -> bool).

Lemma insert_by_perm (x : A) (l : list A) : Permutation (insert_by leb x l) (x :: l).
Proof.
  induction l as [|y l IH]; simpl; auto.
  destruct (leb x y); auto.
  rewrite IH. apply perm_swap.
Qed.

Lemma sorted_by_perm (l : list A) : Permutation (sorted_by leb l) l.
Proof.
  induction l as [|x l IH]; simpl; auto.
  rewrite insert_by_perm. now constructor.
Qed.

Hypothesis Htot : forall x y, leb x y = true \/ leb y x = true.
Hypothesis Htrans : forall x y z, leb x y = true -> leb y z = true -> leb x z = true.

Lemma insert_by_sorted (x : A) (l : list A) :
  StronglySorted (fun a b => leb a b = true) l ->
  StronglySorted (fun a b => leb a b = true) (insert_by leb x l).
Proof.
  induction 1 as [|y l Hs IH Hf]; simpl; [repeat constructor|].
  destruct (leb x y) eqn:Hxy.
  - constructor; [now constructor|].
    constructor; auto.
    eapply Forall_impl; [|exact Hf]. intros z Hz; simpl in Hz. eauto.
  - constructor; auto.
    eapply Permutation_Forall; [symmetry; apply insert_by_perm|].
    constructor; auto.
    destruct (Htot x y) as [H|H]; [congruence | exact H].
Qed.

Lemma sorted_by_sorted (l : list A) :
  StronglySorted (fun a b => leb a b = true) (sorted_by leb l).
Proof.
  induction l as [|x l IH]; simpl; [constructor | now apply insert_by_sorted].
Qed.

End InsertionSort.

Lemma indexed_fst {A : Type} (s : nat) (l : list A) :
  map fst (combine (seq s (List.length l)) l) = seq s (List.length l).
Proof.
  revert s; induction l as [|a l IH]; intros s; simpl; auto. now rewrite IH.
Qed.

Lemma indexed_lookup {A : Type} (pre l : list A) :
  Forall (fun iv => nth_error (pre ++ l) (fst iv) = Some (snd iv))
         (combine (seq (List.length pre) (List.length l)) l).
Proof.
  revert pre; induction l as [|a l IH]; intros pre; simpl; constructor.
  - simpl. now rewrite nth_error_app2, Nat.sub_diag by lia.
  - specialize (IH (pre ++ [a])).
    now rewrite <- app_assoc, length_app, Nat.add_1_r in IH.
Qed.

Lemma take_lookup {A : Type} (l : list A) (s : list (nat * A)) :
  Forall (fun iv => nth_error l (fst iv) = Some (snd iv)) s ->
  take l (map fst s) = map snd s.
Proof.
  induction 1 as [|iv s H _ IH]; simpl; auto. now rewrite H, <- IH.
Qed.

Lemma StronglySorted_map {A B : Type} (R : B -> B -> Prop) (f : A -> B) (l : list A) :
  StronglySorted (fun a b => R (f a) (f b)) l -> StronglySorted R (map f l).
Proof.
  induction 1 as [|a l Hs IH Hf]; simpl; constructor; auto.
  apply Forall_map. exact Hf.
Qed.

Lemma stable_argsort_spec {A : Type} (leb : A -> A -> bool) (l : list A) :
  (forall x y, leb x y = true \/ leb y x = true) ->
  (forall x y z, leb x y = true -> leb y z = true -> leb x z = true) ->
  Permutation (stable_argsort A leb l) (seq 0 (List.length l)) /\
  StronglySorted (fun x y => leb x y = true) (take l (stable_argsort A leb l)).
Proof.
  intros Htot Htrans. unfold stable_argsort, indexed.
  set (leb' := fun a b : nat * A => leb (snd a) (snd b)).
  pose proof (sorted_by_perm leb' (combine (seq 0 (List.length l)) l)) as Hp.
  split.
  - rewrite <- (indexed_fst 0 l) at 2. now apply Permutation_map.
  - rewrite take_lookup.
    + apply StronglySorted_map.
      apply (sorted_by_sorted leb'); unfold leb'; intros; eauto.
    + eapply Permutation_Forall; [symmetry; exact Hp|].
      exact (indexed_lookup [] l).
Qed.

Lemma std_env_ok : argsort_ok std_env.
Proof. intros A leb l Htot Htrans; now apply stable_argsort_spec. Qed.

(** ** The shape of a successful run *)

Lemma fold_ts_max_spec (l : list Timestamp) (acc : Timestamp) :
  let m := fold_left ts_max l acc in
  (m = acc \/ In m l) /\ ts_leb acc m = true /\
  forall x, In x l -> ts_leb x m = true.
Proof.
  revert acc; induction l as [|y l IH]; intros acc; simpl.
  - split; [now left|]. split; [apply ts_leb_refl | intros x []].
  - destruct (IH (ts_max acc y)) as [H1 [H2 H3]].
    assert (Ha : ts_leb acc (ts_max acc y) = true).
    { unfold ts_max; destruct (ts_leb acc y) eqn:H; [exact H | apply ts_leb_refl]. }
    assert (Hy : ts_leb y (ts_max acc y) = true).
    { unfold ts_max; destruct (ts_leb acc y) eqn:H; [apply ts_leb_refl|].
      destruct (ts_leb_total acc y); congruence. }
    split; [|split].
    + destruct H1 as [H1|H1]; [|now right; right].
      rewrite H1. unfold ts_max; destruct (ts_leb acc y); [right; now left | now left].
    + eapply ts_leb_trans; eauto.
    + intros x [<-|Hx]; [eapply ts_leb_trans; eauto | auto].
Qed.

Lemma max_period_latest (r : AchievementRecord) (rest : list AchievementRecord) :
  is_latest (r :: rest) (max_period r rest).
Proof.
  unfold max_period.
  destruct (fold_ts_max_spec (map period rest) (period r)) as [H1 [H2 H3]].
  split.
  - destruct H1 as [H1|H1].
    + exists r; split; [now left | now symmetry].
    + apply in_map_iff in H1 as [x [Hx Hin]]. exists x; split; [now right | exact Hx].
  - intros x [<-|Hx]; auto. apply H3. now apply in_map.
Qed.

Lemma is_latest_unique (chart : list AchievementRecord) (p q : Timestamp) :
  is_latest chart p -> is_latest chart q -> p = q.
Proof.
  intros [[r [Hr <-]] Hp] [[r' [Hr' <-]] Hq].
  apply ts_leb_antisym; auto.
Qed.

Lemma groupby_In (chart : list AchievementRecord) (k : string)
    (g : list AchievementRecord) :
  In (k, g) (groupby chart) -> g = dept_rows chart k /\ In k (map dept chart).
Proof.
  unfold groupby; rewrite in_map_iff; intros [k' [Heq Hin]].
  injection Heq as <- <-. split; [reflexivity|].
  eapply Permutation_in in Hin; [|apply sorted_by_perm].
  now apply nodup_In in Hin.
Qed.

Lemma process_data_ok (E : Env) (t a : option DataFrame) (today : Timestamp)
    (summary : list DepartmentSummary) (chart : list AchievementRecord) :
  snd (process_data E t a today) = Ok (summary, chart) ->
  (summary = [] /\ chart = []) \/
  exists r rest tdf adf value_col dept_col_actual,
    t = Some tdf /\ a = Some adf /\ chart = r :: rest /\
    chart = chart_data E (hd (mkCol (HLabel EmptyString) true []) tdf) value_col
                       dept_col_actual (date_cols adf) /\
    summary = sort_summary E (summary_data E today (max_period r rest) chart).
Proof.
  unfold process_data, empty_tables.
  destruct t as [[|c0 t]|], a as [[|a0 a]|]; cbv beta iota; cbn [snd];
    try discriminate;
    try (intros H; injection H as <- <-; now left).
  destruct (target_value_col (c0 :: t)) as [k|]; cbn [snd];
    [|intros H; injection H as <- <-; now left].
  destruct (date_cols (a0 :: a)) as [|dc dcs] eqn:Hd; cbn [snd];
    [intros H; injection H as <- <-; now left|].
  match goal with
  | |- context [chart_data E c0 ?v a0 ?cs] =>
      destruct (chart_data E c0 v a0 cs) as [|r rest] eqn:Hc; cbn [snd];
      [intros H; injection H as <- <-; now left|];
      intros H; injection H as <- <-; right;
      exists r, rest, (c0 :: t), (a0 :: a), v, a0
  end.
  rewrite Hd. cbn [hd]. rewrite Hc. repeat split; reflexivity.
Qed.

Lemma sort_group_perm (E : Env) (HE : argsort_ok E) (g : list AchievementRecord) :
  Permutation (sort_group E g) g.
Proof.
  apply sort_values_perm; auto using ts_leb_total.
  intros x y z; apply ts_leb_trans.
Qed.

Lemma summary_In (E : Env) (today latest : Timestamp) (chart : list AchievementRecord)
    (s : DepartmentSummary) :
  In s (sort_summary E (summary_data E today latest chart)) ->
  exists k, In k (map dept chart) /\
    s = dept_summary E today latest (total_recent chart latest) (int64_actuals chart)
                     k (dept_rows chart k).
Proof.
  intros H. apply sort_values_In in H.
  unfold summary_data in H. apply in_map_iff in H as [[k g] [<- Hin]].
  apply groupby_In in Hin as [-> Hk]. exists k; auto.
Qed.

Lemma dept_rows_In (chart : list AchievementRecord) (d : string) (r : AchievementRecord) :
  In r (dept_rows chart d) <-> In r chart /\ dept r = d.
Proof. unfold dept_rows. rewrite filter_In, String.eqb_eq. tauto. Qed.

Lemma recent_rate_row_In (p : Timestamp) (g : list AchievementRecord)
    (r : AchievementRecord) :
  In r (recent_rate_row p g) <-> In r g /\ period r = p.
Proof. unfold recent_rate_row. rewrite filter_In, ts_eqb_eq. tauto. Qed.

Lemma recent_rate_present (p : Timestamp) (g : list AchievementRecord) :
  recent_rate p g <> None <-> exists r, In r g /\ period r = p.
Proof.
  unfold recent_rate.
  destruct (recent_rate_row p g) as [|r l] eqn:H; split.
  - intros []; reflexivity.
  - intros [r Hr]. apply recent_rate_row_In in Hr. rewrite H in Hr. destruct Hr.
  - intros _. exists r. apply recent_rate_row_In. rewrite H. now left.
  - discriminate.
Qed.

(** ** Latest-month figures of a department *)

(** C2, as the code has it: for actual values that are finite numbers
    and every department summary returned by [process_data], the latest
    rate is present exactly when the department
    has an AchievementRecord whose period is the global latest period of
    the chart, the largest time stamp of its month column (no record is
    later, also when compared by year and month alone); without a record
    at exactly that time stamp the latest rate is missing, the latest
    actual is 0 and so is the profit share. *)
Theorem latest_rate_present_iff (E : Env) (HE : argsort_ok E)
    (t a : option DataFrame) (today : Timestamp)
    (summary : list DepartmentSummary) (chart : list AchievementRecord)
    (s : DepartmentSummary) :
  finite_actuals E a ->
  snd (process_data E t a today) = Ok (summary, chart) ->
  In s summary ->
  exists p, is_latest chart p /\
    (forall r, In r chart -> ym_leb (period r) p = true) /\
    (latest_rate s <> None <-> has_record_at chart (s_dept s) p) /\
    (~ has_record_at chart (s_dept s) p ->
     latest_rate s = None /\
     recent_actual p (sort_group E (dept_rows chart (s_dept s))) = 0%Q /\
     (profit_share_pct s == 0)%Q).
Proof.
  intros _ Hrun Hs.
  apply process_data_ok in Hrun
    as [[-> _]|[r [rest [tdf [adf [vc [dca [_ [_ [Hc [_ ->]]]]]]]]]]]; [destruct Hs|].
  exists (max_period r rest). split; [rewrite Hc; apply max_period_latest|].
  split.
  { intros x Hx. apply ts_leb_ym. rewrite Hc in Hx. now apply max_period_latest. }
  apply summary_In in Hs as [k [_ ->]]; simpl.
  set (p := max_period r rest). set (g := dept_rows chart k).
  assert (Hiff : recent_rate p (sort_group E g) <> None <-> has_record_at chart k p).
  { rewrite recent_rate_present. unfold has_record_at. split.
    - intros [x [Hx Hp]]. apply (Permutation_in _ (sort_group_perm E HE g)) in Hx.
      apply dept_rows_In in Hx as [Hx Hd]. exists x; auto.
    - intros [x [Hx [Hd Hp]]]. exists x; split; auto.
      apply (Permutation_in _ (Permutation_sym (sort_group_perm E HE g))).
      apply dept_rows_In; auto. }
  split; [exact Hiff|].
  intros Hno.
  assert (Hrow : recent_rate_row p (sort_group E g) = []).
  { destruct (recent_rate_row p (sort_group E g)) as [|x l] eqn:Hx; auto.
    exfalso. apply Hno, Hiff. unfold recent_rate. rewrite Hx. discriminate. }
  unfold recent_rate, recent_actual, profit_share, recent_actual. rewrite Hrow.
  repeat split; auto.
  destruct (Qlt_bool 0 (total_recent chart p)); [|reflexivity].
  unfold Qdiv. now rewrite !Qmult_0_l.
Qed.

Lemma latest_rate_present_iff_witness :
  exists p, is_latest (snd scenario_tables) p /\
    (latest_rate (hd (mkSum EmptyString None None None EmptyString 0 None)
                     (fst scenario_tables)) <> None
     <-> has_record_at (snd scenario_tables) "A" p).
Proof.
  destruct (latest_rate_present_iff std_env std_env_ok
              (Some scenario_target) (Some scenario_actual) scenario_today
              (fst scenario_tables) (snd scenario_tables)
              (hd (mkSum EmptyString None None None EmptyString 0 None)
                  (fst scenario_tables))
              ltac:(no_text_actuals) eq_refl (or_introl eq_refl))
    as [p [H1 [_ [H2 _]]]].
  exists p; split; [exact H1 | exact H2].
Defined.

(** With date columns 2024-02-01 and 2024-02-15 the largest (year, month)
    of the chart is (2024, 2) and department B has a record in it, at
    2024-02-01; the latest period of the code is the time stamp
    2024-02-15, where B has none, and B's latest rate is missing. *)
Lemma same_month_columns_latest_rate :
  let chart := snd halfmonth_tables in
  (forall r, In r chart -> ym_leb (period r) (first_of 2024 2) = true) /\
  (exists r, In r chart /\ dept r = "B"%string /\
             year (period r) = 2024 /\ month (period r) = 2) /\
  is_latest chart (mkTs 2024 2 15 0) /\
  map s_dept (fst halfmonth_tables) = ["A"; "B"]%string /\
  map latest_rate (fst halfmonth_tables) = [Some (7000 # 100); None].
Proof.
  split.
  { intros r Hr. simpl in Hr. destruct Hr as [<-|[<-|[<-|[]]]]; reflexivity. }
  split.
  { exists (mkAch "B" (mkTs 2024 2 1 0) 60 100 ((60 / 100) * 100)%Q).
    split; [right; right; left; reflexivity | repeat split; reflexivity]. }
  split.
  { split.
    - exists (mkAch "A" (mkTs 2024 2 15 0) 70 100 ((70 / 100) * 100)%Q).
      split; [right; left; reflexivity | reflexivity].
    - intros r Hr. simpl in Hr. destruct Hr as [<-|[<-|[<-|[]]]]; reflexivity. }
  split; reflexivity.
Qed.

(** ** Sums over permuted tables *)

Lemma sumQ_perm (l l' : list Q) : Permutation l l' -> (sumQ l == sumQ l')%Q.
Proof.
  induction 1 as [|x l l' _ IH|x y l|l l' l'' _ IH1 _ IH2]; simpl.
  - reflexivity.
  - now rewrite IH.
  - ring.
  - now rewrite IH1.
Qed.

Lemma filter_perm {A : Type} (p : A -> bool) (l l' : list A) :
  Permutation l l' -> Permutation (filter p l) (filter p l').
Proof.
  induction 1 as [|x l l' _ IH|x y l|l l' l'' _ IH1 _ IH2]; simpl; auto.
  - destruct (p x); auto.
  - destruct (p x), (p y); auto. apply perm_swap.
  - now rewrite IH1.
Qed.

Lemma is_whole_inject (z : Z) : is_whole (inject_Z z) = true.
Proof. unfold is_whole. rewrite Qfloor_Z. apply Qeq_bool_iff. reflexivity. Qed.

Lemma is_whole_floor (q : Q) : is_whole q = true -> (q == inject_Z (Qfloor q))%Q.
Proof. unfold is_whole. intros H. apply Qeq_bool_iff in H. now rewrite H. Qed.

Lemma sumQ_whole (l : list Q) :
  forallb is_whole l = true -> (sumQ l == inject_Z (Qfloor (sumQ l)))%Q.
Proof.
  intros H. apply is_whole_floor. induction l as [|x l IH]; [reflexivity|].
  simpl in H. apply andb_true_iff in H as [Hx Hl]. simpl.
  unfold is_whole. apply Qeq_bool_iff.
  rewrite (Qfloor_comp _ (inject_Z (Qfloor x + Qfloor (sumQ l)))).
  - rewrite Qfloor_Z, inject_Z_plus.
    rewrite <- (is_whole_floor x Hx), <- (is_whole_floor _ (IH Hl)). reflexivity.
  - rewrite inject_Z_plus.
    rewrite <- (is_whole_floor x Hx), <- (is_whole_floor _ (IH Hl)). reflexivity.
Qed.

Lemma wrap64_small (z : Z) : - 2 ^ 63 <= z < 2 ^ 63 -> wrap64 z = z.
Proof. intros H. unfold wrap64. rewrite Z.mod_small; lia. Qed.

Lemma int64_range_floor (q : Q) :
  int64_range q -> - 2 ^ 63 <= Qfloor q < 2 ^ 63.
Proof.
  intros [H1 H2]. split.
  - rewrite <- (Qfloor_Z (- 2 ^ 63)). now apply Qfloor_resp_le.
  - destruct (Z_lt_le_dec (Qfloor q) (2 ^ 63)) as [Hlt|Hge]; [exact Hlt|].
    exfalso. apply (Qlt_irrefl q). eapply Qlt_le_trans; [exact H2|].
    eapply Qle_trans; [|apply Qfloor_le]. now rewrite <- Zle_Qle.
Qed.

(** A sum that fits in 64 bits is the exact sum, whatever the dtype. *)
Lemma series_sum_exact (int64 : bool) (l : list Q) :
  (int64 = true -> forallb is_whole l = true) ->
  int64_range (sumQ l) -> (series_sum int64 l == sumQ l)%Q.
Proof.
  intros Hw Hr. unfold series_sum. destruct int64; [|reflexivity].
  rewrite wrap64_small by now apply int64_range_floor.
  symmetry. apply sumQ_whole. now apply Hw.
Qed.

Lemma series_sum_perm (int64 : bool) (l l' : list Q) :
  Permutation l l' -> (series_sum int64 l == series_sum int64 l')%Q.
Proof.
  intros H. apply sumQ_perm in H. unfold series_sum.
  destruct int64; [|exact H]. now rewrite (Qfloor_comp _ _ H).
Qed.

Lemma sum_actual_series (int64 : bool) (rows : list AchievementRecord) :
  (sum_actual int64 rows == series_sum int64 (map actual_value rows))%Q.
Proof. destruct rows; [destruct int64|]; reflexivity. Qed.

Lemma sum_actual_filter_perm (int64 : bool) (p : AchievementRecord -> bool)
    (g g' : list AchievementRecord) :
  Permutation g g' ->
  (sum_actual int64 (filter p g)
   == series_sum int64 (map actual_value (filter p g')))%Q.
Proof.
  intros H. rewrite sum_actual_series.
  apply series_sum_perm, Permutation_map, filter_perm, H.
Qed.

(** The values of a part of the chart are integers when the column is. *)
Lemma int64_actuals_part (chart rows : list AchievementRecord) :
  (forall r, In r rows -> In r chart) ->
  int64_actuals chart = true -> forallb is_whole (map actual_value rows) = true.
Proof.
  intros Hin H. unfold int64_actuals, int64_column in H.
  rewrite forallb_forall in H. apply forallb_forall. intros x Hx.
  apply in_map_iff in Hx as [r [<- Hr]]. apply H, in_map, Hin, Hr.
Qed.

(** ** Fiscal-year windows *)

(** C3, as the code has it: for every department summary, with the
    fiscal year starting on April 1 of [today.year] (of the year before
    when [today.month < 4]), [current_fy_actual] is the sum of the
    department's actuals from that date on and [last_fy_actual] the sum
    of its actuals between April 1 of the year before and the latest
    period minus one year (twelve months), each provided the sum lies in
    the signed 64-bit range; with both sums in that range the
    year-over-year ratio is current / prior x 100 when the prior sum is
    positive and missing otherwise. *)
Theorem yoy_ratio_spec (E : Env) (HE : argsort_ok E)
    (t a : option DataFrame) (today : Timestamp)
    (summary : list DepartmentSummary) (chart : list AchievementRecord)
    (s : DepartmentSummary) :
  snd (process_data E t a today) = Ok (summary, chart) ->
  In s summary ->
  exists p, is_latest chart p /\
    let fy_start :=
      mkTs (if 4 <=? month today then year today else year today - 1) 4 1 0 in
    let prior_start := mkTs (year fy_start - 1) 4 1 0 in
    let prior_end := ts_sub_rd p (mkRd 1 0) in
    let rows := dept_rows chart (s_dept s) in
    let cur :=
      sumQ (map actual_value (filter (fun r => ts_leb fy_start (period r)) rows)) in
    let prior :=
      sumQ (map actual_value
              (filter (fun r => ts_leb prior_start (period r)
                                && ts_leb (period r) prior_end) rows)) in
    (int64_range cur ->
     (current_fy_actual today (int64_actuals chart) (sort_group E rows) == cur)%Q) /\
    (int64_range prior ->
     (last_fy_actual today p (int64_actuals chart) (sort_group E rows) == prior)%Q) /\
    (int64_range cur -> int64_range prior ->
     match yoy_ratio_pct s with
     | Some v => (0 < prior)%Q /\ (v == (cur / prior) * 100)%Q
     | None => ~ (0 < prior)%Q
     end).
Proof.
  intros Hrun Hs.
  apply process_data_ok in Hrun
    as [[-> _]|[r [rest [tdf [adf [vc [dca [_ [_ [Hc [_ ->]]]]]]]]]]]; [destruct Hs|].
  exists (max_period r rest). split; [rewrite Hc; apply max_period_latest|].
  apply summary_In in Hs as [k [_ ->]].
  set (p := max_period r rest).
  intros fy_start prior_start prior_end rows cur prior.
  subst rows. cbn [s_dept yoy_ratio_pct dept_summary] in *.
  set (g := dept_rows chart k) in *.
  set (b := int64_actuals chart).
  pose proof (sort_group_perm E HE g) as Hg.
  assert (Hpart : forall q, b = true ->
            forallb is_whole (map actual_value (filter q g)) = true).
  { intros q Hb. apply (int64_actuals_part chart); [|exact Hb].
    intros x Hx. apply filter_In in Hx as [Hx _]. now apply dept_rows_In in Hx. }
  assert (Hcur : int64_range cur -> (current_fy_actual today b (sort_group E g) == cur)%Q).
  { intros Hr. unfold current_fy_actual, fy_df.
    rewrite (sum_actual_filter_perm b _ _ g Hg).
    apply series_sum_exact; [apply Hpart | exact Hr]. }
  assert (Hprior : int64_range prior ->
            (last_fy_actual today p b (sort_group E g) == prior)%Q).
  { intros Hr. unfold last_fy_actual, last_fy_df.
    rewrite (sum_actual_filter_perm b _ _ g Hg).
    apply series_sum_exact; [apply Hpart | exact Hr]. }
  split; [exact Hcur|]. split; [exact Hprior|].
  intros Hrc Hrp. specialize (Hcur Hrc). specialize (Hprior Hrp).
  unfold yoy_comparison.
  destruct (Qlt_bool 0 (last_fy_actual today p b (sort_group E g))) eqn:Hlt.
  - apply Qlt_bool_iff in Hlt. rewrite Hprior in Hlt. split; [exact Hlt|].
    now rewrite Hcur, Hprior.
  - intros H. rewrite <- Hprior in H. apply Qlt_bool_iff in H. congruence.
Qed.

Lemma yoy_ratio_spec_witness :
  exists p, is_latest (snd yoy_tables) p /\
    rate_is (yoy_ratio_pct (hd (mkSum EmptyString None None None EmptyString 0 None)
                               (fst yoy_tables))) 200.
Proof.
  destruct (yoy_ratio_spec std_env std_env_ok
              (Some yoy_target) (Some yoy_actual) (first_of 2024 6)
              (fst yoy_tables) (snd yoy_tables)
              (hd (mkSum EmptyString None None None EmptyString 0 None)
                  (fst yoy_tables))
              eq_refl (or_introl eq_refl)) as [p [H1 _]].
  exists p; split; [exact H1 | reflexivity].
Defined.

(** Two actuals of 2^62 add up to 2^63, which an int64 sum reads as
    -2^63: the prior-year sum is positive, the prior-year figure of the
    code is not, and the year-over-year ratio is missing. *)
Lemma prior_year_sum_wraps :
  let chart := snd wrap_tables in
  let rows := dept_rows chart "A" in
  let prior :=
    sumQ (map actual_value
            (filter (fun r => ts_leb (first_of 2023 4) (period r)
                              && ts_leb (period r) (ts_sub_rd (first_of 2024 6) (mkRd 1 0)))
                    rows)) in
  is_latest chart (first_of 2024 6) /\
  (prior == inject_Z (2 ^ 63))%Q /\ (0 < prior)%Q /\
  (last_fy_actual (first_of 2024 7) (first_of 2024 6) (int64_actuals chart)
                  (sort_group std_env rows) == inject_Z (- 2 ^ 63))%Q /\
  map s_dept (fst wrap_tables) = ["A"]%string /\
  map yoy_ratio_pct (fst wrap_tables) = [None].
Proof.
  split.
  { split.
    - exists (mkAch "A" (first_of 2024 6) 100 100 ((100 / 100) * 100)%Q).
      split; [right; right; left; reflexivity | reflexivity].
    - intros r Hr. simpl in Hr. destruct Hr as [<-|[<-|[<-|[]]]]; reflexivity. }
  repeat split; reflexivity.
Qed.

(** ** Tables that arrive sorted *)

Lemma sorted_perm_unique {A : Type} (rel : A -> A -> Prop) (l l' : list A) :
  StronglySorted (fun a b => rel a b /\ ~ rel b a) l ->
  Permutation l' l ->
  StronglySorted rel l' ->
  l' = l.
Proof.
  intros Hl; revert l'; induction Hl as [|x l Hs IH Hf]; intros l' Hp Hs'.
  - symmetry in Hp. now apply Permutation_nil in Hp.
  - destruct l' as [|y l']; [now apply Permutation_nil in Hp|].
    assert (Hy : x = y).
    { assert (Hin : In y (x :: l)) by (eapply Permutation_in; [exact Hp | now left]).
      destruct Hin as [Hin|Hin]; auto.
      rewrite Forall_forall in Hf. destruct (Hf y Hin) as [_ Hn].
      assert (Hx : In x (y :: l'))
        by (eapply Permutation_in; [symmetry; exact Hp | now left]).
      destruct Hx as [Hx|Hx]; auto.
      inversion Hs' as [|? ? _ Hf']; subst. rewrite Forall_forall in Hf'.
      exfalso; apply Hn, Hf', Hx. }
    subst y. f_equal. apply IH.
    + now apply Permutation_cons_inv in Hp.
    + now inversion Hs'.
Qed.

Lemma filter_all {A : Type} (p : A -> bool) (l : list A) :
  Forall (fun x => p x = true) l -> filter p l = l.
Proof.
  induction 1 as [|x l Hx _ IH]; simpl; auto. now rewrite Hx, IH.
Qed.

Lemma filter_none {A : Type} (p : A -> bool) (l : list A) :
  Forall (fun x => p x = true) l -> filter (fun x => negb (p x)) l = [].
Proof.
  induction 1 as [|x l Hx _ IH]; simpl; auto. now rewrite Hx.
Qed.

Lemma sort_values_sorted_id (E : Env) (HE : argsort_ok E) {R K : Type}
    (leb : K -> K -> bool)
    (Htot : forall x y, leb x y = true \/ leb y x = true)
    (Htrans : forall x y z, leb x y = true -> leb y z = true -> leb x z = true)
    (ascending : bool) (by_ : R -> option K) (rows : list R) :
  strictly_sorted leb ascending by_ rows ->
  sort_values E leb ascending by_ rows = rows.
Proof.
  intros [Hs Hk].
  destruct (sort_values_spec E HE leb Htot Htrans ascending by_ rows)
    as [valued [-> [Hp Hv]]].
  rewrite filter_none, app_nil_r by exact Hk.
  rewrite filter_all in Hp by exact Hk.
  eapply sorted_perm_unique; eauto.
Qed.

Lemma sort_group_sorted_id (E : Env) (HE : argsort_ok E) (g : list AchievementRecord) :
  strictly_sorted ts_leb true (fun r => Some (period r)) g ->
  sort_group E g = g.
Proof.
  apply sort_values_sorted_id; auto using ts_leb_total.
  intros x y z; apply ts_leb_trans.
Qed.

Lemma sort_summary_sorted_id (E : Env) (HE : argsort_ok E)
    (rows : list DepartmentSummary) :
  strictly_sorted Qle_bool false latest_rate rows ->
  sort_summary E rows = rows.
Proof.
  apply sort_values_sorted_id; auto using Qle_bool_total.
  intros x y z; apply Qle_bool_trans.
Qed.

Lemma dept_summary_sorted_group (E : Env) (HE : argsort_ok E)
    (today latest : Timestamp) (total : Q) (int64 : bool) (k : string)
    (g : list AchievementRecord) :
  strictly_sorted ts_leb true (fun r => Some (period r)) g ->
  dept_summary E today latest total int64 k g
  = dept_summary std_env today latest total int64 k g.
Proof.
  intros H. unfold dept_summary.
  now rewrite (sort_group_sorted_id E HE g H), (sort_group_sorted_id std_env std_env_ok g H).
Qed.

Lemma summary_data_sorted_groups (E : Env) (HE : argsort_ok E)
    (today latest : Timestamp) (chart : list AchievementRecord) :
  Forall (fun kg => strictly_sorted ts_leb true (fun r => Some (period r)) (snd kg))
         (groupby chart) ->
  summary_data E today latest chart = summary_data std_env today latest chart.
Proof.
  intros H. unfold summary_data. apply map_ext_in.
  intros kg Hin. rewrite Forall_forall in H.
  apply dept_summary_sorted_group; auto.
Qed.

Ltac sorted_by_eval :=
  repeat match goal with
  | |- Forall _ [] => constructor
  | |- Forall _ (_ :: _) => constructor; cbv beta; cbn [snd]
  | |- StronglySorted _ [] => constructor
  | |- StronglySorted _ (_ :: _) => constructor
  | |- strictly_sorted _ _ _ _ => split
  | |- _ /\ _ => split
  | |- key_rel _ _ _ _ _ => vm_compute; reflexivity
  | |- ~ key_rel _ _ _ _ _ => vm_compute; discriminate
  | |- has_key _ _ = true => reflexivity
  end.

Ltac eval_list l := let v := eval vm_compute in l in change l with v.


(** ** The scenario *)

(** C1: on the scenario tables, with today = 2024-03-01, [process_data]
    returns exactly four AchievementRecords, A/2024-01, A/2024-02,
    B/2024-01 and B/2024-02 with rates 50, 120, 100 and 90 (each rate
    being actual / target x 100), and the summary rows A then B with
    latest rates 120 and 90. *)
Theorem scenario_result (E : Env) (HE : argsort_ok E) :
  exists summary chart,
    snd (process_data E (Some scenario_target) (Some scenario_actual) scenario_today)
      = Ok (summary, chart) /\
    map (fun r => (dept r, period r)) chart
      = [("A", first_of 2024 1); ("A", first_of 2024 2);
         ("B", first_of 2024 1); ("B", first_of 2024 2)]%string /\
    Forall2 Qeq (map achievement_rate chart) [50; 120; 100; 90]%Q /\
    Forall (fun r => achievement_rate r
                     = ((actual_value r / target_value r) * 100)%Q) chart /\
    map s_dept summary = ["A"; "B"]%string /\
    Forall2 rate_is (map latest_rate summary) [120; 90]%Q.
Proof.
  set (chart := snd scenario_tables).
  assert (Hrun :
    snd (process_data E (Some scenario_target) (Some scenario_actual) scenario_today)
    = Ok (sort_summary E (summary_data E scenario_today (first_of 2024 2) chart), chart))
    by reflexivity.
  rewrite summary_data_sorted_groups in Hrun; auto.
  2:{ eval_list (groupby chart). cbn [snd]. sorted_by_eval. }
  rewrite sort_summary_sorted_id in Hrun; auto.
  2:{ eval_list (summary_data std_env scenario_today (first_of 2024 2) chart).
      sorted_by_eval. }
  eexists _, _. split; [exact Hrun|].
  split; [reflexivity|].
  split; [repeat constructor; vm_compute; reflexivity|].
  split; [repeat constructor|].
  split; [reflexivity|].
  repeat constructor; vm_compute; reflexivity.
Qed.

Lemma scenario_result_witness :
  exists summary chart,
    snd (process_data std_env (Some scenario_target) (Some scenario_actual)
                      scenario_today) = Ok (summary, chart) /\
    map s_dept summary = ["A"; "B"]%string.
Proof.
  destruct (scenario_result std_env std_env_ok)
    as [summary [chart [H1 [_ [_ [_ [H5 _]]]]]]].
  exists summary, chart; split; [exact H1 | exact H5].
Defined.

(** ** Structural failures *)

Lemma structural_failures_return_empty (E : Env) (c0 a0 : Column) (t a : DataFrame)
    (today : Timestamp) :
  (t = [] \/ date_cols (a0 :: a) = [] \/
   (forall v, chart_data E c0 v a0 (date_cols (a0 :: a)) = [])) ->
  snd (process_data E (Some (c0 :: t)) (Some (a0 :: a)) today) = Ok empty_tables.
Proof.
  intros H. unfold process_data.
  destruct (target_value_col (c0 :: t)) as [k|] eqn:Hk; [|reflexivity].
  destruct H as [->|[H|H]]; [discriminate Hk| |].
  - now rewrite H.
  - destruct (date_cols (a0 :: a)); [reflexivity|]. now rewrite H.
Qed.

(** C4: a target table without any column makes [process_data] raise
    IndexError at [target_df.columns[0]] instead of returning the pair of
    empty tables, and so does an actual table without any column. *)
Theorem zero_column_table_raises (E : Env) (c : Column) (t a : DataFrame)
    (today : Timestamp) :
  process_data E (Some []) (Some a) today = (Some [], Raise IndexError) /\
  process_data E (Some (c :: t)) (Some []) today = (Some (c :: t), Raise IndexError).
Proof. split; reflexivity. Qed.

(** ** What a call leaves in the tables it was given *)

Lemma assign_month_id (chart : list AchievementRecord) : assign_month chart = chart.
Proof.
  unfold assign_month, to_datetime.
  induction chart as [|[d p a t r] chart IH]; simpl; [reflexivity | now rewrite IH].
Qed.

Lemma update_nth_fixed {A : Type} (f : A -> A) (k : nat) (l : list A) (c : A) :
  nth_error l k = Some c -> f c = c -> update_nth k f l = l.
Proof.
  revert k; induction l as [|x l IH]; intros [|k]; simpl; try discriminate.
  - intros [= ->] ->; reflexivity.
  - intros H1 H2. now rewrite (IH k).
Qed.

Lemma update_nth_out {A : Type} (f : A -> A) (k : nat) (l : list A) :
  nth_error l k = None -> update_nth k f l = l.
Proof.
  revert k; induction l as [|x l IH]; intros [|k]; simpl; try discriminate; auto.
  intros H. now rewrite (IH k).
Qed.

Lemma process_data_store (E : Env) (tdf : DataFrame) (a : option DataFrame)
    (today : Timestamp) :
  fst (process_data E (Some tdf) a today) = Some tdf \/
  exists k, target_value_col tdf = Some k /\
            fst (process_data E (Some tdf) a today)
            = Some (update_nth k (coerce_column E) tdf).
Proof.
  unfold process_data.
  destruct a as [[|a0 a]|], tdf as [|c0 t]; cbn [fst]; auto.
  destruct (target_value_col (c0 :: t)) as [k|]; cbn [fst]; auto.
  right; exists k; split; auto.
  destruct (date_cols (a0 :: a)); cbn [fst]; auto.
  match goal with |- context [chart_data ?e ?x ?v ?y ?z] =>
    destruct (chart_data e x v y z) end; reflexivity.
Qed.

(** ** Running the engine again *)

Lemma coerce_column_idem (E : Env) (c : Column) :
  coerce_column E (coerce_column E c) = coerce_column E c.
Proof.
  unfold coerce_column. destruct (numeric c) eqn:H; [now rewrite H | reflexivity].
Qed.

Lemma coerce_column_label (E : Env) (c : Column) : label (coerce_column E c) = label c.
Proof. unfold coerce_column. now destruct (numeric c). Qed.

Lemma update_nth_idem {A : Type} (f : A -> A) (k : nat) (l : list A) :
  (forall x, f (f x) = f x) -> update_nth k f (update_nth k f l) = update_nth k f l.
Proof.
  intros Hf; revert k; induction l as [|x l IH]; intros [|k]; simpl; auto.
  - now rewrite Hf.
  - now rewrite IH.
Qed.

Lemma find_index_update {A : Type} (p : A -> bool) (f : A -> A) (k : nat) (l : list A) :
  (forall x, p (f x) = p x) ->
  find_index p (update_nth k f l) = find_index p l.
Proof.
  intros Hf; revert k; induction l as [|x l IH]; intros [|k]; simpl; auto.
  - now rewrite Hf.
  - now rewrite IH.
Qed.

Lemma target_value_col_pos (t : DataFrame) (k : nat) :
  target_value_col t = Some k -> exists k', k = S k'.
Proof.
  unfold target_value_col. destruct t as [|c0 [|c1 t]]; try discriminate.
  destruct (find_index _ _) as [j|]; intros [= <-]; eauto.
Qed.

Lemma target_value_col_update (E : Env) (c0 : Column) (t : DataFrame) (k : nat) :
  target_value_col (c0 :: update_nth k (coerce_column E) t) = target_value_col (c0 :: t).
Proof.
  destruct t as [|c1 t]; [destruct k; reflexivity|].
  assert (H : find_index (fun c => is_target_header (label c))
                         (update_nth k (coerce_column E) (c1 :: t))
              = find_index (fun c => is_target_header (label c)) (c1 :: t)).
  { apply find_index_update. intros x. now rewrite coerce_column_label. }
  unfold target_value_col; cbn [tl]. rewrite H. now destruct k.
Qed.

Lemma process_data_rerun (E : Env) (c0 : Column) (t : DataFrame) (k : nat)
    (a : option DataFrame) (today : Timestamp) :
  target_value_col (c0 :: t) = Some (S k) ->
  process_data E (Some (c0 :: update_nth k (coerce_column E) t)) a today
  = (Some (c0 :: update_nth k (coerce_column E) t),
     snd (process_data E (Some (c0 :: t)) a today)).
Proof.
  intros Hk. unfold process_data.
  destruct a as [[|a0 a]|]; try reflexivity.
  rewrite target_value_col_update, Hk. cbn [update_nth].
  rewrite (update_nth_idem _ _ _ (coerce_column_idem E)).
  destruct (date_cols (a0 :: a)); [reflexivity|].
  match goal with |- context [chart_data ?e ?x ?v ?y ?z] =>
    destruct (chart_data e x v y z) end; reflexivity.
Qed.

(** C9: [process_data] is a function of the two tables and [today], and
    the table it writes to does not carry state into the next run: run
    again on the tables as the first run left them, with the same
    [today], it returns the same summary and chart and leaves the tables
    as they are. *)
Theorem process_data_idempotent (E : Env) (t a : option DataFrame) (today : Timestamp) :
  process_data E (fst (process_data E t a today)) a today = process_data E t a today.
Proof.
  destruct t as [tdf|]; [|reflexivity].
  destruct (process_data_store E tdf a today) as [H|[k [Hk H]]].
  - now rewrite H.
  - rewrite H. destruct (target_value_col_pos _ _ Hk) as [k' ->].
    destruct tdf as [|c0 t]; [discriminate Hk|]. cbn [update_nth] in *.
    rewrite (process_data_rerun E c0 t k' a today Hk).
    rewrite <- H. symmetry. apply surjective_pairing.
Qed.

(** ** The tables of the caller after a call *)

(** The target table after a call, in full. *)
Lemma process_data_target (E : Env) (tdf : DataFrame) (a : option DataFrame)
    (today : Timestamp) :
  fst (process_data E (Some tdf) a today)
  = Some (match a, target_value_col tdf with
          | Some (_ :: _), Some k => update_nth k (coerce_column E) tdf
          | _, _ => tdf
          end).
Proof.
  unfold process_data.
  destruct a as [[|a0 a]|], tdf as [|c0 t]; cbn [fst]; auto;
    destruct (target_value_col (c0 :: t)) as [k|]; cbn [fst]; auto.
  destruct (date_cols (a0 :: a)); cbn [fst]; auto.
  match goal with |- context [chart_data ?e ?x ?v ?y ?z] =>
    destruct (chart_data e x v y z) end; reflexivity.
Qed.

Lemma update_nth_length {A : Type} (f : A -> A) (k : nat) (l : list A) :
  List.length (update_nth k f l) = List.length l.
Proof.
  revert k; induction l as [|x l IH]; intros [|k]; simpl; auto.
Qed.

Lemma update_nth_same {A : Type} (f : A -> A) (k : nat) (l : list A) :
  nth_error (update_nth k f l) k = option_map f (nth_error l k).
Proof.
  revert k; induction l as [|x l IH]; intros [|k]; simpl; auto.
Qed.

Lemma update_nth_other {A : Type} (f : A -> A) (k j : nat) (l : list A) :
  j <> k -> nth_error (update_nth k f l) j = nth_error l j.
Proof.
  revert k j; induction l as [|x l IH]; intros [|k] [|j] H; simpl; auto;
    try contradiction.
Qed.

(** A second run on the target table as the first run left it *)
Lemma process_data_again (E : Env) (tdf : DataFrame) (a : option DataFrame)
    (today : Timestamp) :
  snd (process_data E (fst (process_data E (Some tdf) a today)) a today)
  = snd (process_data E (Some tdf) a today).
Proof.
  destruct (process_data_store E tdf a today) as [H|[k [Hk H]]].
  - now rewrite H.
  - rewrite H. destruct (target_value_col_pos _ _ Hk) as [k' ->].
    destruct tdf as [|c0 t]; [discriminate Hk|]. cbn [update_nth] in *.
    now rewrite (process_data_rerun E c0 t k' a today Hk).
Qed.

Lemma to_datetime_stamps (parse : string -> option Timestamp)
    (chart : list AchievementRecord) :
  to_datetime_column parse (chart_rows chart) = Some chart.
Proof.
  induction chart as [|[d p a t r] chart IH]; [reflexivity|].
  unfold chart_rows in *. cbn [map to_datetime_column]. rewrite IH. reflexivity.
Qed.

Lemma export_tables_kept (E : Env) (summary : list DepartmentSummary)
    (chart : list AchievementRecord) (analysis_date : Timestamp) (period_type : string) :
  fst (export_metrics_csv E summary chart analysis_date period_type) = (summary, chart).
Proof.
  unfold export_metrics_csv, _calculate_period, _calculate_trend_metrics.
  rewrite assign_month_id.
  destruct chart as [|r rest]; cbn [fst]; [reflexivity|].
  now rewrite assign_month_id.
Qed.

(** C5, as the code has it.  [process_data] assigns to no table but the
    one [target_df] refers to: every other table of the caller is as it
    was, the actual table among them when it is another object, and the
    call then returns what [process_data] returns on the two tables.  Of
    the target table it assigns to the target-value column only, and only
    when both tables have a column and that column is not of a numeric
    dtype; the column is then replaced by its numeric coercion and every
    other column is as it was.  [export_metrics_csv] never assigns to the
    summary table; to a chart table that is not empty it assigns the
    [to_datetime] conversion of the month column, which leaves a table
    whose months are time stamps as it was, and when that conversion
    raises the table is as it was. *)
Theorem tables_after_calls (E : Env) (h : Heap) (target_df actual_df : option nat)
    (today : Timestamp) (parse : string -> option Timestamp)
    (summary : list DepartmentSummary) (rows : list ChartRow)
    (analysis_date : Timestamp) (period_type : string) :
  let h' := fst (process_data_call E h target_df actual_df today) in
  let after :=
    fst (export_metrics_csv_call parse E summary rows analysis_date period_type) in
  List.length h' = List.length h /\
  (forall r, Some r <> target_df -> nth_error h' r = nth_error h r) /\
  (target_df <> actual_df ->
   deref h' actual_df = deref h actual_df /\
   snd (process_data_call E h target_df actual_df today)
   = snd (process_data E (deref h target_df) (deref h actual_df) today)) /\
  (forall tdf, deref h target_df = Some tdf ->
   exists tdf', deref h' target_df = Some tdf' /\
     List.length tdf' = List.length tdf /\
     forall j c, nth_error tdf j = Some c ->
       (is_coerced tdf (deref h actual_df) j c ->
        nth_error tdf' j
        = Some (mkCol (label c) true
                  (map (fun x => match x with
                                 | CStr s =>
                                     match to_numeric E (strip_separators s) with
                                     | Some q => CNum q
                                     | None => CNaN
                                     end
                                 | _ => x
                                 end) (cells c)))) /\
       (~ is_coerced tdf (deref h actual_df) j c -> nth_error tdf' j = Some c)) /\
  fst after = summary /\
  match to_datetime_column parse rows with
  | Some chart => snd after = chart_rows chart
  | None => snd after = rows
  end /\
  (forall chart, rows = chart_rows chart -> snd after = rows).
Proof.
  intros h' after.
  assert (Hlen : List.length h' = List.length h).
  { unfold h', process_data_call; cbn [fst].
    destruct target_df as [i|]; [|reflexivity].
    destruct (fst (process_data E _ _ today)); [apply update_nth_length | reflexivity]. }
  assert (Hframe : forall r, Some r <> target_df -> nth_error h' r = nth_error h r).
  { intros r Hr. unfold h', process_data_call; cbn [fst].
    destruct target_df as [i|]; [|reflexivity].
    destruct (fst (process_data E _ _ today)); [|reflexivity].
    apply update_nth_other. congruence. }
  assert (Htarget : forall tdf, deref h target_df = Some tdf ->
            deref h' target_df = fst (process_data E (Some tdf) (deref h actual_df) today)).
  { intros tdf Ht. unfold h', process_data_call; cbn [fst].
    destruct target_df as [i|]; [|discriminate Ht]. cbn [deref] in *.
    rewrite Ht, process_data_target. rewrite update_nth_same, Ht. reflexivity. }
  split; [exact Hlen|]. split; [exact Hframe|]. split.
  { intros Hne.
    assert (Ha : deref h' actual_df = deref h actual_df).
    { destruct actual_df as [r|]; [|reflexivity]. apply Hframe. congruence. }
    split; [exact Ha|].
    assert (Hsnd : snd (process_data_call E h target_df actual_df today)
                   = snd (process_data E (deref h' target_df) (deref h' actual_df) today))
      by reflexivity.
    rewrite Hsnd, Ha.
    destruct (deref h target_df) as [tdf|] eqn:Ht.
    - rewrite (Htarget tdf eq_refl). apply process_data_again.
    - replace (deref h' target_df) with (@None DataFrame); [reflexivity|].
      symmetry. unfold h', process_data_call; cbn [fst].
      destruct target_df as [i|]; [|reflexivity]. cbn [deref] in *. now rewrite Ht. }
  split.
  { intros tdf Ht. rewrite (Htarget tdf Ht), process_data_target.
    eexists; split; [reflexivity|].
    destruct (deref h actual_df) as [[|a0 adf]|] eqn:Ha.
    - split; [reflexivity|]. intros j c Hc. split; [|auto].
      intros [[x [y Hx]] _]. discriminate Hx.
    - destruct (target_value_col tdf) as [k|] eqn:Hk.
      + split; [apply update_nth_length|]. intros j c Hc.
        destruct (Nat.eq_dec j k) as [->|Hjk].
        * rewrite update_nth_same, Hc. cbn [option_map]. unfold coerce_column.
          destruct (numeric c) eqn:Hn.
          -- split; [intros [_ [_ H]]; congruence | reflexivity].
          -- split.
             ++ intros _. do 2 f_equal. apply map_ext. now intros [q|x|].
             ++ intros H. exfalso. apply H.
                split; [eauto|]. split; [exact Hk | exact Hn].
        * rewrite update_nth_other by exact Hjk. split; [|auto].
          intros [_ [H _]]. rewrite Hk in H. congruence.
      + split; [reflexivity|]. intros j c Hc. split; [|auto].
        intros [_ [H _]]. congruence.
    - split; [reflexivity|]. intros j c Hc. split; [|auto].
      intros [[x [y Hx]] _]. discriminate Hx. }
  assert (Hexp : fst after = summary /\
                 match to_datetime_column parse rows with
                 | Some chart => snd after = chart_rows chart
                 | None => snd after = rows
                 end).
  { unfold after, export_metrics_csv_call.
    destruct rows as [|r0 rows0]; [split; reflexivity|].
    destruct (to_datetime_column parse (r0 :: rows0)) as [chart|]; cbn [fst snd];
      [|split; reflexivity].
    rewrite export_tables_kept. split; reflexivity. }
  split; [apply Hexp|]. split; [apply Hexp|].
  intros chart ->. destruct Hexp as [_ H].
  now rewrite to_datetime_stamps in H.
Qed.

Lemma target_table_is_overwritten :
  fst (process_data std_env (Some text_target) (Some scenario_actual) scenario_today)
    = Some text_target_after /\
  text_target_after <> text_target.
Proof. split; [reflexivity | discriminate]. Qed.

(** A chart whose months are text comes back from the exporter with time
    stamps in their place. *)
Lemma text_months_are_converted :
  snd (fst (export_metrics_csv_call demo_parse std_env [] text_chart
                                    scenario_today "月次"))
  = [ mkRow "A" (MStamp (first_of 2024 1)) 50 100 50;
      mkRow "A" (MStamp (first_of 2024 2)) 120 100 120 ].
Proof. reflexivity. Qed.

(** Passed one table as both arguments, [process_data] changes the
    table it reads the actuals from. *)
Lemma shared_table_is_overwritten :
  fst (process_data_call std_env [text_target] (Some 0%nat) (Some 0%nat) scenario_today)
  = [text_target_after].
Proof. reflexivity. Qed.

(** ** Departments without a target *)

Lemma month_records_dept (E : Env) (d : string) (target : Q) (j : nat)
    (cols : list Column) (r : AchievementRecord) :
  In r (month_records E d target j cols) -> dept r = d.
Proof.
  unfold month_records. rewrite in_flat_map. intros [c [_ H]].
  destruct (label c); [destruct H|].
  destruct (cell_at c j); [| |destruct H].
  - destruct H as [<-|[]]; reflexivity.
  - destruct (py_float E _); [|destruct H]. destruct H as [<-|[]]; reflexivity.
Qed.

Lemma chart_data_dept (E : Env) (c0 vc dca : Column) (cols : list Column)
    (r : AchievementRecord) :
  In r (chart_data E c0 vc dca cols) -> In (dept r) (target_depts [c0]).
Proof.
  unfold chart_data, target_depts. rewrite !in_flat_map.
  intros [i [Hi H]]. apply in_seq in Hi.
  unfold row_records in H.
  destruct (as_dept (cell_at c0 i)) as [d|] eqn:Hd; [|destruct H].
  exists (cell_at c0 i). split.
  - unfold cell_at. apply nth_In. lia.
  - rewrite Hd.
    destruct (first_actual_row dca d); [|destruct H].
    destruct (cell_num (cell_at vc i)); [|destruct H].
    destruct (Qlt_bool 0 q); [|destruct H].
    apply month_records_dept in H. now left.
Qed.

(** C10: a department name that is in no row of the target table's first
    column (whether or not the actual table has it) has no
    AchievementRecord and no DepartmentSummary row. *)
Theorem actual_only_department_excluded (E : Env) (tdf : DataFrame)
    (a : option DataFrame) (today : Timestamp)
    (summary : list DepartmentSummary) (chart : list AchievementRecord) (d : string) :
  snd (process_data E (Some tdf) a today) = Ok (summary, chart) ->
  ~ In d (target_depts tdf) ->
  (forall r, In r chart -> dept r <> d) /\
  (forall s, In s summary -> s_dept s <> d).
Proof.
  intros Hrun Hd.
  apply process_data_ok in Hrun
    as [[-> ->]|[r [rest [tdf' [adf [vc [dca [[= <-] [_ [Hc [Hchart ->]]]]]]]]]]];
    [split; intros ? []|].
  assert (Hin : forall x, In x chart -> dept x <> d).
  { intros x Hx Heq. subst d. apply Hd. rewrite Hchart in Hx.
    apply chart_data_dept in Hx. destruct tdf; [destruct Hx | exact Hx]. }
  split; [exact Hin|].
  intros s Hs. apply summary_In in Hs as [k [Hk ->]]; simpl.
  apply in_map_iff in Hk as [x [<- Hx]]. now apply Hin.
Qed.

Lemma actual_only_department_excluded_witness :
  (forall r, In r (snd scenario_tables) -> dept r <> "C"%string) /\
  (forall s, In s (fst scenario_tables) -> s_dept s <> "C"%string).
Proof.
  apply (actual_only_department_excluded std_env scenario_target
           (Some (mkCol (HLabel "診療科") false [CStr "A"; CStr "B"; CStr "C"]
                  :: mkCol (HDate (first_of 2024 1)) true [CNum 50; CNum 200; CNum 7]
                  :: mkCol (HDate (first_of 2024 2)) true [CNum 120; CNum 180; CNum 9]
                  :: []))
           scenario_today).
  - reflexivity.
  - simpl. intros [H|[H|[]]]; discriminate H.
Defined.

(** ** The order of the summary *)

Lemma StronglySorted_weaken {A : Type} (R R' : A -> A -> Prop) (l : list A) :
  (forall a b, R a b -> R' a b) -> StronglySorted R l -> StronglySorted R' l.
Proof.
  intros H; induction 1 as [|a l Hs IH Hf]; constructor; auto.
  eapply Forall_impl; [|exact Hf]. auto.
Qed.

Lemma sort_summary_spec (E : Env) (HE : argsort_ok E) (rows : list DepartmentSummary) :
  exists valued,
    sort_summary E rows = valued ++ filter missing_rate rows /\
    Permutation valued (filter (has_key latest_rate) rows) /\
    StronglySorted rate_desc valued.
Proof.
  destruct (sort_values_spec E HE Qle_bool Qle_bool_total Qle_bool_trans false
                             latest_rate rows) as [valued [H1 [H2 H3]]].
  exists valued. split; [exact H1|]. split; [exact H2|].
  eapply StronglySorted_weaken; [|exact H3].
  intros x y; unfold key_rel, rate_desc, dir_le.
  destruct (latest_rate x), (latest_rate y); auto. apply Qle_bool_iff.
Qed.

(** C6, as the code has it: the summary is the departments with a latest
    rate, in descending order of that rate, followed by the departments
    without one; the departments without a latest rate keep the order
    they had before sorting.  Nothing is promised about the relative
    order of departments with equal rates. *)
Theorem summary_order (E : Env) (HE : argsort_ok E)
    (t a : option DataFrame) (today : Timestamp)
    (summary : list DepartmentSummary) (chart : list AchievementRecord) :
  snd (process_data E t a today) = Ok (summary, chart) ->
  exists presort valued missing,
    summary = valued ++ missing /\
    Permutation summary presort /\
    (forall p, is_latest chart p -> presort = summary_data E today p chart) /\
    Forall (fun s => latest_rate s <> None) valued /\
    Forall (fun s => latest_rate s = None) missing /\
    StronglySorted rate_desc valued /\
    missing = filter missing_rate presort.
Proof.
  intros Hrun.
  apply process_data_ok in Hrun
    as [[-> ->]|[r [rest [tdf [adf [vc [dca [_ [_ [Hc [_ ->]]]]]]]]]]].
  - exists [], [], []. repeat split; auto; constructor.
  - set (presort := summary_data E today (max_period r rest) chart).
    destruct (sort_summary_spec E HE presort) as [valued [H1 [H2 H3]]].
    exists presort, valued, (filter missing_rate presort).
    split; [exact H1|]. split.
    { rewrite H1, H2. apply filter_split_perm. }
    split.
    { intros p Hp. unfold presort. f_equal.
      eapply is_latest_unique; [|exact Hp]. rewrite Hc. apply max_period_latest. }
    split.
    { eapply Permutation_Forall; [symmetry; exact H2|].
      apply Forall_forall; intros s Hs. apply filter_In in Hs as [_ Hs].
      unfold has_key in Hs. now destruct (latest_rate s). }
    split.
    { apply Forall_forall; intros s Hs. apply filter_In in Hs as [_ Hs].
      unfold missing_rate, has_key in Hs. now destruct (latest_rate s). }
    split; [exact H3 | reflexivity].
Qed.

Lemma summary_order_witness :
  exists presort valued missing,
    fst scenario_tables = valued ++ missing /\
    Permutation (fst scenario_tables) presort /\
    StronglySorted rate_desc valued /\
    missing = filter missing_rate presort.
Proof.
  destruct (summary_order std_env std_env_ok
              (Some scenario_target) (Some scenario_actual) scenario_today
              (fst scenario_tables) (snd scenario_tables) eq_refl)
    as [presort [valued [missing [H1 [H2 [_ [_ [_ [H3 H4]]]]]]]]].
  exists presort, valued, missing. auto.
Defined.

Lemma names_perm (l l' : list string) :
  nodup string_dec l = l ->
  List.length l' = List.length l ->
  forallb (fun x => existsb (String.eqb x) l') l = true ->
  Permutation l l'.
Proof.
  intros Hnd Hlen Hin. apply NoDup_Permutation_bis.
  - rewrite <- Hnd. apply NoDup_nodup.
  - now rewrite Hlen.
  - intros x Hx. rewrite forallb_forall in Hin. specialize (Hin x Hx).
    apply existsb_exists in Hin as [y [Hy He]]. apply String.eqb_eq in He. now subst.
Qed.

(** With numpy's quicksort the twenty-four departments, which stand in
    the order of their names before the sort, come out rearranged, in
    descending order of their rates, but not in their former order among
    equal rates: two departments with one rate have changed places. *)
Lemma equal_rates_reordered :
  let presort := summary_data numpy_env scenario_today (first_of 2024 1)
                              (snd (tie_tables numpy_env)) in
  let summary := fst (tie_tables numpy_env) in
  map s_dept presort = tie_depts /\
  Permutation (map s_dept presort) (map s_dept summary) /\
  map latest_rate summary
  = repeat (Some (11000 # 100)) 8 ++ repeat (Some (10000 # 100)) 8
    ++ repeat (Some (9000 # 100)) 8 /\
  exists x y,
    In x summary /\ In y summary /\ latest_rate x = latest_rate y /\
    stands_before (s_dept x) (s_dept y) (map s_dept presort) /\
    stands_before (s_dept y) (s_dept x) (map s_dept summary).
Proof.
  intros presort summary.
  split; [vm_compute; reflexivity|].
  split; [apply names_perm; vm_compute; reflexivity|].
  split; [vm_compute; reflexivity|].
  exists (nth 1 summary (mkSum EmptyString None None None EmptyString 0 None)),
         (nth 0 summary (mkSum EmptyString None None None EmptyString 0 None)).
  split; [apply nth_In, Nat.ltb_lt; vm_compute; reflexivity|].
  split; [apply nth_In, Nat.ltb_lt; vm_compute; reflexivity|].
  split; [vm_compute; reflexivity|]. split.
  - exists (firstn 5 tie_depts), (firstn 17 (skipn 6 tie_depts)), [].
    vm_compute; reflexivity.
  - exists [], [], (skipn 2 (map s_dept summary)). vm_compute; reflexivity.
Qed.

(** ** Shares of the latest month *)

Lemma sumQ_map_ext {A : Type} (g h : A -> Q) (l : list A) :
  (forall x, In x l -> (g x == h x)%Q) -> (sumQ (map g l) == sumQ (map h l))%Q.
Proof.
  induction l as [|x l IH]; intros H; simpl; [reflexivity|].
  rewrite (H x) by now left. rewrite IH; [reflexivity|]. intros; apply H; now right.
Qed.

Lemma sumQ_map_plus {A : Type} (g h : A -> Q) (l : list A) :
  (sumQ (map (fun x => g x + h x) l) == sumQ (map g l) + sumQ (map h l))%Q.
Proof.
  induction l as [|x l IH]; simpl; [ring | rewrite IH; ring].
Qed.

Lemma sumQ_map_scale {A : Type} (g : A -> Q) (c : Q) (l : list A) :
  (sumQ (map (fun x => g x * c) l) == sumQ (map g l) * c)%Q.
Proof.
  induction l as [|x l IH]; simpl; [ring | rewrite IH; ring].
Qed.

Lemma sumQ_zeros {A : Type} (l : list A) : (sumQ (map (fun _ => 0%Q) l) == 0)%Q.
Proof. induction l as [|x l IH]; simpl; [reflexivity | rewrite IH; ring]. Qed.

Lemma sumQ_indicator (v : Q) (k : string) (ks : list string) :
  NoDup ks -> In k ks ->
  (sumQ (map (fun k' => if String.eqb k k' then v else 0) ks) == v)%Q.
Proof.
  induction 1 as [|k0 ks Hn Hnd IH]; intros Hin; [destruct Hin|].
  simpl. destruct (String.eqb_spec k k0) as [->|Hne].
  - rewrite (sumQ_map_ext _ (fun _ => 0%Q)).
    + rewrite sumQ_zeros. ring.
    + intros x Hx. destruct (String.eqb_spec k0 x); [subst; contradiction | reflexivity].
  - destruct Hin as [->|Hin]; [contradiction|]. rewrite IH by exact Hin. ring.
Qed.

(** A sum over a table is the sum, over the keys, of the sums over the
    rows of each key. *)
Lemma sumQ_by_key (f : AchievementRecord -> Q) (ks : list string)
    (l : list AchievementRecord) :
  NoDup ks -> (forall r, In r l -> In (dept r) ks) ->
  (sumQ (map (fun k => sumQ (map f (dept_rows l k))) ks) == sumQ (map f l))%Q.
Proof.
  intros Hnd; induction l as [|x l IH]; intros Hks.
  - simpl. apply sumQ_zeros.
  - rewrite (sumQ_map_ext _
      (fun k => (if String.eqb (dept x) k then f x else 0)
                + sumQ (map f (dept_rows l k)))%Q).
    + rewrite sumQ_map_plus, sumQ_indicator, IH; simpl; auto.
      * reflexivity.
      * intros; apply Hks; now right.
      * apply Hks; now left.
    + intros k _. unfold dept_rows; simpl.
      destruct (String.eqb (dept x) k); simpl; ring.
Qed.

Lemma filter_comm {A : Type} (p q : A -> bool) (l : list A) :
  filter p (filter q l) = filter q (filter p l).
Proof.
  induction l as [|x l IH]; simpl; auto.
  destruct (p x) eqn:Hp, (q x) eqn:Hq; simpl; rewrite ?Hp, ?Hq, IH; reflexivity.
Qed.

Lemma NoDup_key_filter (k : string) (l : list AchievementRecord) :
  NoDup (map dept l) -> (List.length (dept_rows l k) <= 1)%nat.
Proof.
  induction l as [|x l IH]; simpl; intros H; [lia|].
  inversion H as [|? ? Hx Hl]; subst.
  destruct (String.eqb_spec (dept x) k) as [<-|_]; [|auto].
  simpl. replace (dept_rows l (dept x)) with (@nil AchievementRecord); [simpl; lia|].
  symmetry. unfold dept_rows.
  destruct (filter _ l) as [|y l'] eqn:Hf; [reflexivity|].
  exfalso. apply Hx.
  assert (Hy : In y (filter (fun r => String.eqb (dept r) (dept x)) l))
    by (rewrite Hf; now left).
  apply filter_In in Hy as [Hy He]. apply String.eqb_eq in He. rewrite <- He.
  now apply in_map.
Qed.

Lemma perm_short {A : Type} (l m : list A) :
  Permutation l m -> (List.length m <= 1)%nat -> l = m.
Proof.
  intros H Hm. destruct m as [|x [|y m]]; simpl in Hm; try lia.
  - now apply Permutation_nil; symmetry.
  - now apply Permutation_length_1_inv; symmetry.
Qed.

Lemma recent_actual_single (E : Env) (HE : argsort_ok E) (p : Timestamp)
    (chart : list AchievementRecord) (k : string) :
  NoDup (map dept (at_period p chart)) ->
  (recent_actual p (sort_group E (dept_rows chart k))
   == sumQ (map actual_value (dept_rows (at_period p chart) k)))%Q.
Proof.
  intros Hnd. unfold recent_actual, recent_rate_row.
  assert (H : filter (fun r => ts_eqb (period r) p) (sort_group E (dept_rows chart k))
              = dept_rows (at_period p chart) k).
  { apply perm_short.
    - unfold dept_rows at 2, at_period. rewrite filter_comm.
      apply filter_perm, sort_group_perm, HE.
    - now apply NoDup_key_filter. }
  rewrite H.
  pose proof (NoDup_key_filter k _ Hnd) as Hlen.
  destruct (dept_rows (at_period p chart) k) as [|x [|y l]]; simpl in *; try lia.
  - reflexivity.
  - ring.
Qed.

Lemma groupby_keys (chart : list AchievementRecord) :
  let ks := sorted_by String.leb (nodup string_dec (map dept chart)) in
  NoDup ks /\ forall r, In r chart -> In (dept r) ks.
Proof.
  intros ks.
  pose proof (sorted_by_perm String.leb (nodup string_dec (map dept chart))) as Hp.
  split.
  - eapply Permutation_NoDup; [symmetry; exact Hp | apply NoDup_nodup].
  - intros r Hr. eapply Permutation_in; [symmetry; exact Hp|].
    apply nodup_In. now apply in_map.
Qed.

(** C7, as the code has it: when the actual values are finite numbers
    and the sum of the actuals at the latest period lies in the signed
    64-bit range, total_recent_profit is that
    sum and each profit share is the department's latest actual / that
    total x 100, and 0 when the total is not positive.  When moreover
    every department of the summary has an AchievementRecord at the
    latest period, the total is positive and no department has two
    records at that period, the profit shares add up to 100. *)
Theorem profit_shares_sum (E : Env) (HE : argsort_ok E)
    (t a : option DataFrame) (today : Timestamp)
    (summary : list DepartmentSummary) (chart : list AchievementRecord)
    (p : Timestamp) :
  finite_actuals E a ->
  snd (process_data E t a today) = Ok (summary, chart) ->
  is_latest chart p ->
  int64_range (sumQ (map actual_value (at_period p chart))) ->
  (total_recent chart p == sumQ (map actual_value (at_period p chart)))%Q /\
  (forall s, In s summary ->
     profit_share_pct s
     = if Qlt_bool 0 (total_recent chart p)
       then ((recent_actual p (sort_group E (dept_rows chart (s_dept s)))
              / total_recent chart p) * 100)%Q
       else 0%Q) /\
  ((forall s, In s summary -> has_record_at chart (s_dept s) p) ->
   (0 < total_recent chart p)%Q ->
   NoDup (map dept (at_period p chart)) ->
   (sumQ (map profit_share_pct summary) == 100)%Q).
Proof.
  intros _ Hrun Hp Hrange.
  apply process_data_ok in Hrun
    as [[-> ->]|[r [rest [tdf [adf [vc [dca [_ [_ [Hc [_ ->]]]]]]]]]]].
  { destruct Hp as [[x [[] _]] _]. }
  assert (Hlatest : max_period r rest = p).
  { eapply is_latest_unique; [|exact Hp]. rewrite Hc. apply max_period_latest. }
  rewrite Hlatest. clear Hlatest Hc r rest.
  assert (Htot : (total_recent chart p == sumQ (map actual_value (at_period p chart)))%Q).
  { unfold total_recent. apply series_sum_exact; [|exact Hrange].
    apply int64_actuals_part. intros x Hx. now apply filter_In in Hx. }
  split; [exact Htot|]. split.
  - intros s Hs. apply summary_In in Hs as [k [_ ->]]. reflexivity.
  - intros _ Hpos Hnd.
    assert (Hlt : Qlt_bool 0 (total_recent chart p) = true) by now apply Qlt_bool_iff.
    rewrite (sumQ_perm _ (map profit_share_pct (summary_data E today p chart))).
    2:{ apply Permutation_map, sort_values_perm; auto using Qle_bool_total.
        intros x y z; apply Qle_bool_trans. }
    unfold summary_data, groupby. rewrite !map_map. cbn [fst snd dept_summary profit_share_pct].
    destruct (groupby_keys chart) as [Hks Hin].
    set (ks := sorted_by String.leb (nodup string_dec (map dept chart))) in *.
    rewrite (sumQ_map_ext _
      (fun k => sumQ (map actual_value (dept_rows (at_period p chart) k))
                * (/ total_recent chart p * 100))%Q).
    + rewrite sumQ_map_scale, sumQ_by_key; auto.
      * rewrite Htot in Hpos |- *. field.
        intros H0. rewrite H0 in Hpos. exact (Qlt_irrefl 0 Hpos).
      * intros x Hx. apply Hin. unfold at_period in Hx. now apply filter_In in Hx.
    + intros k _. unfold profit_share. rewrite Hlt.
      rewrite (recent_actual_single E HE p chart k Hnd). unfold Qdiv. ring.
Qed.

Lemma profit_shares_sum_witness :
  (sumQ (map profit_share_pct (fst scenario_tables)) == 100)%Q.
Proof.
  apply (profit_shares_sum std_env std_env_ok
           (Some scenario_target) (Some scenario_actual) scenario_today
           (fst scenario_tables) (snd scenario_tables) (first_of 2024 2)).
  - no_text_actuals.
  - reflexivity.
  - split.
    + exists (mkAch "A" (first_of 2024 2) 120 100 ((120 / 100) * 100)%Q).
      split; [right; left; reflexivity | reflexivity].
    + intros r Hr. simpl in Hr.
      destruct Hr as [<-|[<-|[<-|[<-|[]]]]]; reflexivity.
  - split; vm_compute; [discriminate | reflexivity].
  - intros s Hs. simpl in Hs. destruct Hs as [<-|[<-|[]]].
    + exists (mkAch "A" (first_of 2024 2) 120 100 ((120 / 100) * 100)%Q).
      split; [right; left; reflexivity | split; reflexivity].
    + exists (mkAch "B" (first_of 2024 2) 180 200 ((180 / 200) * 100)%Q).
      split; [right; right; right; left; reflexivity | split; reflexivity].
  - reflexivity.
  - vm_compute. repeat constructor; simpl; intuition discriminate.
Defined.

Lemma duplicate_target_rows_share :
  is_latest (snd dup_tables) (first_of 2024 1) /\
  (forall s, In s (fst dup_tables) -> has_record_at (snd dup_tables) (s_dept s)
                                                    (first_of 2024 1)) /\
  (0 < total_recent (snd dup_tables) (first_of 2024 1))%Q /\
  (sumQ (map profit_share_pct (fst dup_tables)) == 50)%Q /\
  ~ (sumQ (map profit_share_pct (fst dup_tables)) == 100)%Q.
Proof.
  split.
  { split.
    - exists (mkAch "A" (first_of 2024 1) 50 100 ((50 / 100) * 100)%Q).
      split; [left; reflexivity | reflexivity].
    - intros r Hr. simpl in Hr. destruct Hr as [<-|[<-|[]]]; reflexivity. }
  split.
  { intros s Hs. simpl in Hs. destruct Hs as [<-|[]].
    exists (mkAch "A" (first_of 2024 1) 50 100 ((50 / 100) * 100)%Q).
    split; [left; reflexivity | split; reflexivity]. }
  split; [reflexivity|].
  split; [reflexivity | discriminate].
Qed.

(** ** The stability window of the export adapter *)

Lemma stability_metric_skipped (E : Env) (chart : list AchievementRecord) :
  (List.length (recent_data chart) <= 1)%nat -> stability_metric E chart = [].
Proof.
  intros H. unfold stability_metric. rewrite length_map.
  destruct (Nat.ltb_spec 1 (List.length (recent_data chart))); [lia | reflexivity].
Qed.

(** C8: with three departments reporting in 2024-01, 2024-02 and 2024-03,
    the records of the 3 most recent distinct periods are all nine, but
    the window the exporter computes the coefficient of variation over,
    [chart_df['月'].nlargest(3).min()] onwards, starts at 2024-03 and
    holds the three records of that month only. *)
Theorem stability_window_latest_month_only :
  List.length quarter_chart = 9%nat /\
  recent_3_periods_rows quarter_chart = quarter_chart /\
  latest_3_months quarter_chart = Some (first_of 2024 3) /\
  map (fun r => (dept r, period r)) (recent_data quarter_chart)
    = [("A", first_of 2024 3); ("B", first_of 2024 3); ("C", first_of 2024 3)]%string /\
  forall E, stability_metric E quarter_chart
            = [overall "直近3ヶ月変動係数"
                 (round_to (cv E (map achievement_rate (recent_data quarter_chart))) 2)].
Proof. repeat split; reflexivity. Qed.

(** * Further properties of the engine *)

(** ** The records of the chart *)

Lemma process_data_chart (E : Env) (t a : option DataFrame) (today : Timestamp)
    (summary : list DepartmentSummary) (chart : list AchievementRecord) :
  snd (process_data E t a today) = Ok (summary, chart) ->
  chart <> [] ->
  exists c0 tl a0 al k r rest,
    t = Some (c0 :: tl) /\ a = Some (a0 :: al) /\
    target_value_col (c0 :: tl) = Some k /\
    chart = chart_data E c0
              (nth k (update_nth k (coerce_column E) (c0 :: tl))
                   (mkCol (HLabel EmptyString) true []))
              a0 (date_cols (a0 :: al)) /\
    chart = r :: rest /\
    summary = sort_summary E (summary_data E today (max_period r rest) chart).
Proof.
  unfold process_data, empty_tables. intros Hrun Hne.
  destruct t as [[|c0 t]|], a as [[|a0 a]|]; cbv beta iota in Hrun; cbn [snd] in Hrun;
    try discriminate; try (injection Hrun as _ <-; now destruct Hne).
  destruct (target_value_col (c0 :: t)) as [k|] eqn:Hk; cbn [snd] in Hrun;
    [|injection Hrun as _ <-; now destruct Hne].
  destruct (date_cols (a0 :: a)) as [|dc dcs] eqn:Hd; cbn [snd] in Hrun;
    [injection Hrun as _ <-; now destruct Hne|].
  match type of Hrun with
  | context [chart_data E c0 ?v a0 ?cs] =>
      destruct (chart_data E c0 v a0 cs) as [|r rest] eqn:Hc; cbn [snd] in Hrun;
      [injection Hrun as _ <-; now destruct Hne|]
  end.
  injection Hrun as <- <-.
  exists c0, t, a0, a, k, r, rest. rewrite Hd, Hc. repeat split; auto.
Qed.

Lemma find_index_Some {A : Type} (p : A -> bool) (l : list A) (j : nat) :
  find_index p l = Some j ->
  exists x, nth_error l j = Some x /\ p x = true /\
            forall i y, (i < j)%nat -> nth_error l i = Some y -> p y = false.
Proof.
  revert j; induction l as [|x l IH]; intros j; simpl; [discriminate|].
  destruct (p x) eqn:Hp.
  - intros [= <-]. exists x; repeat split; auto. intros i y Hi; lia.
  - destruct (find_index p l) as [j'|]; [|discriminate].
    intros [= <-]. destruct (IH j' eq_refl) as [z [Hz [Hpz Hlt]]].
    exists z; repeat split; auto.
    intros [|i] y Hi; simpl; [intros [= <-]; exact Hp|].
    apply Hlt; lia.
Qed.

Lemma find_index_None {A : Type} (p : A -> bool) (l : list A) :
  find_index p l = None -> forall x, In x l -> p x = false.
Proof.
  induction l as [|x l IH]; simpl; [intros _ y []|].
  destruct (p x) eqn:Hp; [discriminate|].
  destruct (find_index p l); [discriminate|].
  intros _ y [<-|Hy]; auto.
Qed.

Lemma date_cols_In (a : DataFrame) (c : Column) :
  In c (date_cols a) <-> In c a /\ is_date_col c = true.
Proof.
  unfold date_cols. rewrite <- filter_In. split; intros H.
  - eapply Permutation_in; [apply sorted_by_perm | exact H].
  - eapply Permutation_in; [symmetry; apply sorted_by_perm | exact H].
Qed.

Lemma month_records_In (E : Env) (d : string) (target : Q) (j : nat)
    (cols : list Column) (r : AchievementRecord) :
  In r (month_records E d target j cols) ->
  dept r = d /\ target_value r = target /\
  achievement_rate r = ((actual_value r / target_value r) * 100)%Q /\
  exists c, In c cols /\ label c = HDate (period r).
Proof.
  unfold month_records. rewrite in_flat_map. intros [c [Hc H]].
  destruct (label c) as [|m] eqn:Hl; [destruct H|].
  assert (Hemit : forall v, r = emit d m v target ->
            dept r = d /\ target_value r = target /\
            achievement_rate r = ((actual_value r / target_value r) * 100)%Q /\
            exists c, In c cols /\ label c = HDate (period r)).
  { intros v ->; simpl. repeat split; auto. exists c; auto. }
  destruct (cell_at c j); [| |destruct H].
  - destruct H as [<-|[]]; eapply Hemit; reflexivity.
  - destruct (py_float E _); [|destruct H].
    destruct H as [<-|[]]; eapply Hemit; reflexivity.
Qed.

Lemma as_dept_In (c : Column) (i : nat) (d : string) :
  nth_error (cells c) i = Some (CStr d) -> In d (target_depts [c]).
Proof.
  intros H. unfold target_depts. apply in_flat_map.
  exists (CStr d). split; [eapply nth_error_In; eauto | now left].
Qed.

Lemma date_labels_In (df : DataFrame) (c : Column) (t : Timestamp) :
  In c df -> label c = HDate t -> In t (date_labels df).
Proof.
  intros Hc Hl. unfold date_labels. apply in_flat_map.
  exists c; split; auto. rewrite Hl; now left.
Qed.

Lemma chart_record_facts (E : Env) (tdf adf : DataFrame) (today : Timestamp)
    (summary : list DepartmentSummary) (chart : list AchievementRecord)
    (r : AchievementRecord) :
  snd (process_data E (Some tdf) (Some adf) today) = Ok (summary, chart) ->
  In r chart ->
  (0 < target_value r)%Q /\
  achievement_rate r = ((actual_value r / target_value r) * 100)%Q /\
  In (period r) (date_labels adf) /\
  In (dept r) (target_depts tdf) /\
  In (dept r) (actual_depts adf).
Proof.
  intros Hrun Hr.
  assert (Hne : chart <> []) by (intros ->; destruct Hr).
  destruct (process_data_chart _ _ _ _ _ _ Hrun Hne)
    as [c0 [tl [a0 [al [k [r0 [rest [[= ->] [[= ->] [_ [Hc _]]]]]]]]]]].
  rewrite Hc in Hr. unfold chart_data in Hr.
  apply in_flat_map in Hr as [i [Hi Hr]]. apply in_seq in Hi.
  unfold row_records in Hr.
  destruct (as_dept (cell_at c0 i)) as [d|] eqn:Hd; [|destruct Hr].
  destruct (first_actual_row a0 d) as [j|] eqn:Hj; [|destruct Hr].
  destruct (cell_num _) as [target|]; [|destruct Hr].
  destruct (Qlt_bool 0 target) eqn:Hpos; [|destruct Hr].
  apply month_records_In in Hr as [Hdept [Ht [Hrate [c [Hcol Hl]]]]].
  apply Qlt_bool_iff in Hpos. rewrite Ht, Hdept.
  split; [exact Hpos|]. split; [rewrite <- Ht; exact Hrate|].
  split.
  { apply date_cols_In in Hcol as [Hcol _]. eapply date_labels_In; eauto. }
  split.
  - unfold cell_at in Hd. apply (as_dept_In c0 i).
    destruct (nth_error (cells c0) i) as [x|] eqn:Hx.
    + rewrite (nth_error_nth _ _ _ Hx) in Hd. destruct x; try discriminate.
      now injection Hd as ->.
    + apply nth_error_None in Hx. lia.
  - unfold first_actual_row in Hj.
    apply find_index_Some in Hj as [x [Hx [Hp _]]].
    apply (as_dept_In a0 j). rewrite Hx. unfold dept_matches in Hp.
    destruct x; try discriminate. apply String.eqb_eq in Hp. now subst.
Qed.

(** X1: every AchievementRecord of a run has a positive target, a rate
    equal to actual / target x 100, the label of a date column of the
    actual table as its period, and a department that is named in the
    first column of both tables. *)
Theorem chart_records_wellformed (E : Env) (tdf adf : DataFrame) (today : Timestamp)
    (summary : list DepartmentSummary) (chart : list AchievementRecord)
    (r : AchievementRecord) :
  snd (process_data E (Some tdf) (Some adf) today) = Ok (summary, chart) ->
  In r chart ->
  (0 < target_value r)%Q /\
  achievement_rate r = ((actual_value r / target_value r) * 100)%Q /\
  In (period r) (date_labels adf) /\
  In (dept r) (target_depts tdf) /\
  In (dept r) (actual_depts adf).
Proof. apply chart_record_facts. Qed.

Lemma chart_records_wellformed_witness :
  Forall (fun r => (0 < target_value r)%Q /\ In (dept r) (target_depts scenario_target))
         (snd scenario_tables).
Proof.
  apply Forall_forall; intros r Hr.
  destruct (chart_records_wellformed std_env scenario_target scenario_actual
              scenario_today (fst scenario_tables) (snd scenario_tables) r
              eq_refl Hr) as [H1 [_ [_ [H4 _]]]].
  split; [exact H1 | exact H4].
Defined.

(** ** The order of a department's series *)

Section InsertionSortOn.
Context {A : Type} (leb : A -> A -> bool) (P : A -> Prop).
Hypothesis Htot : forall x y, P x -> P y -> leb x y = true \/ leb y x = true.
Hypothesis Htrans : forall x y z, P x -> P y -> P z ->
  leb x y = true -> leb y z = true -> leb x z = true.

Lemma insert_by_sorted_on (x : A) (l : list A) :
  P x -> Forall P l ->
  StronglySorted (fun a b => leb a b = true) l ->
  StronglySorted (fun a b => leb a b = true) (insert_by leb x l).
Proof.
  intros Hx Hl Hs; induction Hs as [|y l Hs IH Hf]; simpl; [repeat constructor|].
  inversion Hl as [|? ? Hy Hl']; subst.
  destruct (leb x y) eqn:Hxy.
  - constructor; [now constructor|].
    constructor; auto.
    rewrite Forall_forall in Hf, Hl' |- *. intros z Hz. eauto.
  - constructor; auto.
    eapply Permutation_Forall; [symmetry; apply insert_by_perm|].
    constructor; auto.
    destruct (Htot x y Hx Hy) as [H|H]; [congruence | exact H].
Qed.

Lemma sorted_by_sorted_on (l : list A) :
  Forall P l -> StronglySorted (fun a b => leb a b = true) (sorted_by leb l).
Proof.
  induction 1 as [|x l Hx Hl IH]; simpl; [constructor|].
  apply insert_by_sorted_on; auto.
  eapply Permutation_Forall; [symmetry; apply sorted_by_perm | exact Hl].
Qed.

End InsertionSortOn.

Lemma ym_leb_total (a b : Timestamp) : ym_leb a b = true \/ ym_leb b a = true.
Proof.
  unfold ym_leb.
  destruct (Z.ltb_spec (year a) (year b)), (Z.ltb_spec (year b) (year a)),
    (Z.eqb_spec (year a) (year b)), (Z.eqb_spec (year b) (year a)),
    (Z.leb_spec (month a) (month b)), (Z.leb_spec (month b) (month a));
    simpl; auto; lia.
Qed.

Lemma ym_leb_trans (a b c : Timestamp) :
  ym_leb a b = true -> ym_leb b c = true -> ym_leb a c = true.
Proof.
  unfold ym_leb.
  destruct (Z.ltb_spec (year a) (year b)), (Z.ltb_spec (year b) (year c)),
    (Z.ltb_spec (year a) (year c)),
    (Z.eqb_spec (year a) (year b)), (Z.eqb_spec (year b) (year c)),
    (Z.eqb_spec (year a) (year c)),
    (Z.leb_spec (month a) (month b)), (Z.leb_spec (month b) (month c)),
    (Z.leb_spec (month a) (month c));
    simpl; auto; try discriminate; lia.
Qed.

Lemma date_cols_sorted (a : DataFrame) :
  StronglySorted (fun c1 c2 => col_ym_leb c1 c2 = true) (date_cols a).
Proof.
  unfold date_cols.
  apply (sorted_by_sorted_on col_ym_leb (fun c => is_date_col c = true)).
  - intros x y Hx Hy. unfold col_ym_leb, is_date_col in *.
    destruct (label x), (label y); try discriminate. apply ym_leb_total.
  - intros x y z Hx Hy Hz. unfold col_ym_leb, is_date_col in *.
    destruct (label x), (label y), (label z); try discriminate. apply ym_leb_trans.
  - apply Forall_forall. intros c Hc. now apply filter_In in Hc.
Qed.

Lemma month_records_chronological (E : Env) (d : string) (target : Q) (j : nat)
    (cols : list Column) :
  StronglySorted (fun c1 c2 => col_ym_leb c1 c2 = true) cols ->
  chronological (month_records E d target j cols).
Proof.
  unfold chronological.
  induction 1 as [|c cols Hs IH Hf]; [constructor|].
  assert (Hsplit : month_records E d target j (c :: cols)
                   = month_records E d target j [c] ++ month_records E d target j cols).
  { unfold month_records; simpl. now rewrite app_nil_r. }
  rewrite Hsplit.
  apply StronglySorted_app_intro; auto.
  - unfold month_records; simpl.
    destruct (label c); [constructor|].
    destruct (cell_at c j); simpl; repeat constructor.
    destruct (py_float E _); simpl; repeat constructor.
  - intros x y Hx Hy.
    apply month_records_In in Hx as [_ [_ [_ [c1 [[<-|[]] Hl1]]]]].
    apply month_records_In in Hy as [_ [_ [_ [c2 [Hc2 Hl2]]]]].
    rewrite Forall_forall in Hf. specialize (Hf c2 Hc2).
    unfold col_ym_leb in Hf. now rewrite Hl1, Hl2 in Hf.
Qed.

Lemma row_records_name (E : Env) (c0 vc a0 : Column) (cols : list Column) (i : nat)
    (r : AchievementRecord) :
  In r (row_records E c0 vc a0 cols i) -> as_dept (cell_at c0 i) = Some (dept r).
Proof.
  unfold row_records.
  destruct (as_dept (cell_at c0 i)) as [d|]; [|intros []].
  destruct (first_actual_row a0 d); [|intros []].
  destruct (cell_num _); [|intros []].
  destruct (Qlt_bool 0 q); [|intros []].
  intros H. apply month_records_dept in H. now subst.
Qed.

Lemma row_records_chronological (E : Env) (c0 vc a0 : Column) (cols : list Column)
    (i : nat) :
  StronglySorted (fun c1 c2 => col_ym_leb c1 c2 = true) cols ->
  chronological (row_records E c0 vc a0 cols i).
Proof.
  intros H. unfold row_records.
  destruct (as_dept (cell_at c0 i)) as [d|]; [|constructor].
  destruct (first_actual_row a0 d); [|constructor].
  destruct (cell_num _); [|constructor].
  destruct (Qlt_bool 0 q); [|constructor].
  now apply month_records_chronological.
Qed.

Lemma filter_blocks (B : nat -> list AchievementRecord) (name : nat -> option string)
    (d : string) (idx : list nat) :
  NoDup idx ->
  (forall i j, In i idx -> In j idx -> name i = Some d -> name j = Some d -> i = j) ->
  (forall i r, In r (B i) -> name i = Some (dept r)) ->
  (forall i, chronological (B i)) ->
  chronological (filter (fun r => String.eqb (dept r) d) (flat_map B idx)).
Proof.
  intros Hnd Hone Hname Hsorted.
  induction idx as [|i idx IH]; simpl; [constructor|].
  inversion Hnd as [|? ? Hi Hnd']; subst.
  rewrite filter_app.
  destruct (filter (fun r => String.eqb (dept r) d) (B i)) as [|x l] eqn:Hf.
  - simpl. apply IH; auto. intros; apply Hone; simpl; auto.
  - assert (Hx : In x (filter (fun r => String.eqb (dept r) d) (B i)))
      by (rewrite Hf; now left).
    apply filter_In in Hx as [Hx Hd]. apply String.eqb_eq in Hd.
    assert (Hi' : name i = Some d) by (rewrite <- Hd; now apply Hname).
    replace (filter (fun r => String.eqb (dept r) d) (flat_map B idx))
      with (@nil AchievementRecord).
    + rewrite app_nil_r, <- Hf, filter_all; auto.
      apply Forall_forall; intros r Hr. apply String.eqb_eq.
      apply Hname in Hr. congruence.
    + symmetry.
      destruct (filter _ (flat_map B idx)) as [|y l'] eqn:Hf'; [reflexivity|].
      exfalso.
      assert (Hy : In y (filter (fun r => String.eqb (dept r) d) (flat_map B idx)))
        by (rewrite Hf'; now left).
      apply filter_In in Hy as [Hy Hyd]. apply String.eqb_eq in Hyd.
      apply in_flat_map in Hy as [j [Hj Hy]].
      apply Hname in Hy. rewrite Hyd in Hy.
      apply Hi. rewrite (Hone i j); simpl; auto.
Qed.

Lemma target_depts_index (l : list cell) (d : string) (i j : nat) :
  NoDup (flat_map (fun x => match as_dept x with Some s => [s] | None => [] end) l) ->
  (i < List.length l)%nat -> (j < List.length l)%nat ->
  as_dept (nth i l CNaN) = Some d -> as_dept (nth j l CNaN) = Some d -> i = j.
Proof.
  revert i j; induction l as [|x l IH]; intros i j Hnd Hi Hj Hdi Hdj;
    simpl in Hi; [lia|].
  assert (Hin : forall k, (k < List.length l)%nat -> as_dept (nth k l CNaN) = Some d ->
            In d (flat_map (fun x => match as_dept x with Some s => [s] | None => [] end) l)).
  { intros k Hk Hd. apply in_flat_map. exists (nth k l CNaN).
    split; [now apply nth_In | rewrite Hd; now left]. }
  simpl in Hnd.
  destruct i as [|i], j as [|j]; simpl in *; auto.
  - rewrite Hdi in Hnd. inversion Hnd; subst. exfalso. apply H1, (Hin j); auto; lia.
  - rewrite Hdj in Hnd. inversion Hnd; subst. exfalso. apply H1, (Hin i); auto; lia.
  - f_equal. apply IH; auto; try lia.
    destruct (as_dept x); [now inversion Hnd | exact Hnd].
Qed.

(** X2: when the department names of the target table are distinct, the
    records of each department stand in the chart in the order of their
    (year, month), whatever the order of the date columns in the actual
    table. *)
Theorem chart_series_chronological (E : Env) (tdf : DataFrame) (a : option DataFrame)
    (today : Timestamp) (summary : list DepartmentSummary)
    (chart : list AchievementRecord) (d : string) :
  NoDup (target_depts tdf) ->
  snd (process_data E (Some tdf) a today) = Ok (summary, chart) ->
  chronological (dept_rows chart d).
Proof.
  intros Hnd Hrun.
  destruct chart as [|r0 rest0] eqn:Hch; [constructor|].
  assert (Hne : chart <> []) by (rewrite Hch; discriminate).
  rewrite <- Hch in *. clear Hch.
  destruct (process_data_chart _ _ _ _ _ _ Hrun Hne)
    as [c0 [tl [a0 [al [k [r [rest [[= ->] [_ [_ [Hc _]]]]]]]]]]].
  rewrite Hc. unfold dept_rows, chart_data.
  apply (filter_blocks _ (fun i => as_dept (cell_at c0 i))).
  - apply seq_NoDup.
  - intros i j Hi Hj Hdi Hdj. apply in_seq in Hi, Hj.
    apply (target_depts_index (cells c0) d); auto; lia.
  - intros i x. apply row_records_name.
  - intros i. apply row_records_chronological, date_cols_sorted.
Qed.

Lemma chart_series_chronological_witness :
  chronological (dept_rows (snd scenario_tables) "A").
Proof.
  apply (chart_series_chronological std_env scenario_target (Some scenario_actual)
           scenario_today (fst scenario_tables)).
  - simpl. repeat constructor; simpl; intuition discriminate.
  - reflexivity.
Defined.

(** ** The rows of the summary *)

Lemma summary_data_depts (E : Env) (today latest : Timestamp)
    (chart : list AchievementRecord) :
  map s_dept (summary_data E today latest chart)
  = sorted_by String.leb (nodup string_dec (map dept chart)).
Proof.
  unfold summary_data, groupby. rewrite !map_map. simpl. apply map_id.
Qed.

(** X3: the summary has exactly one row for each department of the chart,
    so it is empty exactly when the chart is: the page's test that both
    tables are non-empty amounts to the chart being non-empty. *)
Theorem summary_one_row_per_department (E : Env) (HE : argsort_ok E)
    (t a : option DataFrame) (today : Timestamp)
    (summary : list DepartmentSummary) (chart : list AchievementRecord) :
  snd (process_data E t a today) = Ok (summary, chart) ->
  Permutation (map s_dept summary) (nodup string_dec (map dept chart)) /\
  NoDup (map s_dept summary) /\
  (summary = [] <-> chart = []).
Proof.
  intros Hrun.
  apply process_data_ok in Hrun
    as [[-> ->]|[r [rest [tdf [adf [vc [dca [_ [_ [Hc [_ ->]]]]]]]]]]].
  { repeat split; auto; constructor. }
  assert (Hp : Permutation
                 (map s_dept (sort_summary E (summary_data E today (max_period r rest) chart)))
                 (nodup string_dec (map dept chart))).
  { rewrite <- (sorted_by_perm String.leb (nodup string_dec (map dept chart))).
    rewrite <- (summary_data_depts E today (max_period r rest) chart).
    apply Permutation_map, sort_values_perm; auto using Qle_bool_total.
    intros x y z; apply Qle_bool_trans. }
  split; [exact Hp|]. split.
  - eapply Permutation_NoDup; [symmetry; exact Hp | apply NoDup_nodup].
  - split; intros H.
    + rewrite H in Hp. simpl in Hp. apply Permutation_nil in Hp.
      assert (Hin : In (dept r) (nodup string_dec (map dept chart))).
      { apply nodup_In, in_map. rewrite Hc. now left. }
      rewrite Hp in Hin. destruct Hin.
    + rewrite Hc in H. discriminate H.
Qed.

Lemma summary_one_row_per_department_witness :
  Permutation (map s_dept (fst scenario_tables))
              (nodup string_dec (map dept (snd scenario_tables))).
Proof.
  apply (summary_one_row_per_department std_env std_env_ok
           (Some scenario_target) (Some scenario_actual) scenario_today
           (fst scenario_tables) (snd scenario_tables) eq_refl).
Defined.

Lemma sort_group_In (E : Env) (g : list AchievementRecord) (r : AchievementRecord) :
  In r (sort_group E g) -> In r g.
Proof. apply sort_values_In. Qed.

Lemma latest_rate_record (E : Env) (t a : option DataFrame)
    (today : Timestamp) (summary : list DepartmentSummary)
    (chart : list AchievementRecord) (s : DepartmentSummary) (v : Q) :
  snd (process_data E t a today) = Ok (summary, chart) ->
  In s summary ->
  latest_rate s = Some v ->
  exists r, In r chart /\ dept r = s_dept s /\ is_latest chart (period r) /\
            v = achievement_rate r.
Proof.
  intros Hrun Hs Hv.
  apply process_data_ok in Hrun
    as [[-> _]|[r [rest [tdf [adf [vc [dca [_ [_ [Hc [_ ->]]]]]]]]]]]; [destruct Hs|].
  apply summary_In in Hs as [k [_ ->]]. simpl in *.
  unfold recent_rate in Hv.
  destruct (recent_rate_row _ _) as [|x l] eqn:Hrow; [discriminate|].
  injection Hv as <-.
  assert (Hx : In x (recent_rate_row (max_period r rest) (sort_group E (dept_rows chart k))))
    by (rewrite Hrow; now left).
  apply recent_rate_row_In in Hx as [Hx Hp].
  apply sort_group_In, dept_rows_In in Hx as [Hx Hd].
  exists x. repeat split; auto.
  - rewrite Hp, Hc. destruct (max_period_latest r rest) as [H _]. exact H.
  - intros y Hy. rewrite Hp. rewrite Hc in Hy. now apply max_period_latest.
Qed.

(** X4: a latest rate in the summary is the achievement rate of one of
    that department's records at the latest period of the chart. *)
Theorem latest_rate_is_a_record_rate (E : Env) (t a : option DataFrame)
    (today : Timestamp) (summary : list DepartmentSummary)
    (chart : list AchievementRecord) (s : DepartmentSummary) (v : Q) :
  snd (process_data E t a today) = Ok (summary, chart) ->
  In s summary ->
  latest_rate s = Some v ->
  exists r, In r chart /\ dept r = s_dept s /\ is_latest chart (period r) /\
            v = achievement_rate r.
Proof. apply latest_rate_record. Qed.

Lemma latest_rate_is_a_record_rate_witness :
  exists r, In r (snd scenario_tables) /\ dept r = "A"%string /\
            is_latest (snd scenario_tables) (period r) /\
            ((120 / 100) * 100)%Q = achievement_rate r.
Proof.
  apply (latest_rate_is_a_record_rate std_env
           (Some scenario_target) (Some scenario_actual) scenario_today
           (fst scenario_tables) (snd scenario_tables)
           (hd (mkSum EmptyString None None None EmptyString 0 None)
               (fst scenario_tables)) ((120 / 100) * 100)%Q eq_refl).
  - left; reflexivity.
  - reflexivity.
Defined.

Lemma six_months_ago_le (p : Timestamp) :
  calendar_month p -> ts_leb (six_months_ago p) p = true.
Proof.
  unfold calendar_month, six_months_ago, ts_sub_rd, ts_add_rd; simpl.
  intros H. rewrite ts_leb_lex. unfold ts_lex.
  destruct (Z.ltb_spec 12 (month p + -5)); [lia|].
  destruct (Z.ltb_spec (month p + -5) 1); simpl; lia.
Qed.

Lemma comment_values (r a : option Q) : In (comment r a) trend_labels.
Proof.
  unfold comment, trend_labels. destruct r as [r|], a as [a|]; simpl; auto.
  destruct (Qlt_bool 5 (r - a)); simpl; auto.
  destruct (Qlt_bool (r - a) (-5)); simpl; auto.
Qed.

Lemma comment_empty (r a : option Q) :
  comment r a = EmptyString <-> r = None \/ a = None.
Proof.
  unfold comment. destruct r as [r|], a as [a|]; split; auto; try (intros [H|H]; discriminate H).
  destruct (Qlt_bool 5 (r - a)); [discriminate|].
  destruct (Qlt_bool (r - a) (-5)); discriminate.
Qed.

(** X5: in a chart whose periods have calendar months, a department with
    a latest rate always has a trailing six-month average (its latest
    record lies in that window), so the trend label is empty exactly when
    the latest rate is missing; otherwise it is one of the three trend
    texts. *)
Theorem trend_label_follows_latest_rate (E : Env) (t a : option DataFrame)
    (today : Timestamp) (summary : list DepartmentSummary)
    (chart : list AchievementRecord) (s : DepartmentSummary) :
  snd (process_data E t a today) = Ok (summary, chart) ->
  (forall r, In r chart -> calendar_month (period r)) ->
  In s summary ->
  (latest_rate s <> None -> trailing_6mo_avg_rate s <> None) /\
  (trend_label s = EmptyString <-> latest_rate s = None) /\
  In (trend_label s) trend_labels.
Proof.
  intros Hrun Hcal Hs.
  apply process_data_ok in Hrun
    as [[-> _]|[r [rest [tdf [adf [vc [dca [_ [_ [Hc [_ ->]]]]]]]]]]]; [destruct Hs|].
  apply summary_In in Hs as [k [_ ->]]. simpl.
  set (p := max_period r rest). set (g := sort_group E (dept_rows chart k)).
  assert (Hp : calendar_month p).
  { destruct (max_period_latest r rest) as [[x [Hx Hxp]] _]. fold p in Hxp.
    rewrite <- Hxp. apply Hcal. now rewrite Hc. }
  assert (H6 : recent_rate p g <> None -> mean_rate (six_month_df p g) <> None).
  { intros H. apply recent_rate_present in H as [x [Hx Hxp]].
    assert (Hin : In x (six_month_df p g)).
    { unfold six_month_df. apply filter_In. split; auto.
      rewrite Hxp, six_months_ago_le, ts_leb_refl; auto. }
    unfold mean_rate. destruct (six_month_df p g); [destruct Hin | discriminate]. }
  split; [exact H6|]. split; [|apply comment_values].
  rewrite comment_empty. split; [|now left].
  intros [H|H]; auto.
  destruct (recent_rate p g) eqn:Hr; auto.
  exfalso. apply H6; [discriminate | exact H].
Qed.

Lemma trend_label_follows_latest_rate_witness :
  Forall (fun s => trend_label s = EmptyString <-> latest_rate s = None)
         (fst scenario_tables).
Proof.
  apply Forall_forall; intros s Hs.
  apply (trend_label_follows_latest_rate std_env
           (Some scenario_target) (Some scenario_actual) scenario_today
           (fst scenario_tables) (snd scenario_tables) s eq_refl).
  - intros r Hr. simpl in Hr.
    destruct Hr as [<-|[<-|[<-|[<-|[]]]]]; unfold calendar_month; simpl; lia.
  - exact Hs.
Defined.

(** ** Window averages *)




(** ** Bounds of the profit share *)

Lemma sumQ_nonneg (l : list Q) :
  Forall (fun x => (0 <= x)%Q) l -> (0 <= sumQ l)%Q.
Proof.
  induction 1 as [|x l Hx _ IH]; simpl; [apply Qle_refl|].
  rewrite <- (Qplus_0_l 0). now apply Qplus_le_compat.
Qed.

Lemma sumQ_member_le (l : list Q) (x : Q) :
  Forall (fun y => (0 <= y)%Q) l -> In x l -> (x <= sumQ l)%Q.
Proof.
  induction 1 as [|y l Hy Hl IH]; intros Hin; [destruct Hin|].
  simpl. destruct Hin as [->|Hin].
  - rewrite <- (Qplus_0_r x) at 1. apply Qplus_le_compat; [apply Qle_refl|].
    now apply sumQ_nonneg.
  - rewrite <- (Qplus_0_l x). apply Qplus_le_compat; auto.
Qed.

(** X7: when the actual values are finite numbers, none of the chart is
    negative and the sum of the actuals at the latest period lies in the
    signed 64-bit range, every
    profit share of the summary lies between 0 and 100, also for a
    department listed more than once in the target table. *)
Theorem profit_share_bounded (E : Env) (t a : option DataFrame) (today : Timestamp)
    (summary : list DepartmentSummary) (chart : list AchievementRecord)
    (p : Timestamp) (s : DepartmentSummary) :
  finite_actuals E a ->
  snd (process_data E t a today) = Ok (summary, chart) ->
  (forall r, In r chart -> (0 <= actual_value r)%Q) ->
  is_latest chart p ->
  int64_range (sumQ (map actual_value (at_period p chart))) ->
  In s summary ->
  (0 <= profit_share_pct s)%Q /\ (profit_share_pct s <= 100)%Q.
Proof.
  intros _ Hrun Hpos Hp Hrange Hs.
  apply process_data_ok in Hrun
    as [[-> _]|[r [rest [tdf [adf [vc [dca [_ [_ [Hc [_ ->]]]]]]]]]]]; [destruct Hs|].
  assert (Hlatest : max_period r rest = p).
  { eapply is_latest_unique; [|exact Hp]. rewrite Hc. apply max_period_latest. }
  rewrite Hlatest in Hs. clear Hlatest Hc r rest.
  apply summary_In in Hs as [k [_ ->]]. simpl.
  set (g := sort_group E (dept_rows chart k)).
  set (T := total_recent chart p).
  assert (Htot : (T == sumQ (map actual_value (at_period p chart)))%Q).
  { unfold T, total_recent. apply series_sum_exact; [|exact Hrange].
    apply int64_actuals_part. intros x Hx. now apply filter_In in Hx. }
  assert (Hra : (0 <= recent_actual p g)%Q /\ (recent_actual p g <= T)%Q \/
                ~ (0 < T)%Q).
  { unfold recent_actual.
    destruct (recent_rate_row p g) as [|x l] eqn:Hrow.
    - destruct (Qlt_le_dec 0 T) as [H|H].
      + left. split; [apply Qle_refl | now apply Qlt_le_weak].
      + right. now apply Qle_not_lt.
    - left.
      assert (Hx : In x (recent_rate_row p g)) by (rewrite Hrow; now left).
      apply recent_rate_row_In in Hx as [Hx Hxp].
      apply sort_group_In, dept_rows_In in Hx as [Hx _].
      split; [now apply Hpos|].
      rewrite Htot. apply sumQ_member_le.
      + apply Forall_forall. intros y Hy. apply in_map_iff in Hy as [z [<- Hz]].
        apply filter_In in Hz as [Hz _]. now apply Hpos.
      + apply in_map, filter_In. split; auto. now apply ts_eqb_eq. }
  unfold profit_share. fold T.
  destruct (Qlt_bool 0 T) eqn:HT; [|split; [apply Qle_refl | discriminate]].
  apply Qlt_bool_iff in HT.
  destruct Hra as [[H0 H1]|H]; [|contradiction].
  assert (Hd0 : (0 <= recent_actual p g / T)%Q).
  { apply Qle_shift_div_l; auto. now rewrite Qmult_0_l. }
  assert (Hd1 : (recent_actual p g / T <= 1)%Q).
  { apply Qle_shift_div_r; auto. now rewrite Qmult_1_l. }
  split; lra.
Qed.

Lemma profit_share_bounded_witness :
  Forall (fun s => (0 <= profit_share_pct s)%Q /\ (profit_share_pct s <= 100)%Q)
         (fst dup_tables).
Proof.
  apply Forall_forall; intros s Hs.
  apply (profit_share_bounded std_env (Some dup_target) (Some dup_actual)
           scenario_today (fst dup_tables) (snd dup_tables) (first_of 2024 1) s
           ltac:(no_text_actuals) eq_refl).
  - intros r Hr. simpl in Hr. destruct Hr as [<-|[<-|[]]]; discriminate.
  - split.
    + exists (mkAch "A" (first_of 2024 1) 50 100 ((50 / 100) * 100)%Q).
      split; [left; reflexivity | reflexivity].
    + intros r Hr. simpl in Hr. destruct Hr as [<-|[<-|[]]]; reflexivity.
  - split; vm_compute; [discriminate | reflexivity].
  - exact Hs.
Defined.

(** ** The target-value column *)

(** X8: the target-value column exists exactly when the target table has
    at least two columns; it is never the department column and lies
    inside the table; it is the first column after the department column
    whose header holds a target keyword, and the second column when no
    header does. *)
Theorem target_value_col_choice (t : DataFrame) :
  match target_value_col t with
  | None => (List.length t < 2)%nat
  | Some k =>
      (2 <= List.length t)%nat /\ (1 <= k < List.length t)%nat /\
      (forall j c, (1 <= j < k)%nat -> nth_error t j = Some c ->
                   is_target_header (label c) = false) /\
      ((exists c, nth_error t k = Some c /\ is_target_header (label c) = true) \/
       (k = 1%nat /\ forall c, In c (tl t) -> is_target_header (label c) = false))
  end.
Proof.
  unfold target_value_col.
  destruct t as [|c0 [|c1 t]]; simpl; try lia.
  change (if is_target_header (label c1) then Some 0%nat
          else option_map S (find_index (fun c => is_target_header (label c)) t))
    with (find_index (fun c => is_target_header (label c)) (c1 :: t)).
  destruct (find_index _ (c1 :: t)) as [k|] eqn:Hk.
  - apply find_index_Some in Hk as [c [Hc [Hp Hlt]]].
    split; [lia|]. split.
    + assert (k < List.length (c1 :: t))%nat by (apply nth_error_Some; congruence).
      simpl in *; lia.
    + split.
      * intros [|j] c' Hj Hc'; [lia|]. simpl in Hc'. apply (Hlt j); auto; lia.
      * left. exists c. auto.
  - split; [lia|]. split; [lia|]. split.
    + intros j c Hj; lia.
    + right. split; auto. intros c Hc. eapply find_index_None in Hk; eauto.
Qed.

(** * Further properties of the export adapter and the report *)

(** ** Trend texts, scores and arrows *)

(** X9: for a trend text written by [process_data] from a latest rate and
    a six-month average, the exporter's score and the report's arrow
    agree with the difference of the two: 3 and "up" above +5, 1 and
    "down" below -5, 2 and "neutral" in between and when either input is
    missing. *)
Theorem trend_score_and_arrow (r a : option Q) (i : nat) (row : DepartmentSummary) :
  trend_label row = comment r a ->
  let score := _convert_evaluation_to_score (trend_label row) in
  let arrow := c_trend_class (card i row) in
  match r, a with
  | Some x, Some y =>
      ((5 < x - y)%Q -> score = 3%Q /\ arrow = "up"%string) /\
      ((x - y < -5)%Q -> score = 1%Q /\ arrow = "down"%string) /\
      ((-5 <= x - y)%Q /\ (x - y <= 5)%Q -> score = 2%Q /\ arrow = "neutral"%string)
  | _, _ => score = 2%Q /\ arrow = "neutral"%string
  end.
Proof.
  intros H. unfold card; cbn [c_trend_class]. rewrite H. clear H.
  unfold comment.
  destruct r as [x|], a as [y|]; try (split; reflexivity).
  destruct (Qlt_bool 5 (x - y)) eqn:H5.
  - apply Qlt_bool_iff in H5.
    split; [intros _; split; reflexivity|].
    split; [intros H | intros [_ H]]; exfalso; lra.
  - destruct (Qlt_bool (x - y) (-5)) eqn:Hm5.
    + apply Qlt_bool_iff in Hm5.
      split; [intros H; exfalso; lra|].
      split; [intros _; split; reflexivity|].
      intros [H _]; exfalso; lra.
    + assert (H5' : ~ (5 < x - y)%Q)
        by (intros H; apply Qlt_bool_iff in H; congruence).
      assert (Hm5' : ~ (x - y < -5)%Q)
        by (intros H; apply Qlt_bool_iff in H; congruence).
      split; [intros H; contradiction|].
      split; [intros H; contradiction|].
      intros _; split; reflexivity.
Qed.

Lemma trend_score_and_arrow_witness :
  _convert_evaluation_to_score
    (trend_label (hd (mkSum EmptyString None None None EmptyString 0 None)
                     (fst scenario_tables))) = 3%Q.
Proof.
  pose proof (trend_score_and_arrow
                (Some ((120 / 100) * 100)%Q) (Some (meanQ [(50 / 100) * 100; (120 / 100) * 100])%Q)
                0
                (hd (mkSum EmptyString None None None EmptyString 0 None)
                    (fst scenario_tables)) eq_refl) as [H _].
  apply H. reflexivity.
Defined.

(** ** The achievement bands *)

Lemma band_of_rate (s : DepartmentSummary) :
  (Nat.b2n (rate_ge 110 s) + Nat.b2n (rate_ge 100 s && rate_lt 110 s)
   + Nat.b2n (rate_lt 100 s) = Nat.b2n (has_key latest_rate s))%nat /\
  (Nat.b2n (rate_ge 100 s)
   = Nat.b2n (rate_ge 110 s) + Nat.b2n (rate_ge 100 s && rate_lt 110 s))%nat.
Proof.
  unfold rate_ge, rate_lt, has_key. destruct (latest_rate s) as [r|]; [|split; reflexivity].
  destruct (Qle_bool 110 r) eqn:H110, (Qle_bool 100 r) eqn:H100,
    (Qlt_bool r 110) eqn:L110, (Qlt_bool r 100) eqn:L100; simpl; auto;
    repeat match goal with
    | H : Qle_bool _ _ = true |- _ => apply Qle_bool_iff in H
    | H : Qlt_bool _ _ = true |- _ => apply Qlt_bool_iff in H
    | H : Qle_bool ?x ?y = false |- _ =>
        assert (~ (x <= y)%Q) by (intros H'; apply Qle_bool_iff in H'; congruence); clear H
    | H : Qlt_bool ?x ?y = false |- _ =>
        assert (~ (x < y)%Q) by (intros H'; apply Qlt_bool_iff in H'; congruence); clear H
    end; exfalso; lra.
Qed.

Lemma filter_length_sum {A : Type} (p : A -> bool) (l : list A) :
  List.length (filter p l) = list_sum (map (fun x => Nat.b2n (p x)) l).
Proof.
  induction l as [|x l IH]; simpl; auto. destruct (p x); simpl; now rewrite IH.
Qed.

Lemma present_length {A B : Type} (f : A -> option B) (l : list A) :
  List.length (present (map f l)) = List.length (filter (has_key f) l).
Proof.
  unfold present, has_key. induction l as [|x l IH]; simpl; auto.
  destruct (f x); simpl; now rewrite IH.
Qed.

Lemma bands_count (summary : list DepartmentSummary) :
  (List.length (filter (rate_ge 110) summary)
   + List.length (filter (fun s => rate_ge 100 s && rate_lt 110 s) summary)
   + List.length (filter (rate_lt 100) summary)
   = List.length (present (map latest_rate summary)) /\
   List.length (filter (rate_ge 100) summary)
   = List.length (filter (rate_ge 110) summary)
     + List.length (filter (fun s => rate_ge 100 s && rate_lt 110 s) summary))%nat.
Proof.
  rewrite present_length, !filter_length_sum.
  induction summary as [|s l [IH1 IH2]]; simpl; [split; reflexivity|].
  destruct (band_of_rate s) as [H1 H2]. split; lia.
Qed.

(** X10: for a non-empty summary, the three achievement bands of the
    export (110 and above, 100 to below 110, below 100) count every
    department with a latest rate exactly once, the departments without
    one in none, and the count of departments that reached their target
    is the sum of the first two bands. *)
Theorem achievement_bands_partition (summary : list DepartmentSummary) :
  summary <> [] ->
  let m := _calculate_overall_metrics summary in
  exists total achieved high good under,
    metric_value "全体" "総診療科数" m = Some total /\
    metric_value "全体" "目標達成診療科数" m = Some achieved /\
    metric_value "全体" "高達成診療科数_110%以上" m = Some high /\
    metric_value "全体" "標準達成診療科数_100-110%" m = Some good /\
    metric_value "全体" "未達成診療科数_100%未満" m = Some under /\
    total = inject_Z (Z.of_nat (List.length summary)) /\
    (high + good + under
     == inject_Z (Z.of_nat (List.length (present (map latest_rate summary)))))%Q /\
    (achieved == high + good)%Q.
Proof.
  intros Hne m. destruct summary as [|s0 l]; [now destruct Hne|].
  set (summary := s0 :: l) in *.
  exists (inject_Z (Z.of_nat (List.length summary))),
         (count_if (rate_ge 100) summary), (count_if (rate_ge 110) summary),
         (count_if (fun s => rate_ge 100 s && rate_lt 110 s) summary),
         (count_if (rate_lt 100) summary).
  assert (Hm : m = [overall "総診療科数" (inject_Z (Z.of_nat (List.length summary)));
                    overall "目標達成診療科数" (count_if (rate_ge 100) summary)]
                   ++ match present (map latest_rate summary) with
                      | [] => []
                      | _ => [overall "平均達成率"
                                (round_to (meanQ (present (map latest_rate summary))) 1)]
                      end
                   ++ [overall "高達成診療科数_110%以上" (count_if (rate_ge 110) summary);
                       overall "標準達成診療科数_100-110%"
                         (count_if (fun s => rate_ge 100 s && rate_lt 110 s) summary);
                       overall "未達成診療科数_100%未満" (count_if (rate_lt 100) summary)])
    by reflexivity.
  rewrite Hm. clear Hm m.
  destruct (bands_count summary) as [H1 H2].
  repeat split; try (destruct (present (map latest_rate summary)); reflexivity).
  - unfold count_if. rewrite <- !inject_Z_plus, <- !Nat2Z.inj_add, H1. reflexivity.
  - unfold count_if. rewrite <- !inject_Z_plus, <- !Nat2Z.inj_add, H2. reflexivity.
Qed.

Lemma achievement_bands_partition_witness :
  exists achieved high good,
    metric_value "全体" "目標達成診療科数"
                 (_calculate_overall_metrics (fst scenario_tables)) = Some achieved /\
    metric_value "全体" "高達成診療科数_110%以上"
                 (_calculate_overall_metrics (fst scenario_tables)) = Some high /\
    metric_value "全体" "標準達成診療科数_100-110%"
                 (_calculate_overall_metrics (fst scenario_tables)) = Some good /\
    (achieved == high + good)%Q.
Proof.
  destruct (achievement_bands_partition (fst scenario_tables))
    as [total [achieved [high [good [under [_ [H2 [H3 [H4 [_ [_ [_ H8]]]]]]]]]]]].
  - discriminate.
  - exists achieved, high, good. auto.
Defined.

(** ** The stability window in general *)

Lemma firstn_sorted_max (p : Timestamp) (n : nat) (l : list Timestamp) :
  StronglySorted (fun x y => ts_leb y x = true) l ->
  (forall x, In x l -> ts_leb x p = true) ->
  (n <= List.length (filter (fun x => ts_eqb x p) l))%nat ->
  firstn n l = repeat p n.
Proof.
  revert l; induction n as [|n IH]; intros l Hs Hmax Hn; [reflexivity|].
  destruct l as [|x l]; [simpl in Hn; lia|].
  inversion Hs as [|? ? Hs' Hf]; subst.
  assert (Hx : x = p).
  { destruct (filter (fun y => ts_eqb y p) (x :: l)) as [|y l'] eqn:Hflt;
      [simpl in Hn; lia|].
    assert (Hy : In y (filter (fun y => ts_eqb y p) (x :: l))) by (rewrite Hflt; now left).
    apply filter_In in Hy as [[->|Hy] He]; apply ts_eqb_eq in He; subst y; auto.
    apply ts_leb_antisym; [apply Hmax; now left|].
    rewrite Forall_forall in Hf. now apply Hf. }
  subst x. simpl. f_equal. apply IH; auto.
  - intros y Hy. apply Hmax. now right.
  - simpl in Hn. rewrite (proj2 (ts_eqb_eq p p) eq_refl) in Hn. simpl in Hn. lia.
Qed.

(** X11: whenever the chart has at least three records at its latest
    period, the window the stability metric is computed over is exactly
    the records of that latest period, whatever the earlier periods
    hold. *)
Theorem stability_window_with_three_latest (chart : list AchievementRecord)
    (p : Timestamp) :
  is_latest chart p ->
  (3 <= List.length (at_period p chart))%nat ->
  latest_3_months chart = Some p /\ recent_data chart = at_period p chart.
Proof.
  intros [_ Hmax] Hlen.
  assert (H3 : nlargest 3 (map period chart) = [p; p; p]).
  { unfold nlargest. apply (firstn_sorted_max p 3).
    - apply (sorted_by_sorted (fun a b => ts_leb b a)).
      + intros x y. destruct (ts_leb_total x y); auto.
      + intros x y z H1 H2. eapply ts_leb_trans; eauto.
    - intros x Hx.
      apply (Permutation_in _ (sorted_by_perm _ _)) in Hx.
      apply in_map_iff in Hx as [r [<- Hr]]. now apply Hmax.
    - rewrite (Permutation_length
                 (filter_perm (fun x => ts_eqb x p) _ _ (sorted_by_perm _ (map period chart)))).
      rewrite filter_map_swap, length_map. exact Hlen. }
  assert (Hl : latest_3_months chart = Some p).
  { unfold latest_3_months. rewrite H3. simpl.
    unfold ts_min. now rewrite !ts_leb_refl. }
  split; [exact Hl|].
  unfold recent_data. rewrite Hl. unfold at_period.
  apply filter_ext_in. intros r Hr.
  destruct (ts_eqb (period r) p) eqn:He.
  - apply ts_eqb_eq in He. rewrite He. apply ts_leb_refl.
  - destruct (ts_leb p (period r)) eqn:Hle; auto.
    assert (period r = p) by (apply ts_leb_antisym; auto).
    apply ts_eqb_eq in H. congruence.
Qed.

Lemma stability_window_with_three_latest_witness :
  recent_data quarter_chart = at_period (first_of 2024 3) quarter_chart.
Proof.
  apply (stability_window_with_three_latest quarter_chart (first_of 2024 3)).
  - split.
    + exists (mkAch "A" (first_of 2024 3) 110 100 ((110 / 100) * 100)%Q).
      split; [right; right; left; reflexivity | reflexivity].
    + intros r Hr. simpl in Hr.
      repeat (destruct Hr as [<-|Hr]; [reflexivity|]). destruct Hr.
  - simpl. lia.
Defined.

(** ** The period of the export *)

Lemma fold_ts_min_spec (l : list Timestamp) (acc : Timestamp) :
  let m := fold_left ts_min l acc in
  (m = acc \/ In m l) /\ ts_leb m acc = true /\
  forall x, In x l -> ts_leb m x = true.
Proof.
  revert acc; induction l as [|y l IH]; intros acc; simpl.
  - split; [now left|]. split; [apply ts_leb_refl | intros x []].
  - destruct (IH (ts_min acc y)) as [H1 [H2 H3]].
    assert (Ha : ts_leb (ts_min acc y) acc = true).
    { unfold ts_min; destruct (ts_leb acc y) eqn:H; [apply ts_leb_refl|].
      destruct (ts_leb_total acc y); congruence. }
    assert (Hy : ts_leb (ts_min acc y) y = true).
    { unfold ts_min; destruct (ts_leb acc y) eqn:H; [exact H | apply ts_leb_refl]. }
    split; [|split].
    + destruct H1 as [H1|H1]; [|now right; right].
      rewrite H1. unfold ts_min; destruct (ts_leb acc y); [now left | right; now left].
    + eapply ts_leb_trans; eauto.
    + intros x [<-|Hx]; [eapply ts_leb_trans; eauto | auto].
Qed.

(** X12: [_calculate_period] reports, for a non-empty chart, the earliest
    and the latest period that occur in it, so every record lies between
    its start and end dates, and the latest month is the end date; for an
    empty chart all three dates are the analysis date.  The chart keeps
    its values. *)
Theorem period_info_covers_chart (analysis_date : Timestamp) (period_type : string)
    (chart : list AchievementRecord) :
  let info := snd (_calculate_period analysis_date period_type chart) in
  fst (_calculate_period analysis_date period_type chart) = chart /\
  p_type info = period_type /\
  latest_month info = end_date info /\
  match chart with
  | [] => start_date info = analysis_date /\ end_date info = analysis_date
  | _ :: _ =>
      is_latest chart (end_date info) /\
      (exists r, In r chart /\ period r = start_date info) /\
      forall r, In r chart -> ts_leb (start_date info) (period r) = true
  end.
Proof.
  unfold _calculate_period. rewrite assign_month_id.
  destruct chart as [|r rest]; simpl; [repeat split; reflexivity|].
  repeat split; auto.
  - apply (max_period_latest r rest).
  - apply (max_period_latest r rest).
  - unfold min_period.
    destruct (fold_ts_min_spec (map period rest) (period r)) as [[H|H] _].
    + exists r. split; [now left | now symmetry].
    + apply in_map_iff in H as [x [Hx Hin]]. exists x. split; [now right | exact Hx].
  - unfold min_period.
    destruct (fold_ts_min_spec (map period rest) (period r)) as [_ [H2 H3]].
    intros x [<-|Hx]; auto. apply H3. now apply in_map.
Qed.

(** ** Per-department metrics of the export *)

Lemma groupby_has (chart : list AchievementRecord) (d : string) :
  In d (map dept chart) -> In (d, dept_rows chart d) (groupby chart).
Proof.
  intros H. unfold groupby. apply in_map_iff. exists d. split; [reflexivity|].
  eapply Permutation_in; [symmetry; apply sorted_by_perm|]. now apply nodup_In.
Qed.

Lemma dept_trend_cases (E : Env) (HE : argsort_ok E) (k : string)
    (g : list AchievementRecord) :
  ((List.length g < 3)%nat /\ dept_trend E k g = []) \/
  ((3 <= List.length g)%nat /\
   exists v1 v2, dept_trend E k g
                 = [mkMetric k "月次トレンド係数" v1 EmptyString;
                    mkMetric k "最新月平均乖離" v2 EmptyString]).
Proof.
  unfold dept_trend.
  rewrite (Permutation_length (sort_group_perm E HE g)).
  destruct (Nat.leb_spec 3 (List.length g)); [right | left]; split; auto.
  eexists _, _; reflexivity.
Qed.

(** X13: the export carries a monthly trend coefficient and a deviation
    from the mean for exactly the departments with at least three records
    in the chart; its only other trend metric is the overall stability
    metric. *)
Theorem trend_metrics_need_three_records (E : Env) (HE : argsort_ok E)
    (chart : list AchievementRecord) :
  let metrics := snd (_calculate_trend_metrics E chart) in
  (forall m, In m metrics ->
     (entity_name m = "全体"%string /\ metric_name m = "直近3ヶ月変動係数"%string) \/
     ((3 <= List.length (dept_rows chart (entity_name m)))%nat /\
      (metric_name m = "月次トレンド係数"%string \/
       metric_name m = "最新月平均乖離"%string))) /\
  (forall d, In d (map dept chart) ->
     (3 <= List.length (dept_rows chart d))%nat ->
     exists m1 m2, In m1 metrics /\ In m2 metrics /\
       entity_name m1 = d /\ metric_name m1 = "月次トレンド係数"%string /\
       entity_name m2 = d /\ metric_name m2 = "最新月平均乖離"%string).
Proof.
  unfold _calculate_trend_metrics.
  destruct chart as [|r0 rest0] eqn:Hch; [split; [intros m [] | intros d []]|].
  rewrite <- Hch. rewrite assign_month_id. cbn [snd]. clear Hch r0 rest0.
  split.
  - intros m Hm. apply in_app_or in Hm as [Hm|Hm].
    + left. unfold stability_metric in Hm.
      destruct (Nat.ltb 1 _); [|destruct Hm].
      destruct Hm as [<-|[]]. split; reflexivity.
    + right. apply in_flat_map in Hm as [[k g] [Hkg Hm]].
      apply groupby_In in Hkg as [-> _]. cbn [fst snd] in Hm.
      destruct (dept_trend_cases E HE k (dept_rows chart k))
        as [[_ H]|[Hlen [v1 [v2 H]]]]; rewrite H in Hm; [destruct Hm|].
      destruct Hm as [<-|[<-|[]]]; simpl; auto.
  - intros d Hd Hlen.
    destruct (dept_trend_cases E HE d (dept_rows chart d))
      as [[H _]|[_ [v1 [v2 H]]]]; [lia|].
    exists (mkMetric d "月次トレンド係数" v1 EmptyString),
           (mkMetric d "最新月平均乖離" v2 EmptyString).
    assert (Hin : forall m, In m (dept_trend E d (dept_rows chart d)) ->
              In m (stability_metric E chart
                    ++ flat_map (fun kg => dept_trend E (fst kg) (snd kg)) (groupby chart))).
    { intros m Hm. apply in_or_app. right. apply in_flat_map.
      exists (d, dept_rows chart d). split; [now apply groupby_has | exact Hm]. }
    repeat split; auto; apply Hin; rewrite H; simpl; auto.
Qed.

Lemma trend_metrics_need_three_records_witness :
  exists m1, In m1 (snd (_calculate_trend_metrics std_env quarter_chart)) /\
             entity_name m1 = "A"%string /\ metric_name m1 = "月次トレンド係数"%string.
Proof.
  destruct (trend_metrics_need_three_records std_env std_env_ok quarter_chart)
    as [_ H].
  destruct (H "A"%string) as [m1 [m2 [H1 [_ [H3 [H4 _]]]]]].
  - simpl. auto.
  - simpl. lia.
  - exists m1. auto.
Defined.




(** ** The cards of the report *)

Lemma indexed_map_snd {A B : Type} (g : A -> B) (s : nat) (l : list A) :
  map (fun ir => g (snd ir)) (combine (seq s (List.length l)) l) = map g l.
Proof.
  revert s; induction l as [|x l IH]; intros s; simpl; auto. now rewrite IH.
Qed.

Lemma indexed_map_fst {A : Type} (g : nat -> nat) (s : nat) (l : list A) :
  map (fun ir => g (fst ir)) (combine (seq s (List.length l)) l)
  = map g (seq s (List.length l)).
Proof.
  revert s; induction l as [|x l IH]; intros s; simpl; auto. now rewrite IH.
Qed.

Lemma StronglySorted_unmap {A B : Type} (R : B -> B -> Prop) (f : A -> B) (l : list A) :
  StronglySorted R (map f l) -> StronglySorted (fun a b => R (f a) (f b)) l.
Proof.
  induction l as [|a l IH]; simpl; intros H; [constructor|].
  inversion H as [|? ? Hs Hf]; subst. constructor; auto.
  rewrite Forall_map in Hf. exact Hf.
Qed.

Lemma class_rank_le_3 (c : string) : (class_rank c <= 3)%nat.
Proof.
  unfold class_rank.
  destruct (String.eqb c "success"); [lia|].
  destruct (String.eqb c "warning"); [lia|].
  destruct (String.eqb c "danger"); lia.
Qed.

Lemma class_rank_monotone (x y : DepartmentSummary) :
  rate_desc x y ->
  (class_rank (get_performance_class (latest_rate x))
   <= class_rank (get_performance_class (latest_rate y)))%nat.
Proof.
  unfold rate_desc, get_performance_class.
  destruct (latest_rate x) as [rx|], (latest_rate y) as [ry|]; try contradiction.
  intros H.
  destruct (Qle_bool 100 rx) eqn:Hx1, (Qle_bool 90 rx) eqn:Hx2,
    (Qle_bool 100 ry) eqn:Hy1, (Qle_bool 90 ry) eqn:Hy2;
    try (vm_compute; lia);
    repeat match goal with
    | H : Qle_bool _ _ = true |- _ => apply Qle_bool_iff in H
    | H : Qle_bool ?x ?y = false |- _ =>
        assert (~ (x <= y)%Q) by (intros H'; apply Qle_bool_iff in H'; congruence); clear H
    end; exfalso; lra.
Qed.

(** X15: on the report, the cards follow the summary row by row, ranked
    1, 2, 3, ... and their performance classes never improve down the
    list: first the "success" cards, then "warning", then "danger", and
    the "info" cards of the departments without a latest rate last. *)
Theorem cards_in_rank_order (E : Env) (HE : argsort_ok E)
    (t a : option DataFrame) (today : Timestamp)
    (summary : list DepartmentSummary) (chart : list AchievementRecord)
    (google_analytics_id : option string) :
  snd (process_data E t a today) = Ok (summary, chart) ->
  let cards := r_cards (generate_html summary chart google_analytics_id) in
  map c_dept cards = map s_dept summary /\
  map c_rank cards = seq 1 (List.length summary) /\
  StronglySorted (fun c1 c2 => (class_rank (c_perf_class c1)
                                <= class_rank (c_perf_class c2))%nat) cards.
Proof.
  intros Hrun cards. unfold cards, generate_html, cards_html, indexed; cbn [r_cards].
  split; [|split].
  - rewrite map_map. cbn [c_dept card]. apply (indexed_map_snd s_dept).
  - rewrite map_map. cbn [c_rank card].
    rewrite (indexed_map_fst (fun i => (i + 1)%nat)).
    rewrite <- seq_shift. apply map_ext. intros; lia.
  - apply StronglySorted_unmap with (f := c_perf_class)
      (R := fun c1 c2 => (class_rank c1 <= class_rank c2)%nat).
    rewrite map_map. cbn [c_perf_class card].
    rewrite (indexed_map_snd (fun s => get_performance_class (latest_rate s))).
    apply StronglySorted_map with (f := fun s => get_performance_class (latest_rate s))
      (R := fun c1 c2 => (class_rank c1 <= class_rank c2)%nat).
    apply process_data_ok in Hrun
      as [[-> _]|[r [rest [tdf [adf [vc [dca [_ [_ [_ [_ ->]]]]]]]]]]]; [constructor|].
    destruct (sort_summary_spec E HE
                (summary_data E today (max_period r rest) chart))
      as [valued [-> [_ Hs]]].
    apply StronglySorted_app_intro.
    + eapply StronglySorted_weaken; [|exact Hs]. apply class_rank_monotone.
    + assert (Hall : Forall (fun s => latest_rate s = None)
                       (filter missing_rate
                               (summary_data E today (max_period r rest) chart))).
      { apply Forall_forall. intros s Hs'. apply filter_In in Hs' as [_ Hs'].
        unfold missing_rate, has_key in Hs'. now destruct (latest_rate s). }
      induction Hall as [|s l Hn Hl IH]; constructor; auto.
      eapply Forall_impl; [|exact Hl]. intros y Hy. simpl in Hy.
      rewrite Hn, Hy. apply Nat.le_refl.
    + intros x y _ Hy. apply filter_In in Hy as [_ Hy].
      unfold missing_rate, has_key in Hy.
      destruct (latest_rate y); [discriminate|]. simpl. apply class_rank_le_3.
Qed.

Lemma cards_in_rank_order_witness :
  map c_rank (r_cards (generate_html (fst scenario_tables) (snd scenario_tables) None))
  = [1; 2]%nat.
Proof.
  apply (cards_in_rank_order std_env std_env_ok
           (Some scenario_target) (Some scenario_actual) scenario_today
           (fst scenario_tables) (snd scenario_tables) None eq_refl).
Defined.

(** X16: every card of the report has an entry in the chart data the page
    embeds: clicking a card finds a non-empty series, which lists the
    achievement rates of that department in chart order; the entries of
    the chart data have distinct keys. *)
Theorem cards_have_chart_data (E : Env) (t a : option DataFrame) (today : Timestamp)
    (summary : list DepartmentSummary) (chart : list AchievementRecord)
    (google_analytics_id : option string) (c : Card) :
  snd (process_data E t a today) = Ok (summary, chart) ->
  let report := generate_html summary chart google_analytics_id in
  In c (r_cards report) ->
  NoDup (map fst (r_chart_data report)) /\
  exists data, In (c_dept c, data) (r_chart_data report) /\ data <> [] /\
               map j_rate data = map achievement_rate (dept_rows chart (c_dept c)).
Proof.
  intros Hrun report Hc.
  unfold report, generate_html, cards_html, chart_json_data in *; cbn [r_cards r_chart_data] in *.
  split.
  - rewrite map_map. cbn [fst]. unfold groupby. rewrite map_map. cbn [fst].
    rewrite map_id. apply (groupby_keys chart).
  - apply in_map_iff in Hc as [[i s] [<- Hin]]. cbn [fst snd card c_dept].
    apply in_combine_r in Hin.
    apply process_data_ok in Hrun
      as [[-> _]|[r [rest [tdf [adf [vc [dca [_ [_ [_ [_ ->]]]]]]]]]]]; [destruct Hin|].
    apply summary_In in Hin as [k [Hk ->]]. cbn [s_dept dept_summary].
    exists (map (fun r => mkJson (dept r) (strftime_ymd (period r)) (actual_value r)
                                 (target_value r) (achievement_rate r))
                (dept_rows chart k)).
    split; [|split].
    + apply in_map_iff. exists (k, dept_rows chart k). split; [reflexivity|].
      now apply groupby_has.
    + apply in_map_iff in Hk as [x [Hx Hin]].
      assert (Hx' : In x (dept_rows chart k)) by (apply dept_rows_In; auto).
      destruct (dept_rows chart k); [destruct Hx' | discriminate].
    + rewrite map_map. reflexivity.
Qed.

Lemma cards_have_chart_data_witness :
  NoDup (map fst (r_chart_data
                    (generate_html (fst scenario_tables) (snd scenario_tables) None))).
Proof.
  apply (cards_have_chart_data std_env
           (Some scenario_target) (Some scenario_actual) scenario_today
           (fst scenario_tables) (snd scenario_tables) None
           (card 0 (hd (mkSum EmptyString None None None EmptyString 0 None)
                       (fst scenario_tables))) eq_refl).
  left; reflexivity.
Defined.

(** X17: when no actual value of the chart is negative, the progress bar
    of every card is between 0 and 100 percent wide. *)
Theorem progress_width_bounded (E : Env) (t a : option DataFrame) (today : Timestamp)
    (summary : list DepartmentSummary) (chart : list AchievementRecord)
    (google_analytics_id : option string) (c : Card) :
  snd (process_data E t a today) = Ok (summary, chart) ->
  (forall r, In r chart -> (0 <= actual_value r)%Q) ->
  In c (r_cards (generate_html summary chart google_analytics_id)) ->
  (0 <= c_progress_width c)%Q /\ (c_progress_width c <= 100)%Q.
Proof.
  intros Hrun Hpos Hc.
  unfold generate_html, cards_html in Hc; cbn [r_cards] in Hc.
  apply in_map_iff in Hc as [[i s] [<- Hin]]. cbn [fst snd card c_progress_width].
  apply in_combine_r in Hin.
  destruct (latest_rate s) as [v|] eqn:Hv; [|split; discriminate].
  assert (H0 : (0 <= v)%Q).
  { destruct (latest_rate_record E t a today summary chart s v Hrun Hin Hv)
      as [x [Hx [_ [_ ->]]]].
    destruct t as [tdf|]; [|discriminate Hrun || (simpl in Hrun; injection Hrun as <- <-; destruct Hx)].
    destruct a as [adf|]; [|simpl in Hrun; injection Hrun as <- <-; destruct Hx].
    destruct (chart_record_facts E tdf adf today summary chart x Hrun Hx)
      as [Ht [-> _]].
    assert (Hd : (0 <= actual_value x / target_value x)%Q).
    { apply Qle_shift_div_l; auto. rewrite Qmult_0_l. now apply Hpos. }
    lra. }
  destruct (Qlt_bool 100 v) eqn:H100.
  - split; discriminate.
  - split; auto. apply Qnot_lt_le. intros H. apply Qlt_bool_iff in H. congruence.
Qed.

Lemma progress_width_bounded_witness :
  Forall (fun c => (0 <= c_progress_width c)%Q /\ (c_progress_width c <= 100)%Q)
         (r_cards (generate_html (fst scenario_tables) (snd scenario_tables) None)).
Proof.
  apply Forall_forall. intros c Hc.
  apply (progress_width_bounded std_env
           (Some scenario_target) (Some scenario_actual) scenario_today
           (fst scenario_tables) (snd scenario_tables) None c eq_refl); auto.
  intros r Hr. simpl in Hr.
  destruct Hr as [<-|[<-|[<-|[<-|[]]]]]; discriminate.
Defined.

(** ** The regression line of the chart page *)

Lemma sumQ_app (l l' : list Q) : (sumQ (l ++ l') == sumQ l + sumQ l')%Q.
Proof. induction l as [|x l IH]; simpl; [ring | rewrite IH; ring]. Qed.

Lemma inject_nat_S (n : nat) :
  (inject_Z (Z.of_nat (S n)) == inject_Z (Z.of_nat n) + 1)%Q.
Proof. rewrite Nat2Z.inj_succ. unfold Z.succ. rewrite inject_Z_plus. reflexivity. Qed.

Lemma sum_indices (n : nat) :
  let N := inject_Z (Z.of_nat n) in
  let xs := map (fun i => inject_Z (Z.of_nat i)) (seq 0 n) in
  (sumQ xs * 2 == N * (N - 1))%Q /\
  (sumQ (map (fun x => x * x) xs) * 6 == (N - 1) * N * (2 * N - 1))%Q.
Proof.
  induction n as [|n [IH1 IH2]]; [split; reflexivity|].
  cbv zeta in *. rewrite seq_S, !map_app, !sumQ_app. simpl plus. simpl map. simpl sumQ.
  rewrite inject_nat_S.
  set (N := inject_Z (Z.of_nat n)) in *.
  set (s1 := sumQ (map (fun i => inject_Z (Z.of_nat i)) (seq 0 n))) in *.
  set (s2 := sumQ (map (fun x => x * x)
                       (map (fun i => inject_Z (Z.of_nat i)) (seq 0 n)))%Q) in *.
  split.
  - setoid_replace ((s1 + (N + 0)) * 2)%Q with (s1 * 2 + 2 * N)%Q by ring.
    rewrite IH1. ring.
  - setoid_replace ((s2 + (N * N + 0)) * 6)%Q with (s2 * 6 + 6 * N * N)%Q by ring.
    rewrite IH2. ring.
Qed.

Lemma combine_map_same {A B C : Type} (f : A -> B) (g : A -> C) (l : list A) :
  combine (map f l) (map g l) = map (fun x => (f x, g x)) l.
Proof. induction l as [|x l IH]; simpl; auto. now rewrite IH. Qed.

Lemma sumQ_map_const {A : Type} (c : Q) (l : list A) :
  (sumQ (map (fun _ => c) l) == inject_Z (Z.of_nat (List.length l)) * c)%Q.
Proof.
  induction l as [|x l IH]; [simpl; ring|].
  change (List.length (x :: l)) with (S (List.length l)).
  rewrite inject_nat_S. simpl. rewrite IH. ring.
Qed.

Lemma regression_sums (a b : Q) (n : nat) :
  let N := inject_Z (Z.of_nat n) in
  let xs := map (fun i => inject_Z (Z.of_nat i)) (seq 0 n) in
  let s1 := sumQ xs in
  let s2 := sumQ (map (fun x => x * x) xs)%Q in
  (sumQ (linear_series a b n) == N * a + b * s1)%Q /\
  (sumQ (map (fun xy => fst xy * snd xy) (combine xs (linear_series a b n)))
   == a * s1 + b * s2)%Q.
Proof.
  cbv zeta. unfold linear_series. rewrite combine_map_same, !map_map. cbn [fst snd].
  split.
  - rewrite (sumQ_map_plus (fun _ => a) (fun i => b * inject_Z (Z.of_nat i))%Q).
    rewrite sumQ_map_const, length_seq.
    rewrite (sumQ_map_ext (fun i => b * inject_Z (Z.of_nat i))%Q
                          (fun i => inject_Z (Z.of_nat i) * b)%Q)
      by (intros; ring).
    rewrite (sumQ_map_scale (fun i => inject_Z (Z.of_nat i)) b). ring.
  - rewrite (sumQ_map_ext _ (fun i => inject_Z (Z.of_nat i) * a
                                      + inject_Z (Z.of_nat i) * inject_Z (Z.of_nat i) * b)%Q)
      by (intros; ring).
    rewrite sumQ_map_plus.
    rewrite (sumQ_map_scale (fun i => inject_Z (Z.of_nat i)) a).
    rewrite (sumQ_map_scale (fun i => inject_Z (Z.of_nat i) * inject_Z (Z.of_nat i))%Q b).
    ring.
Qed.

Lemma regression_denominator (n : nat) :
  (2 <= n)%nat ->
  let N := inject_Z (Z.of_nat n) in
  let xs := map (fun i => inject_Z (Z.of_nat i)) (seq 0 n) in
  ~ (N * sumQ (map (fun x => x * x) xs) - sumQ xs * sumQ xs == 0)%Q /\ ~ (N == 0)%Q.
Proof.
  intros Hn N xs. destruct (sum_indices n) as [H1 H2]. fold N xs in H1, H2.
  assert (HN : (2 <= N)%Q).
  { unfold N. change 2%Q with (inject_Z 2). rewrite <- Zle_Qle. lia. }
  set (s1 := sumQ xs) in *. set (s2 := sumQ (map (fun x => x * x) xs)%Q) in *.
  assert (Hd : ((N * s2 - s1 * s1) * 12 == N * N * (N - 1) * (N + 1))%Q).
  { setoid_replace ((N * s2 - s1 * s1) * 12)%Q
      with (2 * N * (s2 * 6) - 3 * (s1 * 2) * (s1 * 2))%Q by ring.
    rewrite H1, H2. ring. }
  split; [|intros H0; rewrite H0 in HN; lra].
  intros H0. rewrite H0 in Hd.
  assert (Hpos : (0 < N * N * (N - 1) * (N + 1))%Q).
  { repeat apply Qmult_lt_0_compat; lra. }
  rewrite <- Hd in Hpos. rewrite Qmult_0_l in Hpos. exact (Qlt_irrefl 0 Hpos).
Qed.

(** X18: for a series with at least two points that lie on a line
    y = a + b * i, the regression computed for the chart page has slope b
    and intercept a, so the trend line it draws runs through every
    point. *)
Theorem regression_recovers_line (a b : Q) (n : nat) :
  (2 <= n)%nat ->
  let y := linear_series a b n in
  (fst (calculateLinearRegression y) == b)%Q /\
  (snd (calculateLinearRegression y) == a)%Q /\
  Forall2 Qeq (regressionY y) y.
Proof.
  intros Hn y.
  assert (Hlen : List.length y = n) by (unfold y, linear_series; now rewrite length_map, length_seq).
  destruct (regression_sums a b n) as [Hy Hxy].
  destruct (regression_denominator n Hn) as [Hd HN].
  cbv zeta in Hy, Hxy, Hd, HN. fold y in Hy, Hxy.
  assert (Hslope : (fst (calculateLinearRegression y) == b)%Q).
  { unfold calculateLinearRegression; cbn [fst]. rewrite Hlen, Hy, Hxy.
    set (N := inject_Z (Z.of_nat n)) in *.
    set (s1 := sumQ (map (fun i => inject_Z (Z.of_nat i)) (seq 0 n))) in *.
    set (s2 := sumQ (map (fun x => x * x)
                         (map (fun i => inject_Z (Z.of_nat i)) (seq 0 n)))%Q) in *.
    field. exact Hd. }
  assert (Hint : (snd (calculateLinearRegression y) == a)%Q).
  { change (snd (calculateLinearRegression y))
      with ((sumQ y - fst (calculateLinearRegression y)
                      * sumQ (map (fun i => inject_Z (Z.of_nat i)) (seq 0 (List.length y))))
            / inject_Z (Z.of_nat (List.length y)))%Q.
    rewrite Hslope, Hlen, Hy. field. exact HN. }
  split; [exact Hslope|]. split; [exact Hint|].
  unfold regressionY. rewrite Hlen.
  set (reg := calculateLinearRegression y) in *.
  unfold y, linear_series. clear Hy Hxy Hd.
  induction (seq 0 n) as [|i l IH]; cbn [map]; constructor; auto.
  now rewrite Hslope, Hint.
Qed.

Lemma regression_recovers_line_witness :
  (fst (calculateLinearRegression (linear_series 3 2 4)) == 2)%Q.
Proof. apply (regression_recovers_line 3 2 4). lia. Defined.

(** * Properties of the loader and of the page *)

Lemma header_eqb_eq (a b : header) : header_eqb a b = true <-> a = b.
Proof.
  destruct a as [x|x], b as [y|y]; simpl; split; try discriminate.
  - intros H. apply String.eqb_eq in H. now subst.
  - intros [= ->]. apply String.eqb_refl.
  - intros H. apply ts_eqb_eq in H. now subst.
  - intros [= ->]. now apply ts_eqb_eq.
Qed.

Lemma filter_label_none (h : header) (l : DataFrame) :
  ~ In h (map label l) -> filter (fun c => header_eqb (label c) h) l = [].
Proof.
  induction l as [|c l IH]; simpl; intros H; auto.
  destruct (header_eqb (label c) h) eqn:He.
  - apply header_eqb_eq in He. exfalso. apply H. now left.
  - apply IH. intros Hin. apply H. now right.
Qed.

Lemma select_distinct (pre l : DataFrame) :
  NoDup (map label (pre ++ l)) -> select_columns (pre ++ l) (map label l) = l.
Proof.
  revert pre; induction l as [|c l IH]; intros pre Hnd; [reflexivity|].
  unfold select_columns in *. simpl.
  specialize (IH (pre ++ [c])). rewrite <- app_assoc in IH. simpl in IH.
  rewrite IH by exact Hnd.
  rewrite filter_app. simpl.
  rewrite (proj2 (header_eqb_eq (label c) (label c)) eq_refl).
  rewrite map_app in Hnd. simpl in Hnd.
  pose proof (NoDup_remove_2 _ _ _ Hnd) as Hout.
  rewrite !filter_label_none; [reflexivity| |];
    intros Hin; apply Hout, in_or_app; auto.
Qed.

Lemma is_target_header_preserved (h : header) :
  is_target_header h = true -> should_preserve h = true.
Proof.
  unfold is_target_header, should_preserve, preserve_keywords. intros H.
  apply existsb_exists.
  apply orb_true_iff in H as [H|H]; [apply orb_true_iff in H as [H|H]|].
  - exists "目標"%string. split; [simpl; tauto | exact H].
  - exists "target"%string. split; [simpl; tauto | exact H].
  - exists "goal"%string. split; [simpl; tauto | exact H].
Qed.

Lemma new_column_target (R : Readers) (h : header) :
  is_target_header (new_column R h) = is_target_header h.
Proof.
  unfold new_column. destruct (should_preserve h) eqn:Hp; [reflexivity|].
  destruct h as [s|t]; [|reflexivity].
  destruct (to_datetime_text R s); [|reflexivity].
  destruct (is_target_header (HLabel s)) eqn:Ht; [|reflexivity].
  apply is_target_header_preserved in Ht. congruence.
Qed.

Lemma find_index_map {A : Type} (p : A -> bool) (f : A -> A) (l : list A) :
  (forall x, p (f x) = p x) -> find_index p (map f l) = find_index p l.
Proof.
  intros H; induction l as [|x l IH]; simpl; auto. now rewrite H, IH.
Qed.

Lemma rename_columns_target (R : Readers) (df : DataFrame) :
  target_value_col (rename_columns R df) = target_value_col df.
Proof.
  unfold rename_columns, target_value_col.
  destruct df as [|c0 [|c1 df]]; try reflexivity.
  cbn [map tl].
  change (find_index (fun c => is_target_header (label c))
            (mkCol (new_column R (label c1)) (numeric c1) (cells c1)
             :: map (fun c => mkCol (new_column R (label c)) (numeric c) (cells c)) df))
    with (find_index (fun c => is_target_header (label c))
            (map (fun c => mkCol (new_column R (label c)) (numeric c) (cells c))
                 (c1 :: df))).
  rewrite find_index_map; [reflexivity|].
  intros x. simpl. apply new_column_target.
Qed.

Lemma load_data_distinct (R : Readers) (f : UploadedFile) (df : DataFrame) :
  read_upload R f = Some df ->
  NoDup (map (new_column R) (map label df)) ->
  load_data R (Some f) = Some (rename_columns R df).
Proof.
  intros Hread Hnd. unfold load_data. rewrite Hread. cbv zeta. f_equal.
  apply (select_distinct [] (rename_columns R df)). simpl.
  unfold rename_columns. rewrite map_map. simpl. now rewrite map_map in Hnd.
Qed.

(** X19: when the headers of an upload stay distinct after the date
    parsing, [load_data] returns the table as the reader gave it, column
    for column with the same cells and dtypes, and only the headers
    replaced: a header with a preserve keyword or without a date reading
    as it was, any other by the date it parses to. *)
Theorem load_data_relabels (R : Readers) (f : UploadedFile) (df : DataFrame) :
  read_upload R f = Some df ->
  NoDup (map (new_column R) (map label df)) ->
  exists out, load_data R (Some f) = Some out /\
    map cells out = map cells df /\ map numeric out = map numeric df /\
    Forall2 (fun c c' =>
               label c' = (if should_preserve (label c) then label c
                           else match label c with
                                | HDate t => HDate t
                                | HLabel s => match to_datetime_text R s with
                                              | Some d => HDate d
                                              | None => HLabel s
                                              end
                                end)) df out.
Proof.
  intros Hread Hnd. exists (rename_columns R df).
  split; [now apply load_data_distinct|].
  unfold rename_columns. rewrite !map_map. simpl.
  repeat split; try reflexivity.
  clear. induction df as [|c df IH]; simpl; constructor; auto.
Qed.

Lemma load_data_relabels_witness :
  exists out, load_data demo_readers (Some demo_file) = Some out /\
              map cells out = map cells demo_frame.
Proof.
  destruct (load_data_relabels demo_readers demo_file demo_frame) as [out [H1 [H2 _]]].
  - reflexivity.
  - simpl. repeat constructor; simpl; intuition discriminate.
  - exists out. auto.
Defined.

(** X20: loading never changes which column [process_data] takes as the
    target-value column: a header that holds a target keyword is kept as
    text even when it reads as a date, and no header gains one. *)
Theorem loader_keeps_target_column (R : Readers) (f : UploadedFile) (df : DataFrame) :
  read_upload R f = Some df ->
  NoDup (map (new_column R) (map label df)) ->
  exists out, load_data R (Some f) = Some out /\
    target_value_col out = target_value_col df /\
    Forall2 (fun c c' => is_target_header (label c) = true -> label c' = label c) df out.
Proof.
  intros Hread Hnd. exists (rename_columns R df).
  split; [now apply load_data_distinct|].
  split; [apply rename_columns_target|].
  unfold rename_columns. clear.
  induction df as [|c df IH]; simpl; constructor; auto.
  simpl. intros H. apply is_target_header_preserved in H.
  unfold new_column. now rewrite H.
Qed.

Lemma loader_keeps_target_column_witness :
  exists out, load_data demo_readers (Some demo_file) = Some out /\
              target_value_col out = Some 2%nat.
Proof.
  destruct (loader_keeps_target_column demo_readers demo_file demo_frame)
    as [out [H1 [H2 _]]].
  - reflexivity.
  - simpl. repeat constructor; simpl; intuition discriminate.
  - exists out. split; [exact H1 | rewrite H2; reflexivity].
Defined.

Lemma read_upload_unsupported (R : Readers) (f : UploadedFile) :
  supported_extension f = false -> read_upload R f = None.
Proof.
  unfold supported_extension, read_upload. cbv zeta.
  destruct (String.eqb _ ".csv"); [discriminate|].
  destruct (String.eqb _ ".xlsx"); [discriminate|].
  destruct (String.eqb _ ".xls"); [discriminate | reflexivity].
Qed.

(** X21: when either uploaded file has an extension other than .csv,
    .xlsx or .xls (in any letter case), or its reader fails, the page
    ends with the message that processing failed: it neither raises nor
    shows a report. *)
Theorem app_rejects_unreadable_upload (R : Readers) (E : Env)
    (target_file actual_file : UploadedFile) (now : Timestamp) :
  supported_extension target_file = false \/
  supported_extension actual_file = false \/
  read_upload R target_file = None \/ read_upload R actual_file = None ->
  app R E (Some target_file) (Some actual_file) now = ProcessingFailed.
Proof.
  intros H.
  assert (H' : read_upload R target_file = None \/ read_upload R actual_file = None).
  { destruct H as [H|[H|[H|H]]]; auto using read_upload_unsupported. }
  unfold app, load_data.
  destruct H' as [H'|H']; rewrite H'; [reflexivity|].
  destruct (read_upload R target_file); reflexivity.
Qed.

Lemma app_rejects_unreadable_upload_witness :
  app demo_readers std_env (Some (mkFile "target.pdf" EmptyString)) (Some demo_file)
      scenario_today = ProcessingFailed.
Proof.
  apply (app_rejects_unreadable_upload demo_readers std_env
           (mkFile "target.pdf" EmptyString) demo_file scenario_today).
  left. reflexivity.
Defined.

(** ** Thousands separators *)

Lemma substring_chars (c : ascii) (s : string) (n m : nat) :
  In c (list_ascii_of_string (substring n m s)) -> In c (list_ascii_of_string s).
Proof.
  revert n m; induction s as [|a s IH]; intros [|n] [|m]; simpl; auto;
    intros H; try contradiction;
    try (destruct H as [H|H]; [now left | right; eauto]);
    right; eauto.
Qed.

Lemma str_remove_chars (c : ascii) (pat : string) (fuel : nat) (s : string) :
  In c (list_ascii_of_string (str_remove_fuel fuel pat s)) ->
  In c (list_ascii_of_string s).
Proof.
  revert s; induction fuel as [|fuel IH]; intros s; simpl; auto.
  destruct s as [|a s]; auto.
  destruct (prefix pat (String a s)).
  - intros H. apply IH in H. now apply substring_chars in H.
  - simpl. intros [H|H]; [now left | right; auto].
Qed.

Lemma contains_comma (s : string) :
  contains "," s = false <-> ~ In ","%char (list_ascii_of_string s).
Proof.
  induction s as [|a s IH]; [simpl; tauto|].
  cbn [contains list_ascii_of_string In].
  change (prefix "," (String a s)) with (if ascii_dec "," a then prefix "" s else false).
  destruct (ascii_dec "," a) as [<-|Hne].
  - replace (prefix "" s) with true by (destruct s; reflexivity).
    cbn [orb]. split; [discriminate | intros H; exfalso; apply H; now left].
  - cbn [orb]. rewrite IH. split; [intros H [H'|H']; auto; congruence | tauto].
Qed.

Lemma substring_all (s : string) : substring 0 (String.length s) s = s.
Proof. induction s as [|a s IH]; simpl; auto. now rewrite IH. Qed.

Lemma str_remove_comma (fuel : nat) (s : string) :
  (String.length s < fuel)%nat ->
  contains "," (str_remove_fuel fuel "," s) = false.
Proof.
  revert s; induction fuel as [|fuel IH]; intros s Hlen; [lia|].
  destruct s as [|a s]; [reflexivity|].
  cbn [str_remove_fuel]. cbn [String.length] in Hlen.
  change (prefix "," (String a s)) with (if ascii_dec "," a then prefix "" s else false).
  destruct (ascii_dec "," a) as [<-|Hne].
  - replace (prefix "" s) with true by (destruct s; reflexivity).
    change (String.length ",") with 1%nat. cbn [String.length].
    replace (S (String.length s) - 1)%nat with (String.length s) by lia.
    cbn [substring]. rewrite substring_all. apply IH. lia.
  - cbn [contains].
    match goal with
    | |- context [prefix "," (String a ?x)] =>
        change (prefix "," (String a x)) with (if ascii_dec "," a then prefix "" x else false)
    end.
    destruct (ascii_dec "," a); [contradiction|]. cbn [orb]. apply IH. lia.
Qed.

(** X22: the text handed to [float] and to [to_numeric] after
    [.replace(',', '').replace('，', '')] holds no ASCII comma,
    whatever the cell held. *)
Theorem strip_separators_no_comma (s : string) :
  contains "," (strip_separators s) = false.
Proof.
  unfold strip_separators. apply contains_comma.
  intros H. unfold str_remove at 1 in H. apply str_remove_chars in H.
  apply contains_comma in H; auto.
  unfold str_remove. apply str_remove_comma. lia.
Qed.
